(** * Barcode Inspector: the capture-and-persist pipeline of [BarCam.py]

    A shallow embedding of the scanner application's core (class
    [BarcodeApp] of [src/BarCam.py], with the older [stop_camera] of
    [src/Barcam.py] kept beside it) and the properties its specification
    states about it.

    Conventions of the embedding:
    - a Python [str] is a list of Unicode code points ([str := list N]);
      [bytes] is a list of octets, each an [N] below 256;
    - the attributes of [self] that the core reads or writes form the
      record [App]; everything outside the process (files, opened devices,
      the serial line, dialogs and tones, the frames the camera will
      deliver) forms the record [World];
    - the outcome of every call into a library or the operating system that
      the code guards with [try] (or that can fail on a real machine) is
      decided by an [Env] record of oracles, so each theorem holds for
      every behaviour of the environment unless it says otherwise;
    - a method is a function from [App * World] to an [outcome], which
      records whether the method returned or let an exception escape;
    - pure display widgets (labels, pixmap, table, style sheets) and the
      drawing on the frame are not part of the model: their failures are
      swallowed by the code and no other attribute depends on them. *)

From stdpp Require Import gmap list.
From Stdlib Require Import NArith ZArith Ascii String.

Open Scope N_scope.

(** ** Text *)

(** A Python string: its code points. *)
Definition str : Type := list N.

(** An ASCII literal as a Python string. *)
Definition py (s : string) : str := N_of_ascii <$> list_ascii_of_string s.

Module PyStr.

(** [str.isspace] on one code point, the set used by [str.split()] and
    [str.strip()] without arguments. *)
Definition isspace (c : N) : bool :=
  ((0x09 <=? c) && (c <=? 0x0D)) || ((0x1C <=? c) && (c <=? 0x1F))
  || (c =? 0x20) || (c =? 0x85) || (c =? 0xA0) || (c =? 0x1680)
  || ((0x2000 <=? c) && (c <=? 0x200A)) || (c =? 0x2028) || (c =? 0x2029)
  || (c =? 0x202F) || (c =? 0x205F) || (c =? 0x3000).

(** [s.split()]: the maximal runs of non-whitespace, in order. [acc] holds
    the reversed token being read. *)
Fixpoint split_go (acc : str) (s : str) : list str :=
  match s with
  | [] => match acc with [] => [] | _ => [rev acc] end
  | c :: s' =>
      if isspace c
      then match acc with [] => split_go [] s' | _ => rev acc :: split_go [] s' end
      else split_go (c :: acc) s'
  end.

Definition split (s : str) : list str := split_go [] s.

(** [s.split(sep)] for a one-character separator: cut at every occurrence;
    the result is never empty. *)
Fixpoint split_sep_go (sep : N) (acc : str) (s : str) : list str :=
  match s with
  | [] => [rev acc]
  | c :: s' =>
      if c =? sep then rev acc :: split_sep_go sep [] s'
      else split_sep_go sep (c :: acc) s'
  end.

Definition split_sep (sep : N) (s : str) : list str := split_sep_go sep [] s.

(** [s.lstrip()], [s.rstrip()], [s.strip()]. *)
Fixpoint lstrip (s : str) : str :=
  match s with
  | [] => []
  | c :: s' => if isspace c then lstrip s' else s
  end.

Fixpoint rstrip (s : str) : str :=
  match s with
  | [] => []
  | c :: s' =>
      match rstrip s' with
      | [] => if isspace c then [] else [c]
      | r => c :: r
      end
  end.

Definition strip (s : str) : str := rstrip (lstrip s).

(** [s.startswith(c)] and [s.endswith(c)] for a one-character [c]. *)
Definition startswith (c : N) (s : str) : bool :=
  match s with x :: _ => x =? c | [] => false end.

Definition endswith (c : N) (s : str) : bool :=
  match last s with Some x => x =? c | None => false end.

(** [str(n)] for a natural number. *)
Fixpoint digits_go (fuel : nat) (n : N) (acc : str) : str :=
  match fuel with
  | O => acc
  | S fuel' =>
      let acc' := (0x30 + n mod 10) :: acc in
      if n <? 10 then acc' else digits_go fuel' (n / 10) acc'
  end.

Definition of_N (n : N) : str := digits_go (S (N.to_nat (N.log2 n))) n [].

End PyStr.

(** The characters the code names. *)
Definition minus : N := 0x2D.
Definition comma : N := 0x2C.
Definition newline : N := 0x0A.
Definition slash : N := 0x2F.

(** ** Identifier normalization ([extract_sku]) *)

(** [l[0]]: [None] stands for the [IndexError] of an empty list. *)
Definition index0 {A} (l : list A) : option A := head l.

(** [extract_sku]: [barcode_value.split()[0].split('-')[0]], and
    [barcode_value] itself when that raises. *)
Definition extract_sku (barcode_value : str) : str :=
  default barcode_value
    (tok ← index0 (PyStr.split barcode_value);
     index0 (PyStr.split_sep minus tok)).

(** The rule in the specification's words. *)
Module SpecRule.

(** The text up to the first character satisfying [stop]. *)
Fixpoint before_first (stop : N -> bool) (s : str) : str :=
  match s with
  | [] => []
  | c :: s' => if stop c then [] else c :: before_first stop s'
  end.

(** Trim, keep what precedes the first whitespace run, then keep what
    precedes the first ['-']. There is nothing to keep, and the rule
    fails, when the trimmed text is empty. *)
Definition normalize (payload : str) : option str :=
  match PyStr.strip payload with
  | [] => None
  | t => Some (before_first (N.eqb minus) (before_first PyStr.isspace t))
  end.

(** The Identifier: the normalized text, or the payload as it is. *)
Definition identifier (payload : str) : str := default payload (normalize payload).

End SpecRule.

(** ** UTF-8 ([bytes.decode("utf-8")] and [str.encode()]) *)

Module Utf8.

(** A continuation octet. *)
Definition cont (b : N) : bool := (0x80 <=? b) && (b <=? 0xBF).

(** Strict decoding: overlong forms, surrogates, values above U+10FFFF and
    truncated sequences are rejected ([None] is [UnicodeDecodeError]). *)
Fixpoint decode (bs : list N) : option str :=
  match bs with
  | [] => Some []
  | b0 :: r0 =>
      if b0 <? 0x80 then cons b0 <$> decode r0
      else if (0xC2 <=? b0) && (b0 <=? 0xDF) then
        match r0 with
        | b1 :: r1 =>
            if cont b1
            then cons ((b0 - 0xC0) * 64 + (b1 - 0x80)) <$> decode r1
            else None
        | _ => None
        end
      else if (0xE0 <=? b0) && (b0 <=? 0xEF) then
        match r0 with
        | b1 :: b2 :: r2 =>
            if cont b1 && cont b2
               && (negb (b0 =? 0xE0) || (0xA0 <=? b1))
               && (negb (b0 =? 0xED) || (b1 <=? 0x9F))
            then cons ((b0 - 0xE0) * 4096 + (b1 - 0x80) * 64 + (b2 - 0x80))
                   <$> decode r2
            else None
        | _ => None
        end
      else if (0xF0 <=? b0) && (b0 <=? 0xF4) then
        match r0 with
        | b1 :: b2 :: b3 :: r3 =>
            if cont b1 && cont b2 && cont b3
               && (negb (b0 =? 0xF0) || (0x90 <=? b1))
               && (negb (b0 =? 0xF4) || (b1 <=? 0x8F))
            then cons ((b0 - 0xF0) * 262144 + (b1 - 0x80) * 4096
                       + (b2 - 0x80) * 64 + (b3 - 0x80))
                   <$> decode r3
            else None
        | _ => None
        end
      else None
  end.

(** The code points a decoded string can hold: Unicode scalar values. *)
Definition is_scalar (c : N) : bool :=
  (c <? 0xD800) || ((0xE000 <=? c) && (c <? 0x110000)).

(** One code point as octets; a surrogate cannot be encoded
    ([UnicodeEncodeError]). *)
Definition encode_char (c : N) : option (list N) :=
  if c <? 0x80 then Some [c]
  else if c <? 0x800 then Some [0xC0 + c / 64; 0x80 + c mod 64]
  else if (0xD800 <=? c) && (c <=? 0xDFFF) then None
  else if c <? 0x10000
  then Some [0xE0 + c / 4096; 0x80 + (c / 64) mod 64; 0x80 + c mod 64]
  else if c <? 0x110000
  then Some [0xF0 + c / 262144; 0x80 + (c / 4096) mod 64;
             0x80 + (c / 64) mod 64; 0x80 + c mod 64]
  else None.

Fixpoint encode (s : str) : option (list N) :=
  match s with
  | [] => Some []
  | c :: s' =>
      bs ← encode_char c;
      rest ← encode s';
      Some (bs ++ rest)
  end.

End Utf8.

(** ** Paths ([os.path.join] on a POSIX host) *)

Definition path_join (a b : str) : str :=
  if PyStr.startswith slash b then b
  else match a with
       | [] => b
       | _ => if PyStr.endswith slash a then a ++ b else a ++ slash :: b
       end.

(** ** The environment, the world and the application object *)

Inductive platform := Linux | Windows | OtherOS.

(** A frame is opaque to the pipeline. *)
Definition Frame : Type := N.

(** A decoded symbol; only its [data] (bytes) reaches the core logic. *)
Record Symbol := { data : list N }.

(** [cv2.VideoCapture(...)]: raises, or returns a capture whose
    [isOpened()] is false or true. *)
Inductive vc_result := VcRaises | VcClosed | VcOpened.

(** [capture.read()]: raises, returns no frame ([ret] false or [frame]
    [None]), or returns a frame. *)
Inductive read_result := RdRaises | RdNothing | RdFrame (f : Frame).

(** [cv2.imwrite]: writes the file, returns [False], or raises. *)
Inductive imwrite_result := ImWritten | ImRefused | ImRaises.

(** A cell of a [pandas] column and a data frame as named columns. *)
Inductive cell := CStr (s : str) | CInt (z : Z) | CNaN.
Definition DataFrame : Type := list (str * list cell).

(** What the libraries and the operating system answer during one call of
    a method. *)
Record Env := {
  platform_system : platform;
  cv2_CAP_V4L2 : option N;          (* [None]: the attribute is absent *)
  cv2_CAP_DSHOW : option N;
  cv2_VideoCapture : N -> option N -> vc_result;
  release_ok : bool;                (* [capture.release()] does not raise *)
  serial_Serial : str -> bool;      (* [serial.Serial(port, 9600, timeout=1)] opens *)
  serial_close_ok : bool;
  serial_write_ok : list N -> bool;
  pyzbar_decode : Frame -> option (list Symbol);   (* [None]: raises *)
  makedirs_ok : str -> bool;
  cv2_imwrite : str -> Frame -> imwrite_result;
  open_append_ok : str -> bool;     (* [open(path, "a")] and the writes succeed *)
  pd_read_csv : str -> str -> option DataFrame;    (* path, content; [None]: raises *)
  strftime : str                    (* [time.strftime("%Y%m%d-%H%M%S")] *)
}.

(** Dialogs and console lines. *)
Inductive message :=
  | MsgSerialError | MsgCameraOpenFailed | MsgDisconnected | MsgSnapshotFailed
  | MsgNoFolder (dir : str) | MsgFolderSelected (dir : str) | MsgSessionCleared
  | MsgImageWriteFailed | MsgLogWriteFailed.

(** Everything the application does to the outside, in order. *)
Inductive event :=
  | EvSerialOpen (port : str) (ok : bool)
  | EvSerialClose (port : str)
  | EvSerialWrite (bs : list N) (ok : bool)
  | EvVideoCapture (index : N) (backend : option N) (r : vc_result)
  | EvRelease (cap : nat)
  | EvRead (r : read_result)
  | EvDecode (f : Frame)
  | EvMakedirs (path : str) (ok : bool)
  | EvPersist (sku : str)                    (* [capture_image] entered *)
  | EvImwrite (path : str) (r : imwrite_result)
  | EvLogAppend (path : str) (text : str) (ok : bool)
  | EvReadCsv (path : str)
  | EvBeep (success : bool)
  | EvError (m : message)                    (* [QMessageBox.critical] *)
  | EvInfo (m : message)                     (* [QMessageBox.information] *)
  | EvPrint (m : message).

Record World := {
  files : gmap str str;        (* text files by path *)
  images : gmap str Frame;     (* image files by path *)
  dirs : gset str;             (* directories made by the application *)
  cwd : str;                   (* [os.path.abspath(".")] *)
  cams_open : gset nat;        (* captures opened and not released *)
  next_cam : nat;
  serials_open : list str;     (* serial ports held open *)
  feed : list read_result;     (* what the camera delivers, read by read *)
  trace : list event
}.

Record App := {
  capture : option nat;
  timer_active : bool;
  camera_index : option N;
  last_barcode : option str;
  barcode_set : gset str;
  save_location : str;
  serial_port : option str;
  settings_beep_enabled : option bool;   (* [settings.get("beep_enabled")] *)
  (* widgets the core reads *)
  serial_port_combo : str;               (* [currentText()] *)
  camera_combo : list N;                 (* items, each shown as [str(index)] *)
  camera_combo_current : option N;       (* [None]: the combo is empty *)
  order_input : str;
  beep_checkbox : bool
}.

Definition state : Type := App * World.

(** How a method ends: it returns, or an exception leaves it. *)
Inductive outcome := Returned (s : state) | Raised (s : state).

Definition final (o : outcome) : state :=
  match o with Returned s | Raised s => s end.

Definition returns (o : outcome) : bool :=
  match o with Returned _ => true | Raised _ => false end.

(** Sequencing that stops at an exception. *)
Definition bind (o : outcome) (k : state -> outcome) : outcome :=
  match o with Returned s => k s | Raised s => Raised s end.

Notation "o >>> k" := (bind o k) (at level 60, right associativity).

(** ** Field updates *)

Definition emit (e : event) (w : World) : World :=
  {| files := files w; images := images w; dirs := dirs w; cwd := cwd w;
     cams_open := cams_open w; next_cam := next_cam w;
     serials_open := serials_open w; feed := feed w;
     trace := trace w ++ [e] |}.

Definition with_files (f : gmap str str) (w : World) : World :=
  {| files := f; images := images w; dirs := dirs w; cwd := cwd w;
     cams_open := cams_open w; next_cam := next_cam w;
     serials_open := serials_open w; feed := feed w; trace := trace w |}.

Definition with_images (i : gmap str Frame) (w : World) : World :=
  {| files := files w; images := i; dirs := dirs w; cwd := cwd w;
     cams_open := cams_open w; next_cam := next_cam w;
     serials_open := serials_open w; feed := feed w; trace := trace w |}.

Definition with_dirs (d : gset str) (w : World) : World :=
  {| files := files w; images := images w; dirs := d; cwd := cwd w;
     cams_open := cams_open w; next_cam := next_cam w;
     serials_open := serials_open w; feed := feed w; trace := trace w |}.

Definition with_cams (c : gset nat) (n : nat) (w : World) : World :=
  {| files := files w; images := images w; dirs := dirs w; cwd := cwd w;
     cams_open := c; next_cam := n;
     serials_open := serials_open w; feed := feed w; trace := trace w |}.

Definition with_serials (l : list str) (w : World) : World :=
  {| files := files w; images := images w; dirs := dirs w; cwd := cwd w;
     cams_open := cams_open w; next_cam := next_cam w;
     serials_open := l; feed := feed w; trace := trace w |}.

Definition with_feed (l : list read_result) (w : World) : World :=
  {| files := files w; images := images w; dirs := dirs w; cwd := cwd w;
     cams_open := cams_open w; next_cam := next_cam w;
     serials_open := serials_open w; feed := l; trace := trace w |}.

Definition set_capture (c : option nat) (a : App) : App :=
  {| capture := c; timer_active := timer_active a;
     camera_index := camera_index a; last_barcode := last_barcode a;
     barcode_set := barcode_set a; save_location := save_location a;
     serial_port := serial_port a;
     settings_beep_enabled := settings_beep_enabled a;
     serial_port_combo := serial_port_combo a;
     camera_combo := camera_combo a;
     camera_combo_current := camera_combo_current a;
     order_input := order_input a; beep_checkbox := beep_checkbox a |}.

Definition set_timer (b : bool) (a : App) : App :=
  {| capture := capture a; timer_active := b;
     camera_index := camera_index a; last_barcode := last_barcode a;
     barcode_set := barcode_set a; save_location := save_location a;
     serial_port := serial_port a;
     settings_beep_enabled := settings_beep_enabled a;
     serial_port_combo := serial_port_combo a;
     camera_combo := camera_combo a;
     camera_combo_current := camera_combo_current a;
     order_input := order_input a; beep_checkbox := beep_checkbox a |}.

Definition set_camera_index (i : option N) (a : App) : App :=
  {| capture := capture a; timer_active := timer_active a;
     camera_index := i; last_barcode := last_barcode a;
     barcode_set := barcode_set a; save_location := save_location a;
     serial_port := serial_port a;
     settings_beep_enabled := settings_beep_enabled a;
     serial_port_combo := serial_port_combo a;
     camera_combo := camera_combo a;
     camera_combo_current := camera_combo_current a;
     order_input := order_input a; beep_checkbox := beep_checkbox a |}.

Definition set_last_barcode (l : option str) (a : App) : App :=
  {| capture := capture a; timer_active := timer_active a;
     camera_index := camera_index a; last_barcode := l;
     barcode_set := barcode_set a; save_location := save_location a;
     serial_port := serial_port a;
     settings_beep_enabled := settings_beep_enabled a;
     serial_port_combo := serial_port_combo a;
     camera_combo := camera_combo a;
     camera_combo_current := camera_combo_current a;
     order_input := order_input a; beep_checkbox := beep_checkbox a |}.

Definition set_barcode_set (s : gset str) (a : App) : App :=
  {| capture := capture a; timer_active := timer_active a;
     camera_index := camera_index a; last_barcode := last_barcode a;
     barcode_set := s; save_location := save_location a;
     serial_port := serial_port a;
     settings_beep_enabled := settings_beep_enabled a;
     serial_port_combo := serial_port_combo a;
     camera_combo := camera_combo a;
     camera_combo_current := camera_combo_current a;
     order_input := order_input a; beep_checkbox := beep_checkbox a |}.

Definition set_save_location (d : str) (a : App) : App :=
  {| capture := capture a; timer_active := timer_active a;
     camera_index := camera_index a; last_barcode := last_barcode a;
     barcode_set := barcode_set a; save_location := d;
     serial_port := serial_port a;
     settings_beep_enabled := settings_beep_enabled a;
     serial_port_combo := serial_port_combo a;
     camera_combo := camera_combo a;
     camera_combo_current := camera_combo_current a;
     order_input := order_input a; beep_checkbox := beep_checkbox a |}.

Definition set_serial_port (p : option str) (a : App) : App :=
  {| capture := capture a; timer_active := timer_active a;
     camera_index := camera_index a; last_barcode := last_barcode a;
     barcode_set := barcode_set a; save_location := save_location a;
     serial_port := p;
     settings_beep_enabled := settings_beep_enabled a;
     serial_port_combo := serial_port_combo a;
     camera_combo := camera_combo a;
     camera_combo_current := camera_combo_current a;
     order_input := order_input a; beep_checkbox := beep_checkbox a |}.

Definition set_camera_combo (items : list N) (cur : option N) (a : App) : App :=
  {| capture := capture a; timer_active := timer_active a;
     camera_index := camera_index a; last_barcode := last_barcode a;
     barcode_set := barcode_set a; save_location := save_location a;
     serial_port := serial_port a;
     settings_beep_enabled := settings_beep_enabled a;
     serial_port_combo := serial_port_combo a;
     camera_combo := items;
     camera_combo_current := cur;
     order_input := order_input a; beep_checkbox := beep_checkbox a |}.

(** ** The methods of [BarcodeApp] ([src/BarCam.py]) *)

Section Methods.

Variable env : Env.

(** [self.settings.get("beep_enabled", True)] *)
Definition settings_get_beep (a : App) : bool :=
  default true (settings_beep_enabled a).

(** [play_sound]: the tone is played on a detached thread. *)
Definition play_sound (success : bool) (w : World) : World :=
  emit (EvBeep success) w.

Definition show_error (m : message) (w : World) : World := emit (EvError m) w.

(** [self.order_input.text().strip() or "NoOrder"] *)
Definition order_number (a : App) : str :=
  match PyStr.strip (order_input a) with
  | [] => py "NoOrder"
  | o => o
  end.

(** *** Opening and releasing devices *)

Definition _get_preferred_backend : N :=
  match platform_system env with
  | Linux => default 0 (cv2_CAP_V4L2 env)
  | Windows => default 0 (cv2_CAP_DSHOW env)
  | OtherOS => 0
  end.

(** The truth value of an optional backend flag ([if backend_flag:]). *)
Definition truthy (flag : option N) : option N :=
  match flag with
  | Some f => if f =? 0 then None else Some f
  | None => None
  end.

(** [cv2.VideoCapture(index[, backend])] followed by [isOpened()]: the new
    capture when it is opened. *)
Definition video_capture (index : N) (backend : option N) (w : World)
  : option nat * World :=
  let r := cv2_VideoCapture env index backend in
  let w1 := emit (EvVideoCapture index backend r) w in
  match r with
  | VcOpened =>
      (Some (next_cam w),
       with_cams ({[next_cam w]} ∪ cams_open w) (S (next_cam w)) w1)
  | VcClosed | VcRaises => (None, w1)
  end.

(** [cap.release()] under [try]: a failure is swallowed and leaves the
    device as it was. *)
Definition release (c : nat) (w : World) : World :=
  let w1 := emit (EvRelease c) w in
  if release_ok env then with_cams (cams_open w ∖ {[c]}) (next_cam w) w1
  else w1.

(** [serial_port.close()] under [try]. *)
Definition serial_close (p : str) (w : World) : World :=
  let w1 := emit (EvSerialClose p) w in
  if serial_close_ok env
  then with_serials (filter (fun q => q <> p) (serials_open w)) w1
  else w1.

(** The local [try_open] of [_open_camera_with_fallback]. *)
Definition try_open (index : N) (backend_flag : option N) (w : World)
  : option nat * World :=
  video_capture index (truthy backend_flag) w.

(** Keep an opened capture, or go on with the next strategy. *)
Definition or_else (r : option nat * World)
    (k : World -> option nat * World) : option nat * World :=
  match r with
  | (Some c, w) => (Some c, w)
  | (None, w) => k w
  end.

Definition _open_camera_with_fallback (idx : N) (w : World)
  : option nat * World :=
  let backend := _get_preferred_backend in
  (* 1) preferred backend *)
  or_else (if backend =? 0 then (None, w) else try_open idx (Some backend) w)
    (fun w =>
  (* 2) default *)
  or_else (try_open idx None w)
    (fun w =>
  (* 3) DSHOW on Windows if preferred was not that *)
  or_else (match platform_system env with
           | Windows =>
               match truthy (cv2_CAP_DSHOW env) with
               | Some f => if f =? backend then (None, w)
                           else try_open idx (Some f) w
               | None => (None, w)
               end
           | _ => (None, w)
           end)
    (fun w =>
  (* 4) V4L2 on Linux if preferred was not that *)
  match platform_system env with
  | Linux =>
      match truthy (cv2_CAP_V4L2 env) with
      | Some f => if f =? backend then (None, w) else try_open idx (Some f) w
      | None => (None, w)
      end
  | _ => (None, w)
  end))).

(** [range(n)] *)
Definition range (n : nat) : list N := N.of_nat <$> seq 0 n.

Fixpoint detect_loop (indices : list N) (w : World) : list N * World :=
  match indices with
  | [] => ([], w)
  | index :: rest =>
      match video_capture index (truthy (Some _get_preferred_backend)) w with
      | (Some cap, w1) =>
          let '(found, w2) := detect_loop rest (release cap w1) in
          (index :: found, w2)
      | (None, w1) => detect_loop rest w1
      end
  end.

Definition detect_cameras (max_test : nat) (w : World) : list N * World :=
  detect_loop (range max_test) w.

Fixpoint scan_loop (indices : list N) (s : state) : option nat * state :=
  match indices with
  | [] => (None, s)
  | idx :: rest =>
      match _open_camera_with_fallback idx (snd s) with
      | (Some cap, w1) =>
          let a := fst s in
          let items := if bool_decide (idx ∈ camera_combo a)
                       then camera_combo a else camera_combo a ++ [idx] in
          (Some cap, (set_camera_combo items (Some idx) a, w1))
      | (None, w1) => scan_loop rest (fst s, w1)
      end
  end.

Definition _scan_and_open_any_camera (max_scan : nat) (s : state)
  : option nat * state :=
  scan_loop (range max_scan) s.

(** *** Replay of the order log *)

(** [df[name]]: [None] is [KeyError]. *)
Fixpoint column (name : str) (df : DataFrame) : option (list cell) :=
  match df with
  | [] => None
  | (n, col) :: rest => if bool_decide (n = name) then Some col else column name rest
  end.

(** [astype(str)] on one cell. *)
Definition astype_str (c : cell) : str :=
  match c with
  | CStr s => s
  | CInt z => if (z <? 0)%Z then minus :: PyStr.of_N (Z.to_N (- z))
              else PyStr.of_N (Z.to_N z)
  | CNaN => py "nan"
  end.

Definition log_name : str := py "barcode_log.csv".

Definition load_existing_barcodes (order : str) (s : state) : state :=
  let '(a, w) := s in
  let a1 := set_barcode_set ∅ a in
  let log_path := path_join (path_join (save_location a) order) log_name in
  match files w !! log_path with
  | Some content =>
      let w1 := emit (EvReadCsv log_path) w in
      match pd_read_csv env log_path content with
      | Some df =>
          match column (py "SKU") df with
          | Some col =>
              (set_barcode_set
                 (barcode_set a1 ∪ list_to_set (astype_str <$> col)) a1, w1)
          | None => (a1, w1)
          end
      | None => (a1, w1)
      end
  | None => (a1, w)
  end.

(** *** Session control *)

(** The first block of [start_camera]: the serial port. [None] is the
    [except] branch. *)
Definition open_serial (s : state) : option state :=
  let '(a, w) := s in
  let serial_selection := serial_port_combo a in
  if bool_decide (serial_selection = py "None")
  then Some (set_serial_port None a, w)
  else if serial_Serial env serial_selection
       then Some (set_serial_port (Some serial_selection) a,
                  emit (EvSerialOpen serial_selection true)
                    (with_serials (serial_selection :: serials_open w) w))
       else None.

(** The index to try: the one selected in the combo, or else the first one
    [detect_cameras] finds. *)
Definition choose_index (a : App) (w : World) : option N * World :=
  match camera_combo_current a with
  | Some n => (Some n, w)
  | None => let '(detected, w') := detect_cameras 8 w in (head detected, w')
  end.

(** The capture: the chosen index with its fallbacks, or else the scan of
    the indices 0 to 7. *)
Definition open_chosen (use_index : option N) (s : state)
  : option nat * state :=
  match use_index with
  | Some i =>
      match _open_camera_with_fallback i (snd s) with
      | (Some c, w') => (Some c, (fst s, w'))
      | (None, w') => _scan_and_open_any_camera 8 (fst s, w')
      end
  | None => _scan_and_open_any_camera 8 s
  end.

(** The end of [start_camera] once a capture is opened. *)
Definition begin_session (c : nat) (use_index : option N) (s : state) : state :=
  let a4 := set_camera_index use_index (set_capture (Some c) (fst s)) in
  let '(a5, w5) :=
    match save_location a4 with
    | [] => (a4, snd s)
    | _ => load_existing_barcodes (order_number a4) (a4, snd s)
    end in
  (set_timer true a5, w5).

Definition start_camera (s : state) : outcome :=
  match open_serial s with
  | None =>
      Returned (fst s, show_error MsgSerialError
                         (emit (EvSerialOpen (serial_port_combo (fst s)) false)
                            (snd s)))
  | Some (a1, w1) =>
      let '(use_index, w2) := choose_index a1 w1 in
      let '(cap, s3) := open_chosen use_index (a1, w2) in
      match cap with
      | None => Returned (fst s3, show_error MsgCameraOpenFailed (snd s3))
      | Some c => Returned (begin_session c use_index s3)
      end
  end.

Definition stop_camera (s : state) : outcome :=
  let '(a, w) := s in
  let a1 := set_timer false a in
  let '(a2, w2) :=
    match capture a1 with
    | Some c => (set_capture None a1, release c w)
    | None => (a1, w)
    end in
  let '(a3, w3) :=
    match serial_port a2 with
    | Some p => (set_serial_port None a2, serial_close p w2)
    | None => (a2, w2)
    end in
  Returned (a3, w3).

(** [select_folder]; [folder] is what the dialog returns. *)
Definition select_folder (folder : str) (s : state) : outcome :=
  let '(a, w) := s in
  match folder with
  | [] => Returned (a, w)
  | _ => Returned (set_save_location folder a,
                   emit (EvInfo (MsgFolderSelected folder)) w)
  end.

Definition clear_session (s : state) : outcome :=
  let '(a, w) := s in
  Returned (set_last_barcode None (set_barcode_set ∅ a),
            emit (EvInfo MsgSessionCleared) w).

(** *** Persisting one scan *)

Definition header_line : str := py "Timestamp,SKU" ++ [newline].

(** The line [f"{timestamp},{sku_value}\n"]. *)
Definition record_line (timestamp sku : str) : str :=
  timestamp ++ comma :: sku ++ [newline].

(** [os.path.join(self.save_location, order_number)] *)
Definition order_folder (a : App) : str :=
  path_join (save_location a) (order_number a).

(** [os.path.join(order_folder, f"{sku_value}_{timestamp}.jpg")] *)
Definition image_path (a : App) (sku_value timestamp : str) : str :=
  path_join (order_folder a) (sku_value ++ py "_" ++ timestamp ++ py ".jpg").

(** [os.path.join(order_folder, "barcode_log.csv")] *)
Definition log_path (a : App) : str := path_join (order_folder a) log_name.

(** The first lines of [capture_image]: without a save folder, fall back
    to the working directory and tell the user. *)
Definition use_default_folder (s : state) : state :=
  let '(a, w) := s in
  match save_location a with
  | [] => (set_save_location (cwd w) a, emit (EvInfo (MsgNoFolder (cwd w))) w)
  | _ => (a, w)
  end.

(** What the log file gains: the header first when the file is new. *)
Definition log_text (old : option str) (timestamp sku_value : str) : str :=
  match old with
  | Some _ => record_line timestamp sku_value
  | None => header_line ++ record_line timestamp sku_value
  end.

(** [os.makedirs(order_folder, exist_ok=True)], when it succeeds. *)
Definition make_order_folder (a : App) (w : World) : World :=
  emit (EvMakedirs (order_folder a) true)
    (with_dirs ({[order_folder a]} ∪ dirs w) w).

(** [cv2.imwrite(filename, frame)] under [try]. *)
Definition write_image (frame : Frame) (sku_value : str) (a : App) (w : World)
  : World :=
  let filename := image_path a sku_value (strftime env) in
  let r := cv2_imwrite env filename frame in
  let w1 := emit (EvImwrite filename r) w in
  match r with
  | ImWritten => with_images (<[filename := frame]> (images w)) w1
  | ImRefused => w1
  | ImRaises => emit (EvPrint MsgImageWriteFailed) w1
  end.

(** The tone after the image. *)
Definition beep_saved (a : App) (w : World) : World :=
  if settings_get_beep a && beep_checkbox a then play_sound true w else w.

(** The [with open(log_path, "a")] block under [try]. *)
Definition append_log (sku_value : str) (a : App) (w : World) : World :=
  let old := files w !! log_path a in
  let text := log_text old (strftime env) sku_value in
  if open_append_ok env (log_path a)
  then emit (EvLogAppend (log_path a) text true)
         (with_files (<[log_path a := default [] old ++ text]> (files w)) w)
  else emit (EvPrint MsgLogWriteFailed)
         (emit (EvLogAppend (log_path a) text false) w).

Definition capture_image (frame : Frame) (sku_value : str) (s : state)
  : outcome :=
  let '(a, w) := use_default_folder (fst s, emit (EvPersist sku_value) (snd s)) in
  if negb (makedirs_ok env (order_folder a))
  then Raised (a, emit (EvMakedirs (order_folder a) false) w)
  else Returned
         (a, append_log sku_value a
               (beep_saved a
                  (write_image frame sku_value a (make_order_folder a w)))).

(** *** The frame cycle *)

(** [self.capture.read()] under [try]. *)
Definition read (w : World) : read_result * World :=
  match feed w with
  | r :: rest => (r, emit (EvRead r) (with_feed rest w))
  | [] => (RdNothing, emit (EvRead RdNothing) w)
  end.

(** The forwarding of a new scan to the serial line. *)
Definition forward_serial (barcode_data : str) (s : state) : state :=
  let '(a, w) := s in
  match serial_port a with
  | None => (a, w)
  | Some _ =>
      match Utf8.encode (barcode_data ++ [newline]) with
      | Some bs =>
          if serial_write_ok env bs
          then (a, emit (EvSerialWrite bs true) w)
          else
            let w := emit (EvSerialWrite bs false) w in
            (a, if settings_get_beep a then play_sound false w else w)
      | None => (a, if settings_get_beep a then play_sound false w else w)
      end
  end.

(** The body of [for barcode in barcodes]. *)
Definition process_symbol (frame : Frame) (barcode : Symbol) (s : state)
  : outcome :=
  let '(a, w) := s in
  match Utf8.decode (data barcode) with
  | None => Returned (a, w)                        (* [continue] *)
  | Some text =>
      let barcode_data := PyStr.strip text in
      let sku_id := extract_sku barcode_data in
      if bool_decide (sku_id ∈ barcode_set a) then Returned (a, w)
      else
        let a := set_barcode_set ({[sku_id]} ∪ barcode_set a) a in
        capture_image frame sku_id (a, w) >>> fun '(a, w) =>
        let a := set_last_barcode (Some barcode_data) a in
        Returned (forward_serial barcode_data (a, w))
  end.

Fixpoint process_symbols (frame : Frame) (barcodes : list Symbol) (s : state)
  : outcome :=
  match barcodes with
  | [] => Returned s
  | b :: rest => process_symbol frame b s >>> process_symbols frame rest
  end.

Definition update_frame (s : state) : outcome :=
  let '(a, w) := s in
  match capture a with
  | None => Returned (a, w)
  | Some _ =>
      match read w with
      | (RdFrame frame, w) =>
          let w := emit (EvDecode frame) w in
          let barcodes := default [] (pyzbar_decode env frame) in
          process_symbols frame barcodes (a, w)
      | (_, w) =>
          stop_camera (a, w) >>> fun '(a, w) =>
          Returned (a, show_error MsgDisconnected w)
      end
  end.

Definition capture_snapshot (s : state) : outcome :=
  let '(a, w) := s in
  match capture a with
  | None => Returned (a, w)
  | Some _ =>
      match read w with
      | (RdFrame frame, w) => capture_image frame (py "manual") (a, w)
      | (_, w) => Returned (a, show_error MsgSnapshotFailed w)
      end
  end.

End Methods.

(** ** The older [stop_camera] ([src/Barcam.py]) *)

Module Legacy.

(** No [try] around [release()] and [close()], the handles are kept in
    their attributes, and the scanned set and the last barcode are
    cleared. *)
Definition stop_camera (env : Env) (s : state) : outcome :=
  let '(a, w) := s in
  let a := set_timer false a in
  let after_release : outcome :=
    match capture a with
    | Some c =>
        if release_ok env then Returned (a, release env c w)
        else Raised (a, release env c w)
    | None => Returned (a, w)
    end in
  after_release >>> fun '(a, w) =>
  let after_close : outcome :=
    match serial_port a with
    | Some p =>
        if serial_close_ok env then Returned (a, serial_close env p w)
        else Raised (a, serial_close env p w)
    | None => Returned (a, w)
    end in
  after_close >>> fun '(a, w) =>
  Returned (set_last_barcode None (set_barcode_set ∅ a), w).

End Legacy.

(** ** Vocabulary of the properties *)

(** From [w] to [w'] the application did only things that satisfy [P]: the
    trace of [w'] is that of [w] followed by events in [P]. *)
Definition emits (P : event -> Prop) (w w' : World) : Prop :=
  exists evs, trace w' = trace w ++ evs /\ Forall P evs.

(** What [capture_image] does once its folder is chosen. *)
Definition store_event (e : event) : Prop :=
  match e with
  | EvMakedirs _ _ | EvImwrite _ _ | EvLogAppend _ _ _ | EvBeep true
  | EvPrint _ => True
  | _ => False
  end.

(** What the forwarding of a scan does. *)
Definition serial_event (e : event) : Prop :=
  match e with
  | EvSerialWrite _ _ | EvBeep false => True
  | _ => False
  end.

(** Anything but an entry into [capture_image]. *)
Definition no_persist (e : event) : Prop :=
  match e with EvPersist _ => False | _ => True end.

(** What the search for a camera and the replay of the log do. *)
Definition device_event (e : event) : Prop :=
  match e with
  | EvVideoCapture _ _ _ | EvRelease _ | EvReadCsv _ => True
  | _ => False
  end.

(** Anything but an attempt to open a camera. *)
Definition no_camera_open (e : event) : Prop :=
  match e with EvVideoCapture _ _ _ => False | _ => True end.

(** The bytes of a write that reached the serial line. *)
Definition serial_bytes (e : event) : option (list N) :=
  match e with
  | EvSerialWrite bs true => Some bs
  | _ => None
  end.

(** Everything written to the serial line so far, in order. *)
Definition serial_writes (w : World) : list (list N) :=
  omap serial_bytes (trace w).

(** No entry into [capture_image] for an identifier of [seen]. *)
Definition not_persisting (seen : gset str) (e : event) : Prop :=
  forall id, e = EvPersist id -> id ∉ seen.

(** No dialog. *)
Definition no_dialog (e : event) : Prop :=
  match e with EvError _ | EvInfo _ => False | _ => True end.

(** Successive ticks of the timer, each in its own environment; a tick
    that ends with an exception is followed by the next one. *)
Definition ticks (envs : list Env) (s : state) : state :=
  foldl (fun s env => final (update_frame env s)) s envs.

(** The log appends of successive records, as [capture_image] makes
    them. *)
Definition append_logs (env : Env) (a : App) (skus : list str) (w : World)
  : World :=
  foldl (fun w sku => append_log env sku a w) w skus.

(** ** The session state of the specification *)

(** The session is running exactly while a capture is held. *)
Definition is_running (a : App) : bool :=
  match capture a with Some _ => true | None => false end.

(** ** [pandas.read_csv] with its defaults, on plain logs

    The reader the application calls is the library's. This is its
    behaviour on the fragment of files that matters here: no field holds a
    quote, a sign, a blank, a decimal point, an exponent or a boolean, no
    line has more fields than the header, and an integer that stands in a
    column next to a missing value is below 2^53. There the first line
    names the columns and every other non-empty line is cut at its commas;
    an empty field, a field of a short line and the markers of
    [na_values] are missing values (NaN); a column whose cells are all
    decimal integers up to 2^64 - 1 is an integer column ([int64], or
    [uint64] past 2^63 - 1), one of integers and missing values a [float64]
    column, and any other column keeps its fields as text; an empty file is
    an error. Outside that fragment the function is not a description of
    the library, and nothing below uses it there. *)

Module Pandas.

Definition is_digit (c : N) : bool := (0x30 <=? c) && (c <=? 0x39).

(** The value of a string of decimal digits. *)
Definition int_of_digits (s : str) : Z :=
  fold_left (fun acc c => (acc * 10 + Z.of_N (c - 0x30))%Z) s 0%Z.

(** A cell that parses as an integer: digits only, with a value that a
    64-bit integer holds; leading zeros do not count. *)
Definition parses_int (s : str) : bool :=
  match s with
  | [] => false
  | _ => forallb is_digit s && (int_of_digits s <=? 18446744073709551615)%Z
  end.

(** The fields read as a missing value (the library's default
    [na_values], "None" since its version 2.0). *)
Definition na_values : list str :=
  [[]; py "#N/A"; py "#N/A N/A"; py "#NA"; py "-1.#IND"; py "-1.#QNAN";
   py "-NaN"; py "-nan"; py "1.#IND"; py "1.#QNAN"; py "<NA>"; py "N/A";
   py "NA"; py "NULL"; py "NaN"; py "None"; py "n/a"; py "nan"; py "null"].

(** A missing value: no field at all, or one of the markers. *)
Definition missing (c : option str) : bool :=
  match c with
  | None => true
  | Some s => bool_decide (s ∈ na_values)
  end.

(** [str] of the [float64] that holds the integer [s] (below 2^53). *)
Definition float_text (s : str) : str :=
  PyStr.of_N (Z.to_N (int_of_digits s)) ++ py ".0".

(** The lines of a text, without the empty ones. *)
Definition lines (content : str) : list str :=
  filter (fun l => l <> []) (PyStr.split_sep newline content).

Definition fields (line : str) : list str := PyStr.split_sep comma line.

(** The [i]-th field of every row; a missing field is [None]. *)
Definition raw_column (i : nat) (rows : list (list str)) : list (option str) :=
  (fun r => r !! i) <$> rows.

Definition infer_column (raw : list (option str)) : list cell :=
  if forallb (fun c => missing c || parses_int (default [] c)) raw
  then
    if forallb (fun c => negb (missing c)) raw
    then (fun c => CInt (int_of_digits (default [] c))) <$> raw
    else (fun c => if missing c then CNaN
                   else CStr (float_text (default [] c))) <$> raw
  else (fun c => if missing c then CNaN else CStr (default [] c)) <$> raw.

Definition read_csv (path content : str) : option DataFrame :=
  match lines content with
  | [] => None
  | header :: body =>
      let names := fields header in
      let rows := fields <$> body in
      if forallb (fun r => (List.length r <=? List.length names)%nat) rows
      then Some (imap (fun i name => (name, infer_column (raw_column i rows))) names)
      else None
  end.

End Pandas.

(** ** The replay of the specification

    The reader the specification describes for the order log: a header
    line, then one line [timestamp,identifier] per record, returned in file
    order. *)

Module SpecReplay.

(** The text after the first [sep], empty when there is none. *)
Fixpoint after_first (sep : N) (s : str) : str :=
  match s with
  | [] => []
  | c :: s' => if c =? sep then s' else after_first sep s'
  end.

(** One record line: the timestamp before the first comma, the identifier
    after it. *)
Definition parse_line (l : str) : str * str :=
  (SpecRule.before_first (N.eqb comma) l, after_first comma l).

(** The non-empty lines of the file, the header left out. *)
Definition replay (content : str) : list (str * str) :=
  parse_line
    <$> tail (filter (fun l => l <> []) (PyStr.split_sep newline content)).

End SpecReplay.

(** ** A concrete installation, for the examples *)

Module Scenario.

(** A Linux host where camera 0 opens, every port opens and the disk
    accepts every write; the decoder reads the symbols off the frame
    number. *)
Definition symbol_of (text : string) : Symbol :=
  {| data := default [] (Utf8.encode (py text)) |}.

Definition decoder (f : Frame) : option (list Symbol) :=
  if f =? 1 then Some [symbol_of "A"; symbol_of "B"]
  else if f =? 2 then Some [symbol_of " SKU-1234 extra "]
  else if f =? 3 then Some [symbol_of "007"]
  else Some [].

Definition env : Env := {|
  platform_system := Linux;
  cv2_CAP_V4L2 := Some 200;
  cv2_CAP_DSHOW := Some 700;
  cv2_VideoCapture := fun index _ => if index =? 0 then VcOpened else VcClosed;
  release_ok := true;
  serial_Serial := fun _ => true;
  serial_close_ok := true;
  serial_write_ok := fun _ => true;
  pyzbar_decode := decoder;
  makedirs_ok := fun _ => true;
  cv2_imwrite := fun _ _ => ImWritten;
  open_append_ok := fun _ => true;
  pd_read_csv := Pandas.read_csv;
  strftime := py "20250101-120000"
|}.

(** The same host with a serial port that cannot be opened. *)
Definition env_no_serial : Env := {|
  platform_system := platform_system env;
  cv2_CAP_V4L2 := cv2_CAP_V4L2 env;
  cv2_CAP_DSHOW := cv2_CAP_DSHOW env;
  cv2_VideoCapture := cv2_VideoCapture env;
  release_ok := release_ok env;
  serial_Serial := fun _ => false;
  serial_close_ok := serial_close_ok env;
  serial_write_ok := serial_write_ok env;
  pyzbar_decode := pyzbar_decode env;
  makedirs_ok := makedirs_ok env;
  cv2_imwrite := cv2_imwrite env;
  open_append_ok := open_append_ok env;
  pd_read_csv := pd_read_csv env;
  strftime := strftime env
|}.

(** The same host with a log file that cannot be opened for appending. *)
Definition env_log_fails : Env := {|
  platform_system := platform_system env;
  cv2_CAP_V4L2 := cv2_CAP_V4L2 env;
  cv2_CAP_DSHOW := cv2_CAP_DSHOW env;
  cv2_VideoCapture := cv2_VideoCapture env;
  release_ok := release_ok env;
  serial_Serial := serial_Serial env;
  serial_close_ok := serial_close_ok env;
  serial_write_ok := serial_write_ok env;
  pyzbar_decode := pyzbar_decode env;
  makedirs_ok := makedirs_ok env;
  cv2_imwrite := cv2_imwrite env;
  open_append_ok := fun _ => false;
  pd_read_csv := pd_read_csv env;
  strftime := strftime env
|}.

(** The same host with a reader that rejects every log. *)
Definition env_unreadable : Env := {|
  platform_system := platform_system env;
  cv2_CAP_V4L2 := cv2_CAP_V4L2 env;
  cv2_CAP_DSHOW := cv2_CAP_DSHOW env;
  cv2_VideoCapture := cv2_VideoCapture env;
  release_ok := release_ok env;
  serial_Serial := serial_Serial env;
  serial_close_ok := serial_close_ok env;
  serial_write_ok := serial_write_ok env;
  pyzbar_decode := pyzbar_decode env;
  makedirs_ok := makedirs_ok env;
  cv2_imwrite := cv2_imwrite env;
  open_append_ok := open_append_ok env;
  pd_read_csv := fun _ _ => None;
  strftime := strftime env
|}.

(** A line of text with its newline. *)
Definition line (s : string) : str := py s ++ [newline].

(** An empty disk and a camera that will deliver the given frames. *)
Definition world (frames : list read_result) : World := {|
  files := ∅; images := ∅; dirs := ∅; cwd := py "/home/operator";
  cams_open := ∅; next_cam := 0; serials_open := [];
  feed := frames; trace := []
|}.

(** A disk that already holds the log of order 42 with one record. *)
Definition world_with_log (frames : list read_result) : World :=
  with_files {[py "/data/42/barcode_log.csv"
               := line "Timestamp,SKU" ++ line "20241231-235959,A"]}
    (world frames).

(** The application as [__init__] leaves it, with the given save folder,
    serial selection and order number. *)
Definition app (folder serial order : string) : App := {|
  capture := None; timer_active := false; camera_index := None;
  last_barcode := None; barcode_set := ∅; save_location := py folder;
  serial_port := None; settings_beep_enabled := None;
  serial_port_combo := py serial; camera_combo := [0];
  camera_combo_current := Some 0; order_input := py order;
  beep_checkbox := true
|}.

(** A session started with a save folder and a serial port. *)
Definition started (frames : list read_result) : state :=
  final (start_camera env (app "/data" "/dev/ttyUSB0" "42", world frames)).

End Scenario.

(** ** The rest of the application *)

(** [populate_camera_indices]: the combo holds the detected indices, the
    first one selected, or the single entry 0 when none was detected. *)
Definition populate_camera_indices (env : Env) (max_test : nat) (s : state)
  : state :=
  let '(cameras, w) := detect_cameras env max_test (snd s) in
  match cameras with
  | [] => (set_camera_combo [0] (Some 0) (fst s), w)
  | first :: _ => (set_camera_combo cameras (Some first) (fst s), w)
  end.

(** What the user and the timer can make the application do. *)
Inductive action :=
  | DoStart | DoStop | DoTick | DoSnapshot | DoClear
  | DoSelectFolder (folder : str).

Definition perform (env : Env) (act : action) (s : state) : outcome :=
  match act with
  | DoStart => start_camera env s
  | DoStop => stop_camera env s
  | DoTick => update_frame env s
  | DoSnapshot => capture_snapshot env s
  | DoClear => clear_session s
  | DoSelectFolder folder => select_folder folder s
  end.

(** A history: each action in the environment it meets; an exception that
    leaves a handler is followed by the next action. *)
Definition run (steps : list (Env * action)) (s : state) : state :=
  foldl (fun s step => final (perform (fst step) (snd step) s)) s steps.

(** ** Vocabulary of the further properties *)

(** [cv2.VideoCapture] answers with an opened capture. *)
Definition is_opened (r : vc_result) : bool :=
  match r with VcOpened => true | _ => false end.

(** The index opens with the preferred backend of the platform. *)
Definition opens_preferred (env : Env) (index : N) : bool :=
  is_opened (cv2_VideoCapture env index
               (truthy (Some (_get_preferred_backend env)))).

(** The index opens with one of the strategies of
    [_open_camera_with_fallback]. *)
Definition index_opens (env : Env) (index : N) : bool :=
  (negb (_get_preferred_backend env =? 0)
   && is_opened (cv2_VideoCapture env index
                   (Some (_get_preferred_backend env))))
  || is_opened (cv2_VideoCapture env index None).

(** Capture identifiers are handed out in increasing order: every open
    capture is older than the next one. *)
Definition cams_fresh (w : World) : Prop :=
  forall c, c ∈ cams_open w -> (c < next_cam w)%nat.

(** The handles the application holds are open, and the timer runs only
    while a capture is held. *)
Definition handles_valid (s : state) : Prop :=
  cams_fresh (snd s)
  /\ (forall c, capture (fst s) = Some c -> c ∈ cams_open (snd s))
  /\ (forall p, serial_port (fst s) = Some p -> p ∈ serials_open (snd s))
  /\ (timer_active (fst s) = true -> is_Some (capture (fst s))).

(** From [w] to [w'] no file lost anything: every text file is continued
    and every image file is still there. *)
Definition disk_grows (w w' : World) : Prop :=
  (forall p c, files w !! p = Some c ->
               exists more, files w' !! p = Some (c ++ more))
  /\ (forall p, is_Some (images w !! p) -> is_Some (images w' !! p)).

(** The identifier of an entry into [capture_image]. *)
Definition persist_id (e : event) : option str :=
  match e with EvPersist sku => Some sku | _ => None end.

(** The identifiers [capture_image] was entered for so far, in order. *)
Definition persisted (w : World) : list str := omap persist_id (trace w).

(** From [s] to [s'] the identifiers [news] were persisted, once each,
    none of them known before, and they are what the scanned set gained. *)
Definition persisted_new (s s' : state) (news : list str) : Prop :=
  persisted (snd s') = persisted (snd s) ++ news
  /\ NoDup news
  /\ barcode_set (fst s') = list_to_set news ∪ barcode_set (fst s)
  /\ forall id, id ∈ news -> id ∉ barcode_set (fst s).

(** What [capture.read()] returns next is not a frame. *)
Definition no_frame_next (w : World) : Prop :=
  match feed w with RdFrame _ :: _ => False | _ => True end.

(** What a probe for a camera may do to the world [w]: open one new
    capture, the next in order, or none; nothing else changes. *)
Definition accounted (w : World) (r : option nat * World) : Prop :=
  match fst r with
  | Some c => c = next_cam w
              /\ cams_open (snd r) = {[c]} ∪ cams_open w
              /\ next_cam (snd r) = S (next_cam w)
  | None => cams_open (snd r) = cams_open w /\ next_cam (snd r) = next_cam w
  end
  /\ serials_open (snd r) = serials_open w
  /\ files (snd r) = files w /\ images (snd r) = images w
  /\ feed (snd r) = feed w.

(** The application object [a'] is [a] with another camera combo. *)
Definition same_but_combo (a a' : App) : Prop :=
  exists items current, a' = set_camera_combo items current a.

(** The devices of a world: the open captures, the next capture
    identifier and the open serial ports. *)
Definition devices (w : World) : gset nat * nat * list str :=
  (cams_open w, next_cam w, serials_open w).

(** ** Two more hosts *)

(** The host of the scenario with no camera that opens. *)
Definition host_without_camera : Env := {|
  platform_system := platform_system Scenario.env;
  cv2_CAP_V4L2 := cv2_CAP_V4L2 Scenario.env;
  cv2_CAP_DSHOW := cv2_CAP_DSHOW Scenario.env;
  cv2_VideoCapture := fun _ _ => VcClosed;
  release_ok := release_ok Scenario.env;
  serial_Serial := serial_Serial Scenario.env;
  serial_close_ok := serial_close_ok Scenario.env;
  serial_write_ok := serial_write_ok Scenario.env;
  pyzbar_decode := pyzbar_decode Scenario.env;
  makedirs_ok := makedirs_ok Scenario.env;
  cv2_imwrite := cv2_imwrite Scenario.env;
  open_append_ok := open_append_ok Scenario.env;
  pd_read_csv := pd_read_csv Scenario.env;
  strftime := strftime Scenario.env
|}.

(** The host of the scenario with a disk where no folder can be made. *)
Definition host_without_folders : Env := {|
  platform_system := platform_system Scenario.env;
  cv2_CAP_V4L2 := cv2_CAP_V4L2 Scenario.env;
  cv2_CAP_DSHOW := cv2_CAP_DSHOW Scenario.env;
  cv2_VideoCapture := cv2_VideoCapture Scenario.env;
  release_ok := release_ok Scenario.env;
  serial_Serial := serial_Serial Scenario.env;
  serial_close_ok := serial_close_ok Scenario.env;
  serial_write_ok := serial_write_ok Scenario.env;
  pyzbar_decode := pyzbar_decode Scenario.env;
  makedirs_ok := fun _ => false;
  cv2_imwrite := cv2_imwrite Scenario.env;
  open_append_ok := open_append_ok Scenario.env;
  pd_read_csv := pd_read_csv Scenario.env;
  strftime := strftime Scenario.env
|}.

(** ** The serial combo *)

Definition set_serial_port_combo (text : str) (a : App) : App :=
  {| capture := capture a; timer_active := timer_active a;
     camera_index := camera_index a; last_barcode := last_barcode a;
     barcode_set := barcode_set a; save_location := save_location a;
     serial_port := serial_port a;
     settings_beep_enabled := settings_beep_enabled a;
     serial_port_combo := text;
     camera_combo := camera_combo a;
     camera_combo_current := camera_combo_current a;
     order_input := order_input a; beep_checkbox := beep_checkbox a |}.

(** [populate_serial_ports]: the combo lists "None" and the devices of
    [ports], what [comports()] returns, and "None" is selected. Of the combo
    the application only ever reads the selected text. *)
Definition populate_serial_ports (ports : list str) (a : App) : App :=
  set_serial_port_combo (py "None") a.

(** * Properties *)

(** ** Facts about splitting and trimming *)

Section SplitFacts.

Import PyStr SpecRule.

Lemma split_go_acc (c : N) (acc s : str) :
  head (split_go (c :: acc) s) = Some (rev (c :: acc) ++ before_first isspace s).
Proof.
  revert c acc. induction s as [|x s IH]; intros c acc.
  - cbn [split_go before_first]. by rewrite app_nil_r.
  - cbn [split_go before_first]. destruct (isspace x).
    + by rewrite app_nil_r.
    + rewrite IH. cbn [rev]. by rewrite <- !app_assoc.
Qed.

Lemma split_lstrip (s : str) : split s = split (lstrip s).
Proof.
  unfold split. induction s as [|x s IH]; [done|].
  cbn [lstrip]. destruct (isspace x) eqn:E; [|done].
  cbn [split_go]. by rewrite E.
Qed.

Lemma lstrip_head (s : str) (c : N) (t : str) :
  lstrip s = c :: t -> isspace c = false.
Proof.
  induction s as [|x s IH]; [done|]. cbn [lstrip].
  destruct (isspace x) eqn:E; [done|]. by intros [= <- _].
Qed.

Lemma split_first_token (s : str) :
  head (split s) =
  match lstrip s with [] => None | t => Some (before_first isspace t) end.
Proof.
  rewrite split_lstrip. destruct (lstrip s) as [|c t] eqn:E; [done|].
  pose proof (lstrip_head _ _ _ E) as Hc.
  unfold split. cbn [split_go before_first]. rewrite Hc.
  by rewrite split_go_acc.
Qed.

Lemma split_sep_go_head (sep : N) (acc s : str) :
  head (split_sep_go sep acc s) = Some (rev acc ++ before_first (N.eqb sep) s).
Proof.
  revert acc. induction s as [|x s IH]; intros acc.
  - cbn. by rewrite app_nil_r.
  - cbn [split_sep_go before_first]. rewrite (N.eqb_sym sep x).
    destruct (x =? sep).
    + by rewrite app_nil_r.
    + rewrite IH. cbn [rev]. by rewrite <- app_assoc.
Qed.

Lemma split_sep_head (sep : N) (s : str) :
  head (split_sep sep s) = Some (before_first (N.eqb sep) s).
Proof. unfold split_sep. by rewrite split_sep_go_head. Qed.

Lemma rstrip_nil (s : str) : rstrip s = [] -> before_first isspace s = [].
Proof.
  destruct s as [|c s]; [done|]. cbn [rstrip before_first].
  destruct (rstrip s); destruct (isspace c); done.
Qed.

Lemma before_first_rstrip (s : str) :
  before_first isspace (rstrip s) = before_first isspace s.
Proof.
  induction s as [|c s IH]; [done|]. cbn [rstrip].
  destruct (rstrip s) as [|r rs] eqn:E.
  - cbn [before_first]. destruct (isspace c) eqn:Ec; [done|].
    cbn [before_first]. rewrite Ec. f_equal. symmetry. by apply rstrip_nil.
  - cbn [before_first]. destruct (isspace c); [done|]. by rewrite <- IH.
Qed.

Lemma rstrip_nonspace_head (c : N) (s : str) :
  isspace c = false -> rstrip (c :: s) <> [].
Proof. intros Hc. cbn [rstrip]. destruct (rstrip s); by rewrite ?Hc. Qed.

Lemma strip_nil_iff (s : str) : strip s = [] <-> lstrip s = [].
Proof.
  unfold strip. split.
  - destruct (lstrip s) as [|c t] eqn:E; [done|].
    intros H. by apply rstrip_nonspace_head in H; [|eapply lstrip_head].
  - by intros ->.
Qed.

Lemma before_first_id (stop : N -> bool) (s : str) :
  forallb (fun c => negb (stop c)) s = true -> before_first stop s = s.
Proof.
  induction s as [|c s IH]; [done|]. cbn [forallb before_first].
  intros [Hc Hs]%andb_prop. apply negb_true_iff in Hc. rewrite Hc.
  by rewrite IH.
Qed.

(** The token the code takes is the one the rule describes. *)
Lemma extract_sku_rule (v : str) : extract_sku v = identifier v.
Proof.
  unfold extract_sku, identifier, normalize, index0.
  rewrite split_first_token.
  destruct (lstrip v) as [|c t] eqn:E.
  - apply strip_nil_iff in E. by rewrite E.
  - destruct (strip v) as [|c' t'] eqn:E'.
    { apply strip_nil_iff in E'. congruence. }
    cbn [mbind option_bind]. rewrite split_sep_head. cbn [default].
    rewrite <- E'. unfold strip. by rewrite before_first_rstrip, E.
Qed.

Lemma lstrip_no_space (v : str) :
  forallb (fun c => negb (isspace c)) v = true -> lstrip v = v.
Proof.
  destruct v as [|c v]; [done|]. cbn [forallb lstrip].
  intros [Hc _]%andb_prop. apply negb_true_iff in Hc. by rewrite Hc.
Qed.

Lemma rstrip_no_space (v : str) :
  forallb (fun c => negb (isspace c)) v = true -> rstrip v = v.
Proof.
  induction v as [|c v IH]; [done|]. cbn [forallb rstrip].
  intros [Hc Hv]%andb_prop. apply negb_true_iff in Hc.
  rewrite (IH Hv), Hc. by destruct v.
Qed.

(** Trimming first, as [update_frame] does, does not change the token. *)
Lemma split_strip (v : str) : split (strip v) = split v.
Proof.
  rewrite (split_lstrip v). unfold strip.
  generalize (lstrip v). intros s. unfold split.
  enough (forall acc, split_go acc (rstrip s) = split_go acc s) by done.
  induction s as [|c s IH]; intros acc; [done|].
  cbn [rstrip]. destruct (rstrip s) as [|r rs] eqn:E.
  - destruct (isspace c) eqn:Ec.
    + cbn [split_go]. rewrite Ec. rewrite <- (IH []). cbn [split_go].
      by destruct acc.
    + cbn [split_go]. rewrite Ec. by rewrite <- (IH (c :: acc)).
  - cbn [split_go]. destruct (isspace c).
    + rewrite <- (IH []). done.
    + by rewrite <- (IH (c :: acc)).
Qed.

Lemma before_first_stops (stop : N -> bool) (s : str) (c : N) :
  c ∈ before_first stop s -> stop c = false.
Proof.
  induction s as [|x s IH]; cbn [before_first]; [by intros ?%elem_of_nil|].
  destruct (stop x) eqn:E; [by intros ?%elem_of_nil|].
  intros [->|?]%elem_of_cons; [done|by apply IH].
Qed.

Lemma before_first_elem (stop : N -> bool) (s : str) (c : N) :
  c ∈ before_first stop s -> c ∈ s.
Proof.
  induction s as [|x s IH]; cbn [before_first]; [done|].
  destruct (stop x); [by intros ?%elem_of_nil|].
  intros [->|?]%elem_of_cons; [by left|right; by apply IH].
Qed.

End SplitFacts.

(** ** Facts about UTF-8 *)

Example utf8_decode_euro : Utf8.decode [0xE2; 0x82; 0xAC] = Some [0x20AC].
Proof. reflexivity. Qed.

Example utf8_decode_emoji : Utf8.decode [0xF0; 0x9F; 0x98; 0x80] = Some [0x1F600].
Proof. reflexivity. Qed.

Example utf8_decode_overlong : Utf8.decode [0xC0; 0x80] = None.
Proof. reflexivity. Qed.

Example utf8_decode_surrogate : Utf8.decode [0xED; 0xA0; 0x80] = None.
Proof. reflexivity. Qed.

Example utf8_decode_truncated : Utf8.decode [0x41; 0xE2; 0x82] = None.
Proof. reflexivity. Qed.

Example utf8_encode_mixed :
  Utf8.encode [0x41; 0xE9; 0x20AC; 0x1F600]
  = Some [0x41; 0xC3; 0xA9; 0xE2; 0x82; 0xAC; 0xF0; 0x9F; 0x98; 0x80].
Proof. reflexivity. Qed.

Section Utf8Facts.

Import Utf8.

Lemma decode_scalar_strong (n : nat) :
  forall bs t, (List.length bs <= n)%nat -> decode bs = Some t ->
               Forall (fun c => is_scalar c = true) t.
Proof.
  induction n as [|n IH]; intros bs t Hlen.
  { destruct bs; [|cbn in Hlen; lia]. by intros [= <-]. }
  destruct bs as [|b0 r0]; [by intros [= <-]|].
  cbn [decode]. cbn [List.length] in Hlen.
  destruct (b0 <? 0x80) eqn:E0.
  { destruct (decode r0) as [t0|] eqn:D; [|done]. intros [= <-].
    constructor; [|eapply IH; [|exact D]; lia].
    unfold is_scalar. apply N.ltb_lt in E0.
    apply orb_true_iff. left. apply N.ltb_lt. lia. }
  destruct ((0xC2 <=? b0) && (b0 <=? 0xDF)) eqn:E1.
  { destruct r0 as [|b1 r1]; [done|]. destruct (cont b1) eqn:C1; [|done].
    destruct (decode r1) as [t1|] eqn:D; [|done]. intros [= <-].
    cbn [List.length] in Hlen.
    constructor; [|eapply IH; [|exact D]; lia].
    unfold is_scalar, cont in *.
    apply andb_prop in E1 as [?%N.leb_le ?%N.leb_le].
    apply andb_prop in C1 as [?%N.leb_le ?%N.leb_le].
    apply orb_true_iff. left. apply N.ltb_lt. lia. }
  destruct ((0xE0 <=? b0) && (b0 <=? 0xEF)) eqn:E2.
  { destruct r0 as [|b1 [|b2 r2]]; [done|done|].
    destruct (cont b1 && cont b2 && (negb (b0 =? 0xE0) || (0xA0 <=? b1))
              && (negb (b0 =? 0xED) || (b1 <=? 0x9F))) eqn:C; [|done].
    destruct (decode r2) as [t2|] eqn:D; [|done]. intros [= <-].
    cbn [List.length] in Hlen.
    constructor; [|eapply IH; [|exact D]; lia].
    unfold is_scalar, cont in *.
    apply andb_prop in E2 as [?%N.leb_le ?%N.leb_le].
    apply andb_prop in C as [C Hsur]. apply andb_prop in C as [C Hover].
    apply andb_prop in C as [C1 C2].
    apply andb_prop in C1 as [?%N.leb_le ?%N.leb_le].
    apply andb_prop in C2 as [?%N.leb_le ?%N.leb_le].
    destruct (N.eqb_spec b0 0xED) as [->|Hne].
    - cbn in Hsur. apply N.leb_le in Hsur.
      apply orb_true_iff. left. apply N.ltb_lt. lia.
    - destruct (N.lt_ge_cases b0 0xED).
      + apply orb_true_iff. left. apply N.ltb_lt. lia.
      + apply orb_true_iff. right. apply andb_true_iff.
        split; [apply N.leb_le|apply N.ltb_lt]; lia. }
  destruct ((0xF0 <=? b0) && (b0 <=? 0xF4)) eqn:E3; [|done].
  destruct r0 as [|b1 [|b2 [|b3 r3]]]; [done|done|done|].
  destruct (cont b1 && cont b2 && cont b3
            && (negb (b0 =? 0xF0) || (0x90 <=? b1))
            && (negb (b0 =? 0xF4) || (b1 <=? 0x8F))) eqn:C; [|done].
  destruct (decode r3) as [t3|] eqn:D; [|done]. intros [= <-].
  cbn [List.length] in Hlen.
  constructor; [|eapply IH; [|exact D]; lia].
  unfold is_scalar, cont in *.
  apply andb_prop in E3 as [?%N.leb_le ?%N.leb_le].
  apply andb_prop in C as [C Hmax]. apply andb_prop in C as [C Hover].
  apply andb_prop in C as [C C3]. apply andb_prop in C as [C1 C2].
  apply andb_prop in C1 as [?%N.leb_le ?%N.leb_le].
  apply andb_prop in C2 as [?%N.leb_le ?%N.leb_le].
  apply andb_prop in C3 as [?%N.leb_le ?%N.leb_le].
  apply orb_true_iff. right. apply andb_true_iff.
  split; [apply N.leb_le|apply N.ltb_lt].
  - destruct (N.eqb_spec b0 0xF0) as [->|Hne].
    + cbn in Hover. apply N.leb_le in Hover. lia.
    + lia.
  - destruct (N.eqb_spec b0 0xF4) as [->|Hne].
    + cbn in Hmax. apply N.leb_le in Hmax. lia.
    + lia.
Qed.

(** Decoded text holds scalar values only. *)
Lemma decode_scalar (bs : list N) (t : str) :
  decode bs = Some t -> Forall (fun c => is_scalar c = true) t.
Proof. by apply (decode_scalar_strong (List.length bs)). Qed.

Lemma encode_char_scalar (c : N) :
  is_scalar c = true -> is_Some (encode_char c).
Proof.
  unfold is_scalar, encode_char. intros H.
  assert (c < 0xD800 \/ (0xE000 <= c /\ c < 0x110000)) as Hc.
  { apply orb_prop in H as [?%N.ltb_lt|[?%N.leb_le ?%N.ltb_lt]%andb_prop]; lia. }
  clear H.
  destruct (c <? 0x80); [by eexists|].
  destruct (c <? 0x800); [by eexists|].
  destruct ((0xD800 <=? c) && (c <=? 0xDFFF)) eqn:S.
  { apply andb_prop in S as [?%N.leb_le ?%N.leb_le]. lia. }
  destruct (c <? 0x10000); [by eexists|].
  destruct (N.ltb_spec c 0x110000); [by eexists|lia].
Qed.

(** Text of scalar values always encodes. *)
Lemma encode_scalar (s : str) :
  Forall (fun c => is_scalar c = true) s -> is_Some (encode s).
Proof.
  induction 1 as [|c s Hc _ IH]; [by eexists|].
  cbn [encode]. destruct (encode_char_scalar c Hc) as [bs ->].
  destruct IH as [rest ->]. by eexists.
Qed.

Lemma lstrip_scalar (s : str) :
  Forall (fun c => is_scalar c = true) s ->
  Forall (fun c => is_scalar c = true) (PyStr.lstrip s).
Proof.
  induction 1 as [|c s Hc Hs IH]; [constructor|].
  cbn [PyStr.lstrip]. destruct (PyStr.isspace c); [done|by constructor].
Qed.

Lemma rstrip_scalar (s : str) :
  Forall (fun c => is_scalar c = true) s ->
  Forall (fun c => is_scalar c = true) (PyStr.rstrip s).
Proof.
  induction 1 as [|c s Hc Hs IH]; [constructor|].
  cbn [PyStr.rstrip]. destruct (PyStr.rstrip s).
  - destruct (PyStr.isspace c); repeat constructor; done.
  - by constructor.
Qed.

(** What [update_frame] sends to the serial line can always be encoded. *)
Lemma encode_stripped_line (bs : list N) (t : str) :
  decode bs = Some t -> is_Some (encode (PyStr.strip t ++ [newline])).
Proof.
  intros D. apply encode_scalar. apply Forall_app. split.
  - apply rstrip_scalar, lstrip_scalar. by eapply decode_scalar.
  - by repeat constructor.
Qed.

End Utf8Facts.

(** ** The two directions of the codec *)

Section RoundTrip.

Import Utf8.

Lemma div_mod_64 (x y : N) :
  y < 64 -> (x * 64 + y) / 64 = x /\ (x * 64 + y) mod 64 = y.
Proof.
  intros Hy. split.
  - symmetry. apply (N.div_unique _ 64 x y); lia.
  - symmetry. apply (N.mod_unique _ 64 x y); lia.
Qed.

Lemma div_4096 (x r : N) : r < 4096 -> (x * 4096 + r) / 4096 = x.
Proof. intros Hr. symmetry. apply (N.div_unique _ 4096 x r); lia. Qed.

Lemma div_262144 (x r : N) : r < 262144 -> (x * 262144 + r) / 262144 = x.
Proof. intros Hr. symmetry. apply (N.div_unique _ 262144 x r); lia. Qed.

Lemma encode_char_2 (b0 b1 : N) :
  0xC2 <= b0 <= 0xDF -> 0x80 <= b1 <= 0xBF ->
  encode_char ((b0 - 0xC0) * 64 + (b1 - 0x80)) = Some [b0; b1].
Proof.
  intros H0 H1. unfold encode_char.
  set (x := b0 - 0xC0). set (y := b1 - 0x80).
  assert (2 <= x <= 31 /\ y < 64) as [Hx Hy] by (subst x y; lia).
  destruct (div_mod_64 x y Hy) as [Hd Hm].
  destruct (N.ltb_spec (x * 64 + y) 0x80); [lia|].
  destruct (N.ltb_spec (x * 64 + y) 0x800); [|lia].
  rewrite Hd, Hm. subst x y. do 2 f_equal; [lia|f_equal; lia].
Qed.

Lemma encode_char_3 (b0 b1 b2 : N) :
  0xE0 <= b0 <= 0xEF -> 0x80 <= b1 <= 0xBF -> 0x80 <= b2 <= 0xBF ->
  (b0 = 0xE0 -> 0xA0 <= b1) -> (b0 = 0xED -> b1 <= 0x9F) ->
  encode_char ((b0 - 0xE0) * 4096 + (b1 - 0x80) * 64 + (b2 - 0x80))
  = Some [b0; b1; b2].
Proof.
  intros H0 H1 H2 Hlow Hsur. unfold encode_char.
  set (x := b0 - 0xE0). set (y := b1 - 0x80). set (z := b2 - 0x80).
  assert (x <= 15 /\ y < 64 /\ z < 64) as (Hx & Hy & Hz) by (subst x y z; lia).
  assert (x = 0 -> 32 <= y) as Hlow' by (subst x y; lia).
  assert (x = 13 -> y <= 31) as Hsur' by (subst x y; lia).
  set (c := x * 4096 + y * 64 + z).
  assert (c = (x * 64 + y) * 64 + z) as Hc by (subst c; lia).
  assert (c = x * 4096 + (y * 64 + z)) as Hc' by (subst c; lia).
  destruct (div_mod_64 (x * 64 + y) z Hz) as [Hd Hm].
  destruct (div_mod_64 x y Hy) as [_ Hm2].
  assert (c / 4096 = x) as Hd3 by (rewrite Hc'; apply div_4096; lia).
  destruct (N.ltb_spec c 0x80); [lia|].
  destruct (N.ltb_spec c 0x800); [lia|].
  destruct ((0xD800 <=? c) && (c <=? 0xDFFF)) eqn:S.
  { apply andb_prop in S as [?%N.leb_le ?%N.leb_le].
    assert (x = 13) as Hx13 by lia. specialize (Hsur' Hx13). lia. }
  destruct (N.ltb_spec c 0x10000); [|lia].
  rewrite Hd3. rewrite Hc at 1 2. rewrite Hd, Hm, Hm2.
  subst x y z. do 2 f_equal; [lia|]. f_equal; [lia|]. f_equal. lia.
Qed.

Lemma encode_char_4 (b0 b1 b2 b3 : N) :
  0xF0 <= b0 <= 0xF4 -> 0x80 <= b1 <= 0xBF -> 0x80 <= b2 <= 0xBF ->
  0x80 <= b3 <= 0xBF ->
  (b0 = 0xF0 -> 0x90 <= b1) -> (b0 = 0xF4 -> b1 <= 0x8F) ->
  encode_char ((b0 - 0xF0) * 262144 + (b1 - 0x80) * 4096
               + (b2 - 0x80) * 64 + (b3 - 0x80))
  = Some [b0; b1; b2; b3].
Proof.
  intros H0 H1 H2 H3 Hlow Hmax. unfold encode_char.
  set (x := b0 - 0xF0). set (y := b1 - 0x80). set (z := b2 - 0x80).
  set (u := b3 - 0x80).
  assert (x <= 4 /\ y < 64 /\ z < 64 /\ u < 64) as (Hx & Hy & Hz & Hu)
    by (subst x y z u; lia).
  assert (x = 0 -> 16 <= y) as Hlow' by (subst x y; lia).
  assert (x = 4 -> y <= 15) as Hmax' by (subst x y; lia).
  set (c := x * 262144 + y * 4096 + z * 64 + u).
  assert (c = ((x * 64 + y) * 64 + z) * 64 + u) as Hc by (subst c; lia).
  assert (c = (x * 64 + y) * 4096 + (z * 64 + u)) as Hc2 by (subst c; lia).
  assert (c = x * 262144 + (y * 4096 + z * 64 + u)) as Hc3 by (subst c; lia).
  destruct (div_mod_64 ((x * 64 + y) * 64 + z) u Hu) as [Hd Hm].
  destruct (div_mod_64 (x * 64 + y) z Hz) as [_ Hm2].
  destruct (div_mod_64 x y Hy) as [_ Hm3].
  assert (c / 4096 = x * 64 + y) as Hd2 by (rewrite Hc2; apply div_4096; lia).
  assert (c / 262144 = x) as Hd3 by (rewrite Hc3; apply div_262144; lia).
  destruct (N.ltb_spec c 0x80); [lia|].
  destruct (N.ltb_spec c 0x800); [lia|].
  destruct ((0xD800 <=? c) && (c <=? 0xDFFF)) eqn:S.
  { apply andb_prop in S as [?%N.leb_le ?%N.leb_le]. lia. }
  destruct (N.ltb_spec c 0x10000); [lia|].
  destruct (N.ltb_spec c 0x110000); [|lia].
  rewrite Hd3, Hd2, Hm3. rewrite Hc at 1 2. rewrite Hd, Hm, Hm2.
  subst x y z u. do 2 f_equal; [lia|]. f_equal; [lia|]. f_equal; [lia|].
  f_equal. lia.
Qed.

Lemma encode_decode_strong (n : nat) :
  forall bs t, (List.length bs <= n)%nat -> decode bs = Some t ->
               encode t = Some bs.
Proof.
  induction n as [|n IH]; intros bs t Hlen.
  { destruct bs; [|cbn in Hlen; lia]. by intros [= <-]. }
  destruct bs as [|b0 r0]; [by intros [= <-]|].
  cbn [decode]. cbn [List.length] in Hlen.
  destruct (b0 <? 0x80) eqn:E0.
  { destruct (decode r0) as [t0|] eqn:D; [|done]. intros [= <-].
    cbn [encode]. unfold encode_char. rewrite E0. cbn.
    by rewrite (IH r0 t0) by (done || lia). }
  destruct ((0xC2 <=? b0) && (b0 <=? 0xDF)) eqn:E1.
  { destruct r0 as [|b1 r1]; [done|]. destruct (cont b1) eqn:C1; [|done].
    destruct (decode r1) as [t1|] eqn:D; [|done]. intros [= <-].
    cbn [List.length] in Hlen. unfold cont in *.
    apply andb_prop in E1 as [?%N.leb_le ?%N.leb_le].
    apply andb_prop in C1 as [?%N.leb_le ?%N.leb_le].
    cbn [encode]. rewrite encode_char_2 by lia. cbn.
    by rewrite (IH r1 t1) by (done || lia). }
  destruct ((0xE0 <=? b0) && (b0 <=? 0xEF)) eqn:E2.
  { destruct r0 as [|b1 [|b2 r2]]; [done|done|].
    destruct (cont b1 && cont b2 && (negb (b0 =? 0xE0) || (0xA0 <=? b1))
              && (negb (b0 =? 0xED) || (b1 <=? 0x9F))) eqn:C; [|done].
    destruct (decode r2) as [t2|] eqn:D; [|done]. intros [= <-].
    cbn [List.length] in Hlen. unfold cont in *.
    apply andb_prop in E2 as [?%N.leb_le ?%N.leb_le].
    apply andb_prop in C as [C Hsur]. apply andb_prop in C as [C Hover].
    apply andb_prop in C as [C1 C2].
    apply andb_prop in C1 as [?%N.leb_le ?%N.leb_le].
    apply andb_prop in C2 as [?%N.leb_le ?%N.leb_le].
    cbn [encode]. rewrite encode_char_3; try lia.
    - cbn. by rewrite (IH r2 t2) by (done || lia).
    - intros ->. cbn in Hover. by apply N.leb_le in Hover.
    - intros ->. cbn in Hsur. by apply N.leb_le in Hsur. }
  destruct ((0xF0 <=? b0) && (b0 <=? 0xF4)) eqn:E3; [|done].
  destruct r0 as [|b1 [|b2 [|b3 r3]]]; [done|done|done|].
  destruct (cont b1 && cont b2 && cont b3
            && (negb (b0 =? 0xF0) || (0x90 <=? b1))
            && (negb (b0 =? 0xF4) || (b1 <=? 0x8F))) eqn:C; [|done].
  destruct (decode r3) as [t3|] eqn:D; [|done]. intros [= <-].
  cbn [List.length] in Hlen. unfold cont in *.
  apply andb_prop in E3 as [?%N.leb_le ?%N.leb_le].
  apply andb_prop in C as [C Hmax]. apply andb_prop in C as [C Hover].
  apply andb_prop in C as [C C3]. apply andb_prop in C as [C1 C2].
  apply andb_prop in C1 as [?%N.leb_le ?%N.leb_le].
  apply andb_prop in C2 as [?%N.leb_le ?%N.leb_le].
  apply andb_prop in C3 as [?%N.leb_le ?%N.leb_le].
  cbn [encode]. rewrite encode_char_4; try lia.
  - cbn. by rewrite (IH r3 t3) by (done || lia).
  - intros ->. cbn in Hover. by apply N.leb_le in Hover.
  - intros ->. cbn in Hmax. by apply N.leb_le in Hmax.
Qed.

(** Encoding what was decoded gives the octets back. *)
Lemma encode_decode (bs : list N) (t : str) :
  decode bs = Some t -> encode t = Some bs.
Proof. by apply (encode_decode_strong (List.length bs)). Qed.

Lemma encode_app (s t : str) (bs ct : list N) :
  encode s = Some bs -> encode t = Some ct -> encode (s ++ t) = Some (bs ++ ct).
Proof.
  revert bs. induction s as [|c s IH]; intros bs.
  - intros [= <-] Ht. done.
  - cbn [encode app]. destruct (encode_char c) as [cb|]; [|done]. cbn.
    destruct (encode s) as [rest|]; [|done]. cbn. intros [= <-] Ht.
    rewrite (IH rest eq_refl Ht). cbn. by rewrite app_assoc.
Qed.

End RoundTrip.

Section BackTrip.

Import Utf8.

Lemma split_64 (c : N) : c = c / 64 * 64 + c mod 64 /\ c mod 64 < 64.
Proof.
  split; [|by apply N.mod_lt]. rewrite N.mul_comm. by apply N.div_mod.
Qed.

Lemma leb_true (a b : N) : a <= b -> (a <=? b) = true.
Proof. apply N.leb_le. Qed.

Lemma ltb_false (a b : N) : b <= a -> (a <? b) = false.
Proof. apply N.ltb_ge. Qed.

Lemma eqb_false (a b : N) : a <> b -> (a =? b) = false.
Proof. apply N.eqb_neq. Qed.

Lemma cont_tail (r : N) : r < 64 -> cont (0x80 + r) = true.
Proof.
  intros H. unfold cont. by rewrite !leb_true by lia.
Qed.

(** Decoding the octets of a code point gives the code point back. *)
Lemma decode_encode_char (c : N) (cb rest : list N) :
  encode_char c = Some cb ->
  decode (cb ++ rest) = cons c <$> decode rest.
Proof.
  unfold encode_char.
  destruct (N.ltb_spec c 0x80) as [H1|H1].
  { intros [= <-]. cbn [app decode]. by rewrite (proj2 (N.ltb_lt _ _) H1). }
  destruct (split_64 c) as [Hc Hr].
  set (q := c / 64) in *. set (r := c mod 64) in *.
  destruct (N.ltb_spec c 0x800) as [H2|H2].
  { intros [= <-]. cbn [app decode].
    rewrite (ltb_false (0xC0 + q)) by lia.
    rewrite !leb_true by lia. cbn [andb]. rewrite cont_tail by done.
    do 2 f_equal. lia. }
  destruct (split_64 q) as [Hq Hr1].
  assert (c / 4096 = q / 64) as Hd2.
  { subst q. rewrite N.div_div by done. done. }
  set (q1 := q / 64) in *. set (r1 := q mod 64) in *.
  destruct ((0xD800 <=? c) && (c <=? 0xDFFF)) eqn:S; [done|].
  assert (c < 0xD800 \/ 0xDFFF < c) as Hs.
  { apply andb_false_iff in S as [S%N.leb_gt|S%N.leb_gt]; lia. }
  destruct (N.ltb_spec c 0x10000) as [H3|H3].
  { intros [= <-]. rewrite Hd2. cbn [app decode].
    rewrite (ltb_false (0xE0 + q1)) by lia.
    assert ((0xC2 <=? 0xE0 + q1) && (0xE0 + q1 <=? 0xDF) = false) as ->.
    { apply andb_false_iff. right. apply N.leb_gt. lia. }
    rewrite !(leb_true 0xE0), !(leb_true _ 0xEF) by lia. cbn [andb].
    rewrite !cont_tail by done. cbn [andb].
    assert (negb (0xE0 + q1 =? 0xE0) || (0xA0 <=? 0x80 + r1) = true) as ->.
    { destruct (N.eqb_spec (0xE0 + q1) 0xE0) as [E|E]; [|done]. cbn.
      apply N.leb_le. lia. }
    assert (negb (0xE0 + q1 =? 0xED) || (0x80 + r1 <=? 0x9F) = true) as ->.
    { destruct (N.eqb_spec (0xE0 + q1) 0xED) as [E|E]; [|done]. cbn.
      apply N.leb_le. lia. }
    cbn [andb]. do 2 f_equal. lia. }
  destruct (split_64 q1) as [Hq1 Hr2].
  assert (c / 262144 = q1 / 64) as Hd3.
  { rewrite <- Hd2. rewrite N.div_div by done. done. }
  set (q2 := q1 / 64) in *. set (r2 := q1 mod 64) in *.
  destruct (N.ltb_spec c 0x110000) as [H4|H4]; [|done].
  intros [= <-]. rewrite Hd3, Hd2. fold r2. cbn [app decode].
  rewrite (ltb_false (0xF0 + q2)) by lia.
  assert ((0xC2 <=? 0xF0 + q2) && (0xF0 + q2 <=? 0xDF) = false) as ->.
  { apply andb_false_iff. right. apply N.leb_gt. lia. }
  assert ((0xE0 <=? 0xF0 + q2) && (0xF0 + q2 <=? 0xEF) = false) as ->.
  { apply andb_false_iff. right. apply N.leb_gt. lia. }
  rewrite !(leb_true 0xF0), !(leb_true _ 0xF4) by lia. cbn [andb].
  rewrite !cont_tail by done. cbn [andb].
  assert (negb (0xF0 + q2 =? 0xF0) || (0x90 <=? 0x80 + r2) = true) as ->.
  { destruct (N.eqb_spec (0xF0 + q2) 0xF0) as [E|E]; [|done]. cbn.
    apply N.leb_le. lia. }
  assert (negb (0xF0 + q2 =? 0xF4) || (0x80 + r2 <=? 0x8F) = true) as ->.
  { destruct (N.eqb_spec (0xF0 + q2) 0xF4) as [E|E]; [|done]. cbn.
    apply N.leb_le. lia. }
  cbn [andb]. do 2 f_equal. lia.
Qed.

(** Decoding what was encoded gives the text back. *)
Lemma decode_encode (s : str) (bs : list N) :
  encode s = Some bs -> decode bs = Some s.
Proof.
  revert bs. induction s as [|c s IH]; intros bs; [by intros [= <-]|].
  cbn [encode]. destruct (encode_char c) as [cb|] eqn:Ec; [|done]. cbn.
  destruct (encode s) as [rest|]; [|done]. cbn. intros [= <-].
  rewrite (decode_encode_char c cb rest Ec). by rewrite (IH rest).
Qed.

(** Two texts with the same octets are the same text. *)
Lemma encode_inj (s t : str) (bs : list N) :
  encode s = Some bs -> encode t = Some bs -> s = t.
Proof.
  intros Hs%decode_encode Ht%decode_encode. congruence.
Qed.

End BackTrip.

(** ** The reader of the log, on the cells at the edge of its rules *)

Example pandas_long_digits :
  Pandas.infer_column [Some (py "0000000000000000000007")] = [CInt 7].
Proof. vm_compute. reflexivity. Qed.

Example pandas_uint64 :
  Pandas.infer_column [Some (py "18446744073709551615"); Some (py "1")]
  = [CInt 18446744073709551615; CInt 1].
Proof. vm_compute. reflexivity. Qed.

Example pandas_past_uint64 :
  Pandas.infer_column [Some (py "18446744073709551616"); Some (py "01")]
  = [CStr (py "18446744073709551616"); CStr (py "01")].
Proof. vm_compute. reflexivity. Qed.

Example pandas_missing_text :
  Pandas.infer_column [Some (py "A"); Some []; Some (py "NA"); None]
  = [CStr (py "A"); CNaN; CNaN; CNaN].
Proof. vm_compute. reflexivity. Qed.

Example pandas_missing_integer :
  astype_str <$> Pandas.infer_column [Some (py "007"); Some []]
  = [py "7.0"; py "nan"].
Proof. vm_compute. reflexivity. Qed.

(** ** Identifier normalization *)

Section Normalization.

Import PyStr SpecRule.

Lemma extract_sku_plain (v : str) :
  forallb (fun c => negb (isspace c) && negb (c =? minus)) v = true ->
  extract_sku v = v.
Proof.
  intros H. rewrite extract_sku_rule. unfold identifier, normalize.
  assert (forallb (fun c => negb (isspace c)) v = true) as Hs.
  { apply forallb_forall. intros c Hc.
    by apply (proj1 (forallb_forall _ _) H) in Hc as [? _]%andb_prop. }
  assert (forallb (fun c => negb (minus =? c)) v = true) as Hm.
  { apply forallb_forall. intros c Hc. rewrite N.eqb_sym.
    by apply (proj1 (forallb_forall _ _) H) in Hc as [_ ?]%andb_prop. }
  unfold strip. rewrite (lstrip_no_space v Hs), (rstrip_no_space v Hs).
  destruct v as [|c v]; [done|]. cbn [default].
  by rewrite (before_first_id _ _ Hs), (before_first_id _ _ Hm).
Qed.

(** What [update_frame] computes from a payload: the same rule, applied to
    the trimmed text, which is also what comes back when there is no
    token. *)
Lemma extract_sku_of_stripped (text : str) :
  extract_sku (strip text) = default (strip text) (normalize text).
Proof.
  unfold extract_sku at 1. rewrite split_strip.
  pose proof (extract_sku_rule text) as H. unfold extract_sku in H.
  unfold identifier in H. unfold index0 in *.
  rewrite split_first_token in *. unfold normalize in *.
  destruct (lstrip text) as [|c t] eqn:E.
  - apply strip_nil_iff in E. by rewrite E.
  - destruct (strip text) as [|c' t'] eqn:E'.
    { apply strip_nil_iff in E'. congruence. }
    cbn [mbind option_bind default] in *. rewrite split_sep_head in *.
    cbn [default] in *. exact H.
Qed.

(** A trimmed payload is its own Identifier exactly when it holds no
    whitespace and no ['-']. *)
Lemma own_identifier_iff (text : str) :
  strip text = extract_sku (strip text)
  <-> forallb (fun c => negb (isspace c) && negb (c =? minus)) (strip text) = true.
Proof.
  split.
  - intros H. rewrite extract_sku_of_stripped in H. unfold normalize in H.
    destruct (strip text) as [|c t] eqn:E; [done|]. cbn [default] in H.
    apply forallb_forall. intros x Hx%list_elem_of_In. rewrite H in Hx.
    pose proof (before_first_stops _ _ _ Hx) as Hm.
    apply before_first_elem, before_first_stops in Hx.
    rewrite Hx, N.eqb_sym, Hm. done.
  - intros H. symmetry. by apply extract_sku_plain.
Qed.


End Normalization.

(** ** Traces and the steps of a persist *)

Section Emits.

Context (P : event -> Prop).

Lemma emits_refl (w : World) : emits P w w.
Proof. exists []. by rewrite app_nil_r. Qed.

Lemma emits_trans (w1 w2 w3 : World) :
  emits P w1 w2 -> emits P w2 w3 -> emits P w1 w3.
Proof.
  intros (e1 & H1 & F1) (e2 & H2 & F2). exists (e1 ++ e2). split.
  - by rewrite H2, H1, app_assoc.
  - by apply Forall_app.
Qed.

Lemma emits_same_trace (w1 w2 w3 : World) :
  trace w3 = trace w2 -> emits P w1 w2 -> emits P w1 w3.
Proof. intros E (evs & H & F). exists evs. by rewrite E. Qed.

Lemma emits_emit (w1 w2 : World) (e : event) :
  P e -> emits P w1 w2 -> emits P w1 (emit e w2).
Proof.
  intros He (evs & H & F). exists (evs ++ [e]). split.
  - cbn. by rewrite H, app_assoc.
  - apply Forall_app. split; [done|by constructor].
Qed.

Lemma emits_with_files (w1 w2 : World) (f : gmap str str) :
  emits P w1 w2 -> emits P w1 (with_files f w2).
Proof. by apply emits_same_trace. Qed.

Lemma emits_with_images (w1 w2 : World) (i : gmap str Frame) :
  emits P w1 w2 -> emits P w1 (with_images i w2).
Proof. by apply emits_same_trace. Qed.

Lemma emits_with_dirs (w1 w2 : World) (d : gset str) :
  emits P w1 w2 -> emits P w1 (with_dirs d w2).
Proof. by apply emits_same_trace. Qed.

Lemma emits_with_cams (w1 w2 : World) (c : gset nat) (n : nat) :
  emits P w1 w2 -> emits P w1 (with_cams c n w2).
Proof. by apply emits_same_trace. Qed.

Lemma emits_with_serials (w1 w2 : World) (l : list str) :
  emits P w1 w2 -> emits P w1 (with_serials l w2).
Proof. by apply emits_same_trace. Qed.

Lemma emits_with_feed (w1 w2 : World) (l : list read_result) :
  emits P w1 w2 -> emits P w1 (with_feed l w2).
Proof. by apply emits_same_trace. Qed.

Lemma emits_elem (w1 w2 : World) (e : event) :
  emits P w1 w2 -> e ∈ trace w1 -> e ∈ trace w2.
Proof. intros (evs & -> & _) ?. apply elem_of_app. by left. Qed.

End Emits.

Lemma emits_weaken (P Q : event -> Prop) (w1 w2 : World) :
  (forall e, P e -> Q e) -> emits P w1 w2 -> emits Q w1 w2.
Proof.
  intros HPQ (evs & H & F). exists evs. split; [done|].
  by eapply Forall_impl.
Qed.

(** Closes a conjunction of closed equations by evaluation. *)
Ltac by_computation :=
  cbv zeta; repeat apply conj; vm_compute; exact eq_refl.

(** Closes [emits P w w'] when [w'] is [w] under updates and [emit]s whose
    events are in [P] by computation. *)
Ltac emits_steps :=
  repeat first
    [ apply emits_refl
    | apply emits_emit; [by cbn|]
    | apply emits_with_files
    | apply emits_with_images
    | apply emits_with_dirs
    | apply emits_with_cams
    | apply emits_with_serials
    | apply emits_with_feed ].

Section Steps.

Context (env : Env).

(** *** The folder in effect *)

Lemma default_folder_app (a : App) (w : World) :
  fst (use_default_folder (a, w))
  = match save_location a with [] => set_save_location (cwd w) a | _ => a end.
Proof. unfold use_default_folder. by destruct (save_location a). Qed.

Lemma default_folder_world (a : App) (w : World) :
  snd (use_default_folder (a, w))
  = match save_location a with
    | [] => emit (EvInfo (MsgNoFolder (cwd w))) w
    | _ => w
    end.
Proof. unfold use_default_folder. by destruct (save_location a). Qed.

Lemma default_folder_emit (a : App) (e : event) (w : World) :
  fst (use_default_folder (a, emit e w)) = fst (use_default_folder (a, w)).
Proof. rewrite !default_folder_app. by destruct (save_location a). Qed.

Lemma default_folder_set (a : App) (s : gset str) (w : World) :
  fst (use_default_folder (set_barcode_set s a, w))
  = set_barcode_set s (fst (use_default_folder (a, w))).
Proof. rewrite !default_folder_app. cbn. by destruct (save_location a). Qed.

Lemma default_folder_keeps (a : App) (w : World) :
  save_location a <> [] -> use_default_folder (a, w) = (a, w).
Proof. unfold use_default_folder. by destruct (save_location a). Qed.

Lemma default_folder_emits (P : event -> Prop) (a : App) (w : World) :
  (forall d, P (EvInfo (MsgNoFolder d))) ->
  emits P w (snd (use_default_folder (a, w))).
Proof.
  intros HP. rewrite default_folder_world.
  destruct (save_location a); [|apply emits_refl].
  apply emits_emit; [apply HP|apply emits_refl].
Qed.

Lemma default_folder_disk (a : App) (w : World) :
  let w' := snd (use_default_folder (a, w)) in
  files w' = files w /\ images w' = images w /\ feed w' = feed w
  /\ cams_open w' = cams_open w /\ serials_open w' = serials_open w.
Proof. cbv zeta. rewrite default_folder_world. by destruct (save_location a). Qed.

(** *** The steps of [capture_image] *)

Lemma capture_image_unfold (frame : Frame) (sku : str) (a : App) (w : World) :
  capture_image env frame sku (a, w)
  = let a1 := fst (use_default_folder (a, w)) in
    let w1 := snd (use_default_folder (a, emit (EvPersist sku) w)) in
    if negb (makedirs_ok env (order_folder a1))
    then Raised (a1, emit (EvMakedirs (order_folder a1) false) w1)
    else Returned
           (a1, append_log env sku a1
                  (beep_saved a1
                     (write_image env frame sku a1 (make_order_folder a1 w1)))).
Proof.
  unfold capture_image. cbn [fst snd].
  rewrite <- (default_folder_emit a (EvPersist sku) w).
  by destruct (use_default_folder (a, emit (EvPersist sku) w)).
Qed.

Lemma write_image_files (frame : Frame) (sku : str) (a : App) (w : World) :
  let w' := write_image env frame sku a w in
  files w' = files w /\ feed w' = feed w
  /\ cams_open w' = cams_open w /\ serials_open w' = serials_open w.
Proof. cbv zeta. unfold write_image. by destruct (cv2_imwrite env _ _). Qed.

Lemma write_image_images (frame : Frame) (sku : str) (a : App) (w : World) :
  images (write_image env frame sku a w)
  = match cv2_imwrite env (image_path a sku (strftime env)) frame with
    | ImWritten => <[image_path a sku (strftime env) := frame]> (images w)
    | _ => images w
    end.
Proof. unfold write_image. by destruct (cv2_imwrite env _ _). Qed.

Lemma beep_saved_disk (a : App) (w : World) :
  let w' := beep_saved a w in
  files w' = files w /\ images w' = images w /\ feed w' = feed w
  /\ cams_open w' = cams_open w /\ serials_open w' = serials_open w.
Proof. cbv zeta. unfold beep_saved. by destruct (_ && _). Qed.

Lemma append_log_images (sku : str) (a : App) (w : World) :
  let w' := append_log env sku a w in
  images w' = images w /\ feed w' = feed w
  /\ cams_open w' = cams_open w /\ serials_open w' = serials_open w.
Proof. cbv zeta. unfold append_log. by destruct (open_append_ok env _). Qed.

Lemma append_log_files (sku : str) (a : App) (w : World) :
  files (append_log env sku a w)
  = if open_append_ok env (log_path a)
    then <[log_path a := default [] (files w !! log_path a)
                         ++ log_text (files w !! log_path a) (strftime env) sku]>
           (files w)
    else files w.
Proof. unfold append_log. by destruct (open_append_ok env _). Qed.

Lemma forward_serial_app (barcode_data : str) (s : state) :
  fst (forward_serial env barcode_data s) = fst s.
Proof.
  destruct s as [a w]. unfold forward_serial.
  destruct (serial_port a); [|done].
  destruct (Utf8.encode _); [|done]. by destruct (serial_write_ok env _).
Qed.

Lemma forward_serial_disk (barcode_data : str) (s : state) :
  let w' := snd (forward_serial env barcode_data s) in
  files w' = files (snd s) /\ images w' = images (snd s)
  /\ feed w' = feed (snd s) /\ cams_open w' = cams_open (snd s)
  /\ serials_open w' = serials_open (snd s).
Proof.
  destruct s as [a w]. cbv zeta. unfold forward_serial.
  destruct (serial_port a); [|done].
  destruct (Utf8.encode _).
  - destruct (serial_write_ok env _); [done|].
    by destruct (settings_get_beep a).
  - by destruct (settings_get_beep a).
Qed.

(** What a persist does once its folder exists. *)
Lemma persist_steps_emit (frame : Frame) (sku : str) (a : App) (w : World) :
  emits store_event w
    (append_log env sku a
       (beep_saved a (write_image env frame sku a (make_order_folder a w)))).
Proof.
  unfold append_log, beep_saved, write_image, make_order_folder, play_sound.
  destruct (open_append_ok env _), (settings_get_beep a && beep_checkbox a),
    (cv2_imwrite env _ _); emits_steps.
Qed.

Lemma forward_serial_trace (barcode_data : str) (a : App) (w : World)
    (p : str) (bs : list N) :
  serial_port a = Some p ->
  Utf8.encode (barcode_data ++ [newline]) = Some bs ->
  trace (snd (forward_serial env barcode_data (a, w)))
  = trace w ++ EvSerialWrite bs (serial_write_ok env bs)
      :: (if serial_write_ok env bs then []
          else if settings_get_beep a then [EvBeep false] else []).
Proof.
  intros Hp Hbs. unfold forward_serial, play_sound. rewrite Hp, Hbs.
  destruct (serial_write_ok env bs); [done|].
  destruct (settings_get_beep a); cbn; by rewrite <- ?app_assoc.
Qed.

Lemma forward_serial_closed (barcode_data : str) (a : App) (w : World) :
  serial_port a = None -> forward_serial env barcode_data (a, w) = (a, w).
Proof. intros Hp. unfold forward_serial. by rewrite Hp. Qed.

Lemma forward_serial_emits (barcode_data : str) (s : state) :
  emits serial_event (snd s) (snd (forward_serial env barcode_data s)).
Proof.
  destruct s as [a w]. unfold forward_serial, play_sound. cbn [snd].
  destruct (serial_port a); [|apply emits_refl].
  destruct (Utf8.encode _).
  - destruct (serial_write_ok env _), (settings_get_beep a); emits_steps.
  - destruct (settings_get_beep a); emits_steps.
Qed.



(** *** One symbol *)

Lemma process_symbol_undecodable (frame : Frame) (b : Symbol) (s : state) :
  Utf8.decode (data b) = None -> process_symbol env frame b s = Returned s.
Proof. intros D. destruct s. unfold process_symbol. by rewrite D. Qed.

Lemma process_symbol_seen (frame : Frame) (b : Symbol) (text : str)
    (a : App) (w : World) :
  Utf8.decode (data b) = Some text ->
  extract_sku (PyStr.strip text) ∈ barcode_set a ->
  process_symbol env frame b (a, w) = Returned (a, w).
Proof.
  intros D H. unfold process_symbol. rewrite D.
  by rewrite bool_decide_eq_true_2.
Qed.

Lemma process_symbol_new (frame : Frame) (b : Symbol) (text : str)
    (a : App) (w : World) :
  Utf8.decode (data b) = Some text ->
  extract_sku (PyStr.strip text) ∉ barcode_set a ->
  process_symbol env frame b (a, w)
  = capture_image env frame (extract_sku (PyStr.strip text))
      (set_barcode_set ({[extract_sku (PyStr.strip text)]} ∪ barcode_set a) a, w)
    >>> fun s => Returned
                   (forward_serial env (PyStr.strip text)
                      (set_last_barcode (Some (PyStr.strip text)) (fst s), snd s)).
Proof.
  intros D H. unfold process_symbol. rewrite D.
  rewrite bool_decide_eq_false_2 by done.
  destruct (capture_image _ _ _ _) as [[a' w']|[a' w']]; done.
Qed.

(** The state a persist of a new identifier ends in when its folder can
    be made. *)
Lemma process_symbol_new_ok (frame : Frame) (b : Symbol) (text : str)
    (a : App) (w : World) :
  let id := extract_sku (PyStr.strip text) in
  let a1 := fst (use_default_folder (a, w)) in
  Utf8.decode (data b) = Some text ->
  id ∉ barcode_set a ->
  makedirs_ok env (order_folder a1) = true ->
  process_symbol env frame b (a, w)
  = Returned
      (forward_serial env (PyStr.strip text)
         (set_last_barcode (Some (PyStr.strip text))
            (set_barcode_set ({[id]} ∪ barcode_set a) a1),
          append_log env id a1
            (beep_saved a1
               (write_image env frame id a1
                  (make_order_folder a1
                     (snd (use_default_folder (a, emit (EvPersist id) w)))))))).
Proof.
  intros id a1 D Hnew Hmk. rewrite (process_symbol_new _ _ _ _ _ D Hnew).
  fold id. rewrite capture_image_unfold. cbv zeta.
  rewrite default_folder_set. fold a1.
  change (order_folder (set_barcode_set _ a1)) with (order_folder a1).
  rewrite Hmk. cbn [negb bind fst snd].
  do 2 f_equal. f_equal.
  rewrite !default_folder_world. cbn [save_location set_barcode_set].
  reflexivity.
Qed.

(** And the state it ends in when the folder cannot be made: the
    exception of [os.makedirs] leaves [update_frame]. *)
Lemma process_symbol_new_raises (frame : Frame) (b : Symbol) (text : str)
    (a : App) (w : World) :
  let id := extract_sku (PyStr.strip text) in
  let a1 := fst (use_default_folder (a, w)) in
  Utf8.decode (data b) = Some text ->
  id ∉ barcode_set a ->
  makedirs_ok env (order_folder a1) = false ->
  process_symbol env frame b (a, w)
  = Raised
      (set_barcode_set ({[id]} ∪ barcode_set a) a1,
       emit (EvMakedirs (order_folder a1) false)
         (snd (use_default_folder (a, emit (EvPersist id) w)))).
Proof.
  intros id a1 D Hnew Hmk. rewrite (process_symbol_new _ _ _ _ _ D Hnew).
  fold id. rewrite capture_image_unfold. cbv zeta.
  rewrite default_folder_set. fold a1.
  change (order_folder (set_barcode_set _ a1)) with (order_folder a1).
  rewrite Hmk. cbn [negb bind fst snd].
  do 2 f_equal.
  rewrite !default_folder_world. cbn [save_location set_barcode_set].
  reflexivity.
Qed.

(** What a persist leaves on the disk. *)
Lemma persisted_disk (frame : Frame) (id : str) (a1 : App) (w0 : World)
    (text : str) (a' : App) :
  let w' := snd (forward_serial env text
              (a', append_log env id a1
                     (beep_saved a1
                        (write_image env frame id a1 (make_order_folder a1 w0))))) in
  images w'
  = match cv2_imwrite env (image_path a1 id (strftime env)) frame with
    | ImWritten => <[image_path a1 id (strftime env) := frame]> (images w0)
    | _ => images w0
    end
  /\ files w'
     = if open_append_ok env (log_path a1)
       then <[log_path a1 := default [] (files w0 !! log_path a1)
                             ++ log_text (files w0 !! log_path a1) (strftime env) id]>
              (files w0)
       else files w0.
Proof.
  cbv zeta.
  destruct (forward_serial_disk text
              (a', append_log env id a1
                     (beep_saved a1
                        (write_image env frame id a1 (make_order_folder a1 w0)))))
    as (-> & -> & _).
  cbn [snd]. split.
  - destruct (append_log_images id a1
                (beep_saved a1
                   (write_image env frame id a1 (make_order_folder a1 w0))))
      as (-> & _).
    destruct (beep_saved_disk a1
                (write_image env frame id a1 (make_order_folder a1 w0)))
      as (_ & -> & _).
    by rewrite write_image_images.
  - rewrite append_log_files.
    destruct (beep_saved_disk a1
                (write_image env frame id a1 (make_order_folder a1 w0)))
      as (-> & _).
    destruct (write_image_files frame id a1 (make_order_folder a1 w0))
      as (-> & _).
    done.
Qed.

End Steps.

(** ** The frame cycle: new and seen identifiers *)

Lemma update_frame_reads (env : Env) (a : App) (w : World) (c : nat)
    (frame : Frame) (rest : list read_result) :
  capture a = Some c -> feed w = RdFrame frame :: rest ->
  update_frame env (a, w)
  = process_symbols env frame (default [] (pyzbar_decode env frame))
      (a, emit (EvDecode frame) (emit (EvRead (RdFrame frame)) (with_feed rest w))).
Proof. intros Hc Hf. unfold update_frame, read. by rewrite Hc, Hf. Qed.

Lemma persist_entry_recorded (a : App) (id : str) (w : World) :
  EvPersist id ∈ trace (snd (use_default_folder (a, emit (EvPersist id) w))).
Proof.
  eapply emits_elem; [apply (default_folder_emits (fun _ => True)); done|].
  cbn. set_solver.
Qed.



(** ** What the serial line receives *)

Lemma serial_writes_emits (P : event -> Prop) (w w' : World) :
  (forall e, P e -> serial_bytes e = None) ->
  emits P w w' -> serial_writes w' = serial_writes w.
Proof.
  intros HP (evs & H & F). unfold serial_writes. rewrite H, omap_app.
  enough (omap serial_bytes evs = []) as -> by by rewrite app_nil_r.
  clear H. induction F as [|e evs He _ IH]; [done|].
  change (omap serial_bytes (e :: evs))
    with (match serial_bytes e with
          | Some y => y :: omap serial_bytes evs
          | None => omap serial_bytes evs
          end).
  by rewrite (HP e He).
Qed.

Lemma store_event_no_serial (e : event) :
  store_event e \/ (exists sku, e = EvPersist sku) -> serial_bytes e = None.
Proof. intros [H|[sku ->]]; [|done]. by destruct e as [| |? []| | | | | | | | | | | | |]. Qed.

(** C6, as the code has it. For every newly recorded scan while a serial
    port is open, what is written to the port is the UTF-8 encoding of the
    decoded payload text, trimmed of surrounding whitespace, followed by a
    newline, and nothing else; that is the Identifier followed by a newline
    exactly when the trimmed payload is its own Identifier, which is exactly
    when it holds no ['-'] and no whitespace. *)
Theorem serial_forwards_trimmed_payload (env : Env) (frame : Frame)
    (b : Symbol) (text : str) (a : App) (w : World) (p : str) :
  let id := extract_sku (PyStr.strip text) in
  let a1 := fst (use_default_folder (a, w)) in
  let o := process_symbol env frame b (a, w) in
  Utf8.decode (data b) = Some text ->
  id ∉ barcode_set a ->
  serial_port a = Some p ->
  makedirs_ok env (order_folder a1) = true ->
  exists bs,
    Utf8.encode (PyStr.strip text ++ [newline]) = Some bs
    /\ serial_writes (snd (final o))
       = serial_writes w ++ (if serial_write_ok env bs then [bs] else [])
    /\ (Utf8.encode (id ++ [newline]) = Some bs <-> PyStr.strip text = id)
    /\ (PyStr.strip text = id
        <-> forallb (fun c => negb (PyStr.isspace c) && negb (c =? minus))
              (PyStr.strip text) = true).
Proof.
  intros id a1 o D Hnew Hp Hmk.
  destruct (encode_stripped_line _ _ D) as [bs Hbs]. exists bs.
  split; [done|]. split.
  2:{ split; [|apply own_identifier_iff].
      split; [|by intros <-].
      intros Hid. pose proof (encode_inj _ _ _ Hid Hbs) as E.
      by apply app_inv_tail in E. }
  subst o. rewrite (process_symbol_new_ok env frame b text a w D Hnew Hmk).
  fold id a1. cbn [final].
  set (w0 := snd (use_default_folder (a, emit (EvPersist id) w))).
  set (wp := append_log env id a1 _).
  assert (serial_port (set_last_barcode (Some (PyStr.strip text))
            (set_barcode_set ({[id]} ∪ barcode_set a) a1)) = Some p) as Hp1.
  { cbn. subst a1. rewrite default_folder_app. by destruct (save_location a). }
  unfold serial_writes at 1.
  rewrite (forward_serial_trace env _ _ wp p bs Hp1 Hbs).
  rewrite omap_app. fold (serial_writes wp).
  assert (serial_writes wp = serial_writes w) as ->.
  { transitivity (serial_writes w0).
    - eapply (serial_writes_emits store_event); [|apply persist_steps_emit].
      intros e He. apply store_event_no_serial. by left.
    - transitivity (serial_writes (emit (EvPersist id) w)).
      + by eapply (serial_writes_emits (fun e => serial_bytes e = None));
          [|apply default_folder_emits].
      + unfold serial_writes. cbn. rewrite omap_app. cbn. by rewrite app_nil_r. }
  f_equal. destruct (serial_write_ok env bs); [done|].
  by destruct (settings_get_beep _).
Qed.

Lemma serial_forwards_trimmed_payload_witness :
  let env := Scenario.env in
  let s := Scenario.started [RdFrame 2] in
  let b := Scenario.symbol_of " SKU-1234 extra " in
  let text := py " SKU-1234 extra " in
  let id := extract_sku (PyStr.strip text) in
  let o := process_symbol env 2 b s in
  (Utf8.decode (data b) = Some text
   /\ (id ∉ barcode_set (fst s))
   /\ serial_port (fst s) = Some (py "/dev/ttyUSB0")
   /\ makedirs_ok env (order_folder (fst (use_default_folder s))) = true)
  /\ exists bs,
       Utf8.encode (PyStr.strip text ++ [newline]) = Some bs
       /\ serial_writes (snd (final o))
          = serial_writes (snd s) ++ (if serial_write_ok env bs then [bs] else [])
       /\ (Utf8.encode (id ++ [newline]) = Some bs <-> PyStr.strip text = id).
Proof.
  intros env s b text id o.
  assert (id ∉ barcode_set (fst s)) as Hnew.
  { intros H. vm_compute in H. discriminate. }
  assert (Utf8.decode (data b) = Some text) as D by (vm_compute; reflexivity).
  assert (serial_port (fst s) = Some (py "/dev/ttyUSB0")) as Hp
    by (vm_compute; reflexivity).
  assert (makedirs_ok env (order_folder (fst (use_default_folder s))) = true)
    as Hmk by reflexivity.
  split; [repeat split; done|].
  destruct (serial_forwards_trimmed_payload env 2 b text (fst s) (snd s)
              (py "/dev/ttyUSB0") D Hnew Hp Hmk) as (bs & Hbs & Hw & Hiff & _).
  exists bs. split; [exact Hbs|]. split; [exact Hw|exact Hiff].
Defined.

(** The sentence of the specification fails as it is worded: the payload
    " SKU-1234 extra " is recorded under the Identifier "SKU", and the
    serial line receives "SKU-1234 extra" and a newline, not "SKU" and a
    newline. *)
Lemma serial_forward_is_not_the_identifier :
  let s' := final (update_frame Scenario.env (Scenario.started [RdFrame 2])) in
  elements (barcode_set (fst s')) = [py "SKU"]
  /\ Some <$> serial_writes (snd s')
     = [Utf8.encode (Scenario.line "SKU-1234 extra")]
  /\ Some <$> serial_writes (snd s') <> [Utf8.encode (Scenario.line "SKU")].
Proof.
  cbv zeta. split; [vm_compute; reflexivity|].
  split; [vm_compute; reflexivity|].
  intros H. vm_compute in H. discriminate.
Qed.

(** ** The frame cycle: what every tick preserves *)

Section FrameCycle.

Context (env : Env).

(** The fallback to the working directory changes [save_location] only. *)
Lemma default_folder_fields (a : App) (w : World) :
  let a1 := fst (use_default_folder (a, w)) in
  capture a1 = capture a /\ timer_active a1 = timer_active a
  /\ serial_port a1 = serial_port a /\ barcode_set a1 = barcode_set a
  /\ last_barcode a1 = last_barcode a /\ order_input a1 = order_input a.
Proof. cbv zeta. rewrite default_folder_app. by destruct (save_location a). Qed.

Lemma not_persisting_store (seen : gset str) (e : event) :
  store_event e -> not_persisting seen e.
Proof. intros H id ->. done. Qed.

Lemma not_persisting_serial (seen : gset str) (e : event) :
  serial_event e -> not_persisting seen e.
Proof. intros H id ->. done. Qed.

Lemma not_persisting_mono (seen seen' : gset str) (e : event) :
  seen ⊆ seen' -> not_persisting seen' e -> not_persisting seen e.
Proof. intros Hs H id He. specialize (H id He). set_solver. Qed.

Lemma process_symbol_invariant (frame : Frame) (b : Symbol) (a : App) (w : World) :
  let s' := final (process_symbol env frame b (a, w)) in
  capture (fst s') = capture a /\ timer_active (fst s') = timer_active a
  /\ serial_port (fst s') = serial_port a
  /\ barcode_set a ⊆ barcode_set (fst s')
  /\ feed (snd s') = feed w
  /\ emits (not_persisting (barcode_set a)) w (snd s').
Proof.
  cbv zeta. destruct (Utf8.decode (data b)) as [text|] eqn:D.
  2:{ rewrite process_symbol_undecodable by done. cbn.
      repeat split; try done. apply emits_refl. }
  set (id := extract_sku (PyStr.strip text)).
  destruct (decide (id ∈ barcode_set a)) as [Hin|Hnew].
  { rewrite (process_symbol_seen env frame b text a w D Hin). cbn.
    repeat split; try done. apply emits_refl. }
  pose proof (default_folder_fields a w) as (Hc & Ht & Hs & Hb & _).
  set (a1 := fst (use_default_folder (a, w))) in *.
  set (w0 := snd (use_default_folder (a, emit (EvPersist id) w))).
  assert (emits (not_persisting (barcode_set a)) w w0) as Hw0.
  { eapply emits_trans; [|apply default_folder_emits].
    - apply emits_emit; [|apply emits_refl]. by intros ? [= <-].
    - intros d ? [=]. }
  assert (feed w0 = feed w) as Hf0.
  { subst w0. by destruct (default_folder_disk a (emit (EvPersist id) w))
      as (_ & _ & -> & _). }
  destruct (makedirs_ok env (order_folder a1)) eqn:Hmk.
  - rewrite (process_symbol_new_ok env frame b text a w D Hnew Hmk).
    fold id a1 w0. cbn [final].
    set (wp := append_log env id a1 _).
    rewrite forward_serial_app. cbn [fst].
    split; [done|]. split; [done|]. split; [done|].
    split; [cbn; set_solver|]. split.
    + destruct (forward_serial_disk env (PyStr.strip text)
                  (set_last_barcode (Some (PyStr.strip text))
                     (set_barcode_set ({[id]} ∪ barcode_set a) a1), wp))
        as (_ & _ & -> & _).
      cbn [snd]. subst wp.
      destruct (append_log_images env id a1
                  (beep_saved a1 (write_image env frame id a1 (make_order_folder a1 w0))))
        as (_ & -> & _).
      destruct (beep_saved_disk a1 (write_image env frame id a1 (make_order_folder a1 w0)))
        as (_ & _ & -> & _).
      by destruct (write_image_files env frame id a1 (make_order_folder a1 w0))
        as (_ & -> & _).
    + eapply emits_trans; [exact Hw0|].
      eapply emits_trans.
      * eapply emits_weaken; [apply not_persisting_store|apply persist_steps_emit].
      * eapply emits_weaken; [apply not_persisting_serial|].
        apply (forward_serial_emits env (PyStr.strip text) (_, wp)).
  - rewrite (process_symbol_new_raises env frame b text a w D Hnew Hmk).
    fold id a1 w0. cbn [final fst snd].
    split; [done|]. split; [done|]. split; [done|].
    split; [cbn; set_solver|]. split; [done|].
    apply emits_emit; [by intros ? [=]|exact Hw0].
Qed.

Lemma process_symbols_invariant (frame : Frame) (bs : list Symbol) (s : state) :
  let s' := final (process_symbols env frame bs s) in
  capture (fst s') = capture (fst s) /\ timer_active (fst s') = timer_active (fst s)
  /\ serial_port (fst s') = serial_port (fst s)
  /\ barcode_set (fst s) ⊆ barcode_set (fst s')
  /\ feed (snd s') = feed (snd s)
  /\ emits (not_persisting (barcode_set (fst s))) (snd s) (snd s').
Proof.
  cbv zeta. revert s. induction bs as [|b bs IH]; intros [a w].
  { cbn. repeat split; try done. apply emits_refl. }
  cbn [process_symbols].
  pose proof (process_symbol_invariant frame b a w) as (Hc & Ht & Hs & Hb & Hf & He).
  destruct (process_symbol env frame b (a, w)) as [[a' w']|[a' w']];
    cbn [bind final fst snd] in *.
  - destruct (IH (a', w')) as (Hc' & Ht' & Hs' & Hb' & Hf' & He').
    cbn [fst snd] in *.
    split; [congruence|]. split; [congruence|]. split; [congruence|].
    split; [set_solver|]. split; [congruence|].
    eapply emits_trans; [exact He|].
    eapply emits_weaken; [|exact He']. intros e. by apply not_persisting_mono.
  - done.
Qed.

Lemma process_symbol_returns (frame : Frame) (b : Symbol) (s : state) :
  (forall p, makedirs_ok env p = true) ->
  returns (process_symbol env frame b s) = true.
Proof.
  intros Hmk. destruct s as [a w].
  destruct (Utf8.decode (data b)) as [text|] eqn:D.
  2:{ by rewrite process_symbol_undecodable. }
  destruct (decide (extract_sku (PyStr.strip text) ∈ barcode_set a)) as [Hin|Hnew].
  { by rewrite (process_symbol_seen env frame b text a w D Hin). }
  by rewrite (process_symbol_new_ok env frame b text a w D Hnew (Hmk _)).
Qed.

Lemma process_symbols_returns (frame : Frame) (bs : list Symbol) (s : state) :
  (forall p, makedirs_ok env p = true) ->
  returns (process_symbols env frame bs s) = true.
Proof.
  intros Hmk. revert s. induction bs as [|b bs IH]; intros s; [done|].
  cbn [process_symbols]. pose proof (process_symbol_returns frame b s Hmk) as H.
  destruct (process_symbol env frame b s); [apply IH|done].
Qed.

Lemma stop_camera_returns (s : state) :
  exists s', stop_camera env s = Returned s'.
Proof.
  destruct s as [[cap ? ? ? ? ? sp ? ? ? ? ? ?] w]. unfold stop_camera.
  destruct cap, sp; by eexists.
Qed.

Lemma stop_camera_set (s : state) :
  let s' := final (stop_camera env s) in
  barcode_set (fst s') = barcode_set (fst s)
  /\ last_barcode (fst s') = last_barcode (fst s)
  /\ emits no_persist (snd s) (snd s').
Proof.
  destruct s as [[cap ? ? ? ? ? sp ? ? ? ? ? ?] w]. cbv zeta.
  unfold stop_camera, release, serial_close.
  destruct cap, sp; cbn;
    destruct (release_ok env), (serial_close_ok env); cbn;
    repeat split; emits_steps.
Qed.

Lemma update_frame_keeps_seen (s : state) :
  let s' := final (update_frame env s) in
  barcode_set (fst s) ⊆ barcode_set (fst s')
  /\ emits (not_persisting (barcode_set (fst s))) (snd s) (snd s').
Proof.
  destruct s as [a w]. cbv zeta. unfold update_frame.
  destruct (capture a) as [c|] eqn:Hc; [|split; [done|apply emits_refl]].
  destruct (read w) as [r w1] eqn:Hr.
  assert (emits (not_persisting (barcode_set a)) w w1) as Hw1.
  { unfold read in Hr. destruct (feed w); injection Hr as <- <-; emits_steps;
      by intros ? [=]. }
  assert (forall s0 : state,
            let s' := final (stop_camera env s0 >>> fun '(a, w) =>
                             Returned (a, show_error MsgDisconnected w)) in
            barcode_set (fst s0) ⊆ barcode_set (fst s')
            /\ emits (not_persisting (barcode_set (fst s0))) (snd s0) (snd s')) as Hstop.
  { intros s0. cbv zeta. destruct (stop_camera_set s0) as (Hb & _ & He).
    destruct (stop_camera_returns s0) as [[a3 w3] E]. rewrite E in *.
    cbn [bind final fst snd] in *. split; [by rewrite Hb|].
    unfold show_error. apply emits_emit; [by intros ? [=]|].
    eapply emits_weaken; [|exact He]. by intros e H id ->. }
  destruct r as [| |frame].
  - destruct (Hstop (a, w1)) as [H1 H2]. cbn [fst snd] in *.
    split; [exact H1|]. eapply emits_trans; [exact Hw1|exact H2].
  - destruct (Hstop (a, w1)) as [H1 H2]. cbn [fst snd] in *.
    split; [exact H1|]. eapply emits_trans; [exact Hw1|exact H2].
  - pose proof (process_symbols_invariant frame (default [] (pyzbar_decode env frame))
                  (a, emit (EvDecode frame) w1)) as (_ & _ & _ & Hb & _ & He).
    cbn [fst snd] in *. split; [exact Hb|].
    eapply emits_trans; [exact Hw1|].
    eapply emits_trans; [|exact He]. apply emits_emit; [by intros ? [=]|apply emits_refl].
Qed.

End FrameCycle.

Lemma ticks_keep_seen (envs : list Env) (s : state) :
  barcode_set (fst s) ⊆ barcode_set (fst (ticks envs s))
  /\ emits (not_persisting (barcode_set (fst s))) (snd s) (snd (ticks envs s)).
Proof.
  revert s. induction envs as [|env envs IH]; intros s.
  { split; [done|apply emits_refl]. }
  cbn [ticks foldl]. fold (ticks envs (final (update_frame env s))).
  destruct (update_frame_keeps_seen env s) as [Hb He].
  destruct (IH (final (update_frame env s))) as [Hb' He'].
  split; [set_solver|].
  eapply emits_trans; [exact He|].
  eapply emits_weaken; [|exact He']. intros e. by apply not_persisting_mono.
Qed.

(** C8. At most once, also on failure: when the image or the log record of
    a new Identifier cannot be written, the step returns (the loop over the
    symbols and the timer go on, the capture stays held), the Identifier is
    in the scanned set, an image that was written stays on the disk, and a
    failed log append leaves the files as they were. A tick whose frame is
    read returns whatever [cv2.imwrite] and the log do. In every later
    sequence of ticks an Identifier of the scanned set stays in it and
    [capture_image] is never entered for it again. *)
Theorem failed_persist_is_kept_and_not_retried :
  (forall env frame b text a w,
     let id := extract_sku (PyStr.strip text) in
     let a1 := fst (use_default_folder (a, w)) in
     let o := process_symbol env frame b (a, w) in
     Utf8.decode (data b) = Some text ->
     id ∉ barcode_set a ->
     makedirs_ok env (order_folder a1) = true ->
     cv2_imwrite env (image_path a1 id (strftime env)) frame <> ImWritten
     \/ open_append_ok env (log_path a1) = false ->
     returns o = true
     /\ timer_active (fst (final o)) = timer_active a
     /\ capture (fst (final o)) = capture a
     /\ id ∈ barcode_set (fst (final o))
     /\ (cv2_imwrite env (image_path a1 id (strftime env)) frame = ImWritten ->
         images (snd (final o)) !! image_path a1 id (strftime env) = Some frame)
     /\ (cv2_imwrite env (image_path a1 id (strftime env)) frame <> ImWritten ->
         images (snd (final o)) = images w)
     /\ (open_append_ok env (log_path a1) = false ->
         files (snd (final o)) = files w))
  /\ (forall env a w c frame rest,
        let o := update_frame env (a, w) in
        (forall p, makedirs_ok env p = true) ->
        capture a = Some c -> feed w = RdFrame frame :: rest ->
        returns o = true
        /\ timer_active (fst (final o)) = timer_active a
        /\ capture (fst (final o)) = Some c)
  /\ (forall envs s id,
        id ∈ barcode_set (fst s) ->
        id ∈ barcode_set (fst (ticks envs s))
        /\ emits (fun e => e <> EvPersist id) (snd s) (snd (ticks envs s))).
Proof.
  split; [|split].
  - intros env frame b text a w id a1 o D Hnew Hmk Hfail.
    pose proof (process_symbol_invariant env frame b a w) as Hinv.
    cbv zeta in Hinv. fold o in Hinv. destruct Hinv as (Hc & Ht & _ & _ & _ & _).
    subst o. rewrite (process_symbol_new_ok env frame b text a w D Hnew Hmk) in Hc, Ht |- *.
    fold id a1 in Hc, Ht |- *. cbn [final returns] in Hc, Ht |- *.
    split; [done|]. split; [done|]. split; [done|].
    split; [rewrite forward_serial_app; cbn; set_solver|].
    set (w0 := snd (use_default_folder (a, emit (EvPersist id) w))).
    destruct (persisted_disk env frame id a1 w0 (PyStr.strip text)
                (set_last_barcode (Some (PyStr.strip text))
                   (set_barcode_set ({[id]} ∪ barcode_set a) a1)))
      as [Hi Hf].
    rewrite Hi, Hf.
    assert (files w0 = files w /\ images w0 = images w) as [-> ->].
    { subst w0. by destruct (default_folder_disk a (emit (EvPersist id) w))
        as (-> & -> & _). }
    split; [|split].
    + intros ->. by rewrite lookup_insert_eq.
    + intros Hne. by destruct (cv2_imwrite env _ _).
    + by intros ->.
  - intros env a w c frame rest o Hmk Hc Hf. subst o.
    rewrite (update_frame_reads env a w c frame rest Hc Hf).
    split; [by apply process_symbols_returns|].
    destruct (process_symbols_invariant env frame (default [] (pyzbar_decode env frame))
                (a, emit (EvDecode frame)
                      (emit (EvRead (RdFrame frame)) (with_feed rest w))))
      as (Hc' & Ht' & _).
    cbn [fst snd] in *. split; [done|congruence].
  - intros envs s id Hin. destruct (ticks_keep_seen envs s) as [Hb He].
    split; [set_solver|].
    eapply emits_weaken; [|exact He]. intros e H ->. by apply (H id).
Qed.

Lemma failed_persist_is_kept_and_not_retried_witness :
  let env := Scenario.env_log_fails in
  let s := Scenario.started [RdFrame 1] in
  let b := Scenario.symbol_of "A" in
  let text := py "A" in
  let id := extract_sku (PyStr.strip text) in
  let a1 := fst (use_default_folder s) in
  let o := process_symbol env 1 b s in
  (Utf8.decode (data b) = Some text
   /\ (id ∉ barcode_set (fst s))
   /\ makedirs_ok env (order_folder a1) = true
   /\ open_append_ok env (log_path a1) = false)
  /\ returns o = true
  /\ id ∈ barcode_set (fst (final o))
  /\ files (snd (final o)) = files (snd s).
Proof.
  intros env s b text id a1 o.
  assert (id ∉ barcode_set (fst s)) as Hnew.
  { intros H. vm_compute in H. discriminate. }
  assert (Utf8.decode (data b) = Some text) as D by (vm_compute; reflexivity).
  assert (makedirs_ok env (order_folder a1) = true) as Hmk by reflexivity.
  assert (open_append_ok env (log_path a1) = false) as Hlog by reflexivity.
  split; [repeat split; done|].
  destruct failed_persist_is_kept_and_not_retried as (Hstep & _).
  destruct (Hstep env 1 b text (fst s) (snd s) D Hnew Hmk (or_intror Hlog))
    as (Hr & _ & _ & Hin & _ & _ & Hf).
  split; [exact Hr|]. split; [exact Hin|exact (Hf Hlog)].
Defined.

(** ** Persisting on demand and without a folder *)

Section Persist.

Context (env : Env).

(** What one call of [capture_image] does when its folder can be made. *)
Lemma capture_image_done (frame : Frame) (sku : str) (a : App) (w : World) :
  let a1 := fst (use_default_folder (a, w)) in
  let o := capture_image env frame sku (a, w) in
  makedirs_ok env (order_folder a1) = true ->
  returns o = true
  /\ fst (final o) = a1
  /\ images (snd (final o))
     = match cv2_imwrite env (image_path a1 sku (strftime env)) frame with
       | ImWritten => <[image_path a1 sku (strftime env) := frame]> (images w)
       | _ => images w
       end
  /\ files (snd (final o))
     = (if open_append_ok env (log_path a1)
        then <[log_path a1 := default [] (files w !! log_path a1)
                              ++ log_text (files w !! log_path a1) (strftime env) sku]>
               (files w)
        else files w)
  /\ feed (snd (final o)) = feed w.
Proof.
  intros a1 o Hmk. subst o. rewrite capture_image_unfold. cbv zeta.
  fold a1. rewrite Hmk. cbn [negb returns final fst snd].
  set (w0 := snd (use_default_folder (a, emit (EvPersist sku) w))).
  assert (files w0 = files w /\ images w0 = images w /\ feed w0 = feed w)
    as (Hf0 & Hi0 & Hd0).
  { subst w0. by destruct (default_folder_disk a (emit (EvPersist sku) w))
      as (-> & -> & -> & _). }
  split; [done|]. split; [done|].
  destruct (append_log_images env sku a1
              (beep_saved a1 (write_image env frame sku a1 (make_order_folder a1 w0))))
    as (-> & -> & _).
  rewrite append_log_files.
  destruct (beep_saved_disk a1 (write_image env frame sku a1 (make_order_folder a1 w0)))
    as (-> & -> & -> & _).
  rewrite write_image_images.
  destruct (write_image_files env frame sku a1 (make_order_folder a1 w0))
    as (-> & -> & _).
  cbn [make_order_folder files images feed emit with_dirs].
  by rewrite Hf0, Hi0, Hd0.
Qed.

(** Every call of [capture_image] enters the persist of its identifier and
    leaves the scanned set alone. *)
Lemma capture_image_entry (frame : Frame) (sku : str) (a : App) (w : World) :
  let o := capture_image env frame sku (a, w) in
  barcode_set (fst (final o)) = barcode_set a
  /\ EvPersist sku ∈ trace (snd (final o))
  /\ emits (fun e => e = EvPersist sku \/ e = EvInfo (MsgNoFolder (cwd w))
                    \/ store_event e) w (snd (final o)).
Proof.
  cbv zeta. rewrite capture_image_unfold. cbv zeta.
  destruct (default_folder_fields a w) as (_ & _ & _ & Hb & _).
  set (w0 := snd (use_default_folder (a, emit (EvPersist sku) w))).
  assert (emits (fun e => e = EvPersist sku \/ e = EvInfo (MsgNoFolder (cwd w))
                         \/ store_event e) w w0) as H0.
  { subst w0. rewrite default_folder_world.
    destruct (save_location a).
    - apply emits_emit; [auto|]. apply emits_emit; [auto|apply emits_refl].
    - apply emits_emit; [auto|apply emits_refl]. }
  assert (EvPersist sku ∈ trace w0) as Hin by apply persist_entry_recorded.
  destruct (makedirs_ok env _); cbn [negb final fst snd].
  - split; [done|]. split.
    + eapply emits_elem; [apply persist_steps_emit|done].
    + eapply emits_trans; [exact H0|].
      eapply emits_weaken; [|apply persist_steps_emit]. intros e He. auto.
  - split; [done|]. split.
    + cbn [trace emit]. apply elem_of_app. by left.
    + apply emits_emit; [by right; right|exact H0].
Qed.

End Persist.

Lemma capture_snapshot_reads (env : Env) (a : App) (w : World) (c : nat)
    (frame : Frame) (rest : list read_result) :
  capture a = Some c -> feed w = RdFrame frame :: rest ->
  capture_snapshot env (a, w)
  = capture_image env frame (py "manual")
      (a, emit (EvRead (RdFrame frame)) (with_feed rest w)).
Proof. intros Hc Hf. unfold capture_snapshot, read. by rewrite Hc, Hf. Qed.

(** C7, as the code has it. Without a capture (the session is not running)
    [capture_snapshot] does nothing at all: no frame is read, nothing is
    written, no error is shown and none is raised. With a capture it reads
    one frame and enters [capture_image] for it under the identifier
    "manual", whatever the scanned set holds, and leaves the set as it was;
    when the folder, the image and the log can be written the image and
    the log record are on the disk afterwards. When the read gives no
    frame an error is shown and nothing is stored. *)
Theorem snapshot_needs_a_capture_and_skips_dedup :
  (forall env a w,
     capture a = None -> capture_snapshot env (a, w) = Returned (a, w))
  /\ (forall env a w c frame rest,
        let o := capture_snapshot env (a, w) in
        let a1 := fst (use_default_folder (a, w)) in
        capture a = Some c -> feed w = RdFrame frame :: rest ->
        o = capture_image env frame (py "manual")
              (a, emit (EvRead (RdFrame frame)) (with_feed rest w))
        /\ barcode_set (fst (final o)) = barcode_set a
        /\ EvPersist (py "manual") ∈ trace (snd (final o))
        /\ feed (snd (final o)) = rest
        /\ (makedirs_ok env (order_folder a1) = true ->
            cv2_imwrite env (image_path a1 (py "manual") (strftime env)) frame
            = ImWritten ->
            open_append_ok env (log_path a1) = true ->
            returns o = true
            /\ images (snd (final o)) !! image_path a1 (py "manual") (strftime env)
               = Some frame
            /\ files (snd (final o)) !! log_path a1
               = Some (default [] (files w !! log_path a1)
                       ++ log_text (files w !! log_path a1) (strftime env)
                            (py "manual"))))
  /\ (forall env a w c r rest,
        capture a = Some c -> feed w = r :: rest ->
        (forall frame, r <> RdFrame frame) ->
        capture_snapshot env (a, w)
        = Returned (a, emit (EvError MsgSnapshotFailed)
                         (emit (EvRead r) (with_feed rest w))))
  /\ (forall env a w c,
        capture a = Some c -> feed w = [] ->
        capture_snapshot env (a, w)
        = Returned (a, emit (EvError MsgSnapshotFailed)
                         (emit (EvRead RdNothing) w))).
Proof.
  split; [|split; [|split]].
  - intros env a w Hc. unfold capture_snapshot. by rewrite Hc.
  - intros env a w c frame rest o a1 Hc Hf. subst o.
    rewrite (capture_snapshot_reads env a w c frame rest Hc Hf).
    set (w1 := emit (EvRead (RdFrame frame)) (with_feed rest w)).
    assert (fst (use_default_folder (a, w1)) = a1) as Ha1.
    { subst a1. rewrite !default_folder_app. by destruct (save_location a). }
    split; [done|].
    destruct (capture_image_entry env frame (py "manual") a w1) as (Hb & Hin & _).
    split; [done|]. split; [done|].
    destruct (makedirs_ok env (order_folder a1)) eqn:Hmk.
    + destruct (capture_image_done env frame (py "manual") a w1)
        as (Hr & _ & Hi & Hfi & Hfd); [by rewrite Ha1|].
      rewrite Ha1 in Hi, Hfi. split; [by rewrite Hfd|].
      intros _ Him Hlog. rewrite Hi, Hfi, Him, Hlog.
      split; [done|]. split; by rewrite lookup_insert_eq.
    + split; [|done]. rewrite capture_image_unfold. cbv zeta.
      rewrite Ha1, Hmk. cbn [negb final snd]. cbn [feed emit].
      by destruct (default_folder_disk a (emit (EvPersist (py "manual")) w1))
        as (_ & _ & -> & _).
  - intros env a w c r rest Hc Hf Hr. unfold capture_snapshot, read.
    rewrite Hc, Hf. destruct r as [| |frame]; try done. by destruct (Hr frame).
  - intros env a w c Hc Hf. unfold capture_snapshot, read. by rewrite Hc, Hf.
Qed.

Lemma store_event_no_dialog (e : event) : store_event e -> no_dialog e.
Proof. by destruct e as [| | | | | | | | | | | |[]| | |]. Qed.

(** C9, as the code has it. When [capture_image] runs with no save folder
    selected it neither fails nor skips the write: it sets [save_location]
    to the working directory, tells the user so in a dialog, and stores
    the image and the log record under it; every later persist keeps that
    directory, whatever the working directory then is, and shows no
    dialog. *)
Theorem persist_without_folder_uses_working_directory :
  forall env frame sku a w,
    let o := capture_image env frame sku (a, w) in
    let a1 := set_save_location (cwd w) a in
    save_location a = [] -> cwd w <> [] ->
    fst (final o) = a1
    /\ EvInfo (MsgNoFolder (cwd w)) ∈ trace (snd (final o))
    /\ (makedirs_ok env (order_folder a1) = true ->
        returns o = true
        /\ images (snd (final o))
           = match cv2_imwrite env (image_path a1 sku (strftime env)) frame with
             | ImWritten => <[image_path a1 sku (strftime env) := frame]> (images w)
             | _ => images w
             end
        /\ files (snd (final o))
           = (if open_append_ok env (log_path a1)
              then <[log_path a1 := default [] (files w !! log_path a1)
                                    ++ log_text (files w !! log_path a1)
                                         (strftime env) sku]> (files w)
              else files w))
    /\ (forall env' frame' sku' w',
          let o' := capture_image env' frame' sku' (fst (final o), w') in
          fst (final o') = a1
          /\ emits no_dialog w' (snd (final o'))
          /\ (makedirs_ok env' (order_folder a1) = true ->
              returns o' = true
              /\ images (snd (final o'))
                 = match cv2_imwrite env' (image_path a1 sku' (strftime env')) frame' with
                   | ImWritten =>
                       <[image_path a1 sku' (strftime env') := frame']> (images w')
                   | _ => images w'
                   end
              /\ files (snd (final o'))
                 = (if open_append_ok env' (log_path a1)
                    then <[log_path a1 := default [] (files w' !! log_path a1)
                                          ++ log_text (files w' !! log_path a1)
                                               (strftime env') sku']> (files w')
                    else files w'))).
Proof.
  intros env frame sku a w o a1 Hloc Hcwd.
  assert (fst (use_default_folder (a, w)) = a1) as Ha1.
  { rewrite default_folder_app. by rewrite Hloc. }
  assert (fst (final o) = a1) as Hfst.
  { subst o. rewrite capture_image_unfold. cbv zeta. rewrite Ha1.
    by destruct (makedirs_ok env _). }
  split; [exact Hfst|]. split; [|split].
  - subst o. rewrite capture_image_unfold. cbv zeta. rewrite Ha1.
    assert (EvInfo (MsgNoFolder (cwd w))
              ∈ trace (snd (use_default_folder (a, emit (EvPersist sku) w)))) as Hin.
    { rewrite default_folder_world, Hloc. cbn. set_solver. }
    destruct (makedirs_ok env _); cbn [negb final snd].
    + eapply emits_elem; [apply persist_steps_emit|done].
    + cbn [trace emit]. apply elem_of_app. by left.
  - intros Hmk.
    destruct (capture_image_done env frame sku a w) as (Hr & _ & Hi & Hf & _);
      [by rewrite Ha1|].
    rewrite Ha1 in Hi, Hf. by fold o in Hr, Hi, Hf.
  - intros env' frame' sku' w' o'. subst o'. rewrite Hfst.
    set (o' := capture_image env' frame' sku' (a1, w')).
    assert (save_location a1 <> []) as Hne by done.
    assert (fst (use_default_folder (a1, w')) = a1) as Ha1'.
    { by rewrite default_folder_keeps. }
    split; [|split].
    + subst o'. rewrite capture_image_unfold. cbv zeta. rewrite Ha1'.
      by destruct (makedirs_ok env' _).
    + subst o'. rewrite capture_image_unfold. cbv zeta. rewrite Ha1'.
      rewrite default_folder_keeps by done. cbn [snd].
      destruct (makedirs_ok env' _); cbn [negb final snd].
      * eapply (emits_trans _ _ (emit (EvPersist sku') w'));
          [apply emits_emit; [done|apply emits_refl]|].
        eapply emits_weaken; [apply store_event_no_dialog|apply persist_steps_emit].
      * emits_steps.
    + intros Hmk.
      destruct (capture_image_done env' frame' sku' a1 w') as (Hr & _ & Hi & Hf & _);
        [by rewrite Ha1'|].
      rewrite Ha1' in Hi, Hf. by fold o' in Hr, Hi, Hf.
Qed.

Lemma snapshot_needs_a_capture_and_skips_dedup_witness :
  let env := Scenario.env in
  let idle := (Scenario.app "/data" "None" "42", Scenario.world [RdFrame 1]) in
  let s := Scenario.started [RdFrame 1] in
  let o := capture_snapshot env s in
  (capture (fst idle) = None /\ capture (fst s) = Some 0%nat
   /\ feed (snd s) = [RdFrame 1])
  /\ capture_snapshot env idle = Returned idle
  /\ barcode_set (fst (final o)) = barcode_set (fst s)
  /\ EvPersist (py "manual") ∈ trace (snd (final o)).
Proof.
  intros env idle s o.
  assert (capture (fst idle) = None) as Hidle by reflexivity.
  assert (capture (fst s) = Some 0%nat) as Hc by (vm_compute; reflexivity).
  assert (feed (snd s) = [RdFrame 1]) as Hf by (vm_compute; reflexivity).
  split; [done|].
  destruct snapshot_needs_a_capture_and_skips_dedup as (Hnone & Hsome & _).
  split; [exact (Hnone env (fst idle) (snd idle) Hidle)|].
  destruct (Hsome env (fst s) (snd s) 0%nat 1 [] Hc Hf) as (_ & Hb & Hin & _).
  split; [exact Hb|exact Hin].
Defined.

(** The sentence of the specification fails as it is worded: a snapshot asked of an
    idle application returns without any error, with the state as it
    was. *)
Lemma snapshot_when_idle_reports_nothing :
  let idle := (Scenario.app "/data" "None" "42", Scenario.world [RdFrame 1]) in
  is_running (fst idle) = false
  /\ capture_snapshot Scenario.env idle = Returned idle
  /\ trace (snd (final (capture_snapshot Scenario.env idle))) = [].
Proof. cbv zeta. repeat split. Qed.

Lemma persist_without_folder_uses_working_directory_witness :
  let env := Scenario.env in
  let a := Scenario.app "" "None" "42" in
  let w := Scenario.world [] in
  let o := capture_image env 1 (py "A") (a, w) in
  (save_location a = [] /\ cwd w <> [])
  /\ fst (final o) = set_save_location (cwd w) a
  /\ EvInfo (MsgNoFolder (cwd w)) ∈ trace (snd (final o)).
Proof.
  intros env a w o.
  assert (save_location a = []) as Hloc by reflexivity.
  assert (cwd w <> []) as Hcwd by discriminate.
  split; [done|].
  destruct (persist_without_folder_uses_working_directory env 1 (py "A") a w
              Hloc Hcwd) as (Hfst & Hin & _).
  split; [exact Hfst|exact Hin].
Defined.

(** The word "silently" of the specification fails: the
    second thing the call does is to show the dialog that names the
    folder. *)
Lemma default_folder_is_announced :
  let s := (Scenario.app "" "None" "42", Scenario.world []) in
  let o := capture_image Scenario.env 1 (py "A") s in
  save_location (fst s) = []
  /\ save_location (fst (final o)) = py "/home/operator"
  /\ trace (snd (final o)) !! 1%nat
     = Some (EvInfo (MsgNoFolder (py "/home/operator"))).
Proof. by_computation. Qed.

(** ** Starting and stopping a session *)

Section Devices.

Context (env : Env).

Lemma video_capture_emits (index : N) (backend : option N) (w : World) :
  emits device_event w (snd (video_capture env index backend w)).
Proof.
  unfold video_capture. destruct (cv2_VideoCapture env index backend);
    cbn [snd]; emits_steps.
Qed.

Lemma release_emits (c : nat) (w : World) :
  emits device_event w (release env c w).
Proof. unfold release. destruct (release_ok env); emits_steps. Qed.

Lemma or_else_emits (r : option nat * World)
    (k : World -> option nat * World) (w : World) :
  emits device_event w (snd r) ->
  (forall w', emits device_event w' (snd (k w'))) ->
  emits device_event w (snd (or_else r k)).
Proof.
  intros Hr Hk. destruct r as [[c|] w1]; [done|]. cbn [or_else snd] in *.
  eapply emits_trans; [exact Hr|apply Hk].
Qed.

Lemma open_camera_emits (idx : N) (w : World) :
  emits device_event w (snd (_open_camera_with_fallback env idx w)).
Proof.
  unfold _open_camera_with_fallback, try_open.
  apply or_else_emits.
  { destruct (_ =? 0); [apply emits_refl|apply video_capture_emits]. }
  intros w1. apply or_else_emits; [apply video_capture_emits|].
  intros w2. apply or_else_emits.
  { destruct (platform_system env); try apply emits_refl.
    destruct (truthy _) as [f|]; [|apply emits_refl].
    destruct (f =? _); [apply emits_refl|apply video_capture_emits]. }
  intros w3. destruct (platform_system env); try apply emits_refl.
  destruct (truthy _) as [f|]; [|apply emits_refl].
  destruct (f =? _); [apply emits_refl|apply video_capture_emits].
Qed.

Lemma detect_loop_emits (indices : list N) (w : World) :
  emits device_event w (snd (detect_loop env indices w)).
Proof.
  revert w. induction indices as [|i rest IH]; intros w; [apply emits_refl|].
  cbn [detect_loop].
  pose proof (video_capture_emits i (truthy (Some (_get_preferred_backend env))) w) as Hv.
  destruct (video_capture env i _ w) as [[c|] w1]; cbn [snd] in Hv.
  - specialize (IH (release env c w1)).
    destruct (detect_loop env rest (release env c w1)) as [found w2].
    cbn [snd] in *. eapply emits_trans; [exact Hv|].
    eapply emits_trans; [apply release_emits|exact IH].
  - eapply emits_trans; [exact Hv|apply IH].
Qed.

Lemma scan_loop_emits (indices : list N) (s : state) :
  emits device_event (snd s) (snd (snd (scan_loop env indices s))).
Proof.
  revert s. induction indices as [|i rest IH]; intros [a w]; [apply emits_refl|].
  cbn [scan_loop fst snd].
  pose proof (open_camera_emits i w) as Ho.
  destruct (_open_camera_with_fallback env i w) as [[c|] w1]; cbn [snd] in *.
  - exact Ho.
  - eapply emits_trans; [exact Ho|apply (IH (a, w1))].
Qed.

Lemma load_existing_emits (order : str) (s : state) :
  emits device_event (snd s) (snd (load_existing_barcodes env order s)).
Proof.
  destruct s as [a w]. unfold load_existing_barcodes.
  destruct (files w !! _); [|apply emits_refl].
  destruct (pd_read_csv env _ _) as [df|]; [|cbn; emits_steps].
  destruct (column _ df); cbn; emits_steps.
Qed.

End Devices.

Section Start.

Context (env : Env).

Lemma choose_index_emits (a : App) (w : World) :
  emits device_event w (snd (choose_index env a w)).
Proof.
  unfold choose_index. destruct (camera_combo_current a); [apply emits_refl|].
  pose proof (detect_loop_emits env (range 8) w) as H. unfold detect_cameras.
  by destruct (detect_loop env (range 8) w).
Qed.

Lemma open_chosen_emits (use_index : option N) (s : state) :
  emits device_event (snd s) (snd (snd (open_chosen env use_index s))).
Proof.
  destruct s as [a w]. unfold open_chosen, _scan_and_open_any_camera.
  destruct use_index as [i|]; [|apply scan_loop_emits]. cbn [fst snd].
  pose proof (open_camera_emits env i w) as Ho.
  destruct (_open_camera_with_fallback env i w) as [[c|] w1]; cbn [snd] in *.
  - exact Ho.
  - eapply emits_trans; [exact Ho|apply (scan_loop_emits env (range 8) (a, w1))].
Qed.

Lemma begin_session_emits (c : nat) (use_index : option N) (s : state) :
  emits device_event (snd s) (snd (begin_session env c use_index s)).
Proof.
  destruct s as [a w]. unfold begin_session. cbn [fst snd].
  set (a4 := set_camera_index use_index (set_capture (Some c) a)).
  destruct (save_location a4) eqn:E; [apply emits_refl|].
  pose proof (load_existing_emits env (order_number a4) (a4, w)) as H.
  by destruct (load_existing_barcodes env (order_number a4) (a4, w)).
Qed.

(** After the serial port, [start_camera] only looks for a camera, replays
    the log and, at most, reports that no camera opened. *)
Lemma start_camera_after_serial (s : state) (a1 : App) (w1 : World) :
  open_serial env s = Some (a1, w1) ->
  emits (fun e => device_event e \/ e = EvError MsgCameraOpenFailed) w1
    (snd (final (start_camera env s))).
Proof.
  intros Hs. unfold start_camera. rewrite Hs.
  pose proof (choose_index_emits a1 w1) as H2.
  destruct (choose_index env a1 w1) as [use_index w2]. cbn [snd] in H2.
  pose proof (open_chosen_emits use_index (a1, w2)) as H3.
  destruct (open_chosen env use_index (a1, w2)) as [cap s3]. cbn [snd] in H3.
  assert (emits (fun e => device_event e \/ e = EvError MsgCameraOpenFailed)
            w1 (snd s3)) as H13.
  { eapply emits_weaken; [|eapply emits_trans; [exact H2|exact H3]]. auto. }
  destruct cap as [c|]; cbn [final snd].
  - eapply emits_trans; [exact H13|].
    eapply emits_weaken; [|apply begin_session_emits]. auto.
  - unfold show_error. apply emits_emit; [auto|exact H13].
Qed.

End Start.

(** C3. [start_camera] opens the serial port before it looks for a camera:
    with a port selected, the first thing it does is the attempt to open
    that port, and it makes no other. When the port fails to open the call
    ends there: an error is shown, no camera was tried, the application
    object and the sets of open captures and open ports are as before. *)
Theorem serial_is_opened_before_any_camera :
  (forall env a w,
     let port := serial_port_combo a in
     let o := start_camera env (a, w) in
     port <> py "None" -> serial_Serial env port = false ->
     o = Returned (a, emit (EvError MsgSerialError)
                        (emit (EvSerialOpen port false) w))
     /\ fst (final o) = a
     /\ cams_open (snd (final o)) = cams_open w
     /\ serials_open (snd (final o)) = serials_open w
     /\ emits no_camera_open w (snd (final o)))
  /\ (forall env a w,
        let port := serial_port_combo a in
        let o := start_camera env (a, w) in
        port <> py "None" ->
        exists evs,
          trace (snd (final o))
          = trace w ++ EvSerialOpen port (serial_Serial env port) :: evs
          /\ Forall (fun e => forall p ok, e <> EvSerialOpen p ok) evs).
Proof.
  split.
  - intros env a w port o Hport Hfail.
    assert (o = Returned (a, emit (EvError MsgSerialError)
                               (emit (EvSerialOpen port false) w))) as Ho.
    { subst o. unfold start_camera, open_serial. fold port.
      by rewrite bool_decide_eq_false_2, Hfail by done. }
    rewrite Ho. cbn [final fst snd]. repeat split. emits_steps.
  - intros env a w port o Hport.
    destruct (serial_Serial env port) eqn:Hs.
    + assert (open_serial env (a, w)
              = Some (set_serial_port (Some port) a,
                      emit (EvSerialOpen port true)
                        (with_serials (port :: serials_open w) w))) as Hopen.
      { unfold open_serial. fold port. by rewrite bool_decide_eq_false_2, Hs by done. }
      destruct (start_camera_after_serial env _ _ _ Hopen) as (evs & Ht & Hevs).
      exists evs. split.
      * subst o. rewrite Ht. cbn [trace emit with_serials].
        by rewrite <- app_assoc.
      * eapply Forall_impl; [exact Hevs|]. intros e [He| ->] p ok; [|done].
        by intros ->.
    + exists [EvError MsgSerialError]. split; [|by repeat constructor].
      subst o. unfold start_camera, open_serial. fold port.
      rewrite bool_decide_eq_false_2, Hs by done.
      cbn. by rewrite <- app_assoc.
Qed.

Lemma serial_is_opened_before_any_camera_witness :
  let env := Scenario.env_no_serial in
  let a := Scenario.app "/data" "/dev/ttyUSB0" "42" in
  let w := Scenario.world [RdFrame 1] in
  let o := start_camera env (a, w) in
  (serial_port_combo a <> py "None"
   /\ serial_Serial env (serial_port_combo a) = false)
  /\ fst (final o) = a
  /\ cams_open (snd (final o)) = cams_open w
  /\ emits no_camera_open w (snd (final o)).
Proof.
  intros env a w o.
  assert (serial_port_combo a <> py "None") as Hport by (vm_compute; discriminate).
  assert (serial_Serial env (serial_port_combo a) = false) as Hfail by reflexivity.
  split; [done|].
  destruct serial_is_opened_before_any_camera as (Hfails & _).
  destruct (Hfails env a w Hport Hfail) as (_ & Ha & Hc & _ & He).
  split; [exact Ha|]. split; [exact Hc|exact He].
Defined.

Section Stop.

Context (env : Env).

Lemma stop_camera_explicit (a : App) (w : World) :
  stop_camera env (a, w)
  = Returned
      (set_serial_port None (set_capture None (set_timer false a)),
       let w1 := match capture a with Some c => release env c w | None => w end in
       match serial_port a with Some p => serial_close env p w1 | None => w1 end).
Proof.
  destruct a as [cap ? ? ? ? ? sp ? ? ? ? ? ?]. unfold stop_camera.
  by destruct cap, sp.
Qed.

Lemma release_world (c : nat) (w : World) :
  let w' := release env c w in
  trace w' = trace w ++ [EvRelease c]
  /\ serials_open w' = serials_open w
  /\ (release_ok env = true -> c ∉ cams_open w').
Proof.
  cbv zeta. unfold release. destruct (release_ok env); cbn; [|done].
  repeat split. intros _. set_solver.
Qed.

Lemma serial_close_world (p : str) (w : World) :
  let w' := serial_close env p w in
  trace w' = trace w ++ [EvSerialClose p]
  /\ cams_open w' = cams_open w
  /\ (serial_close_ok env = true -> p ∉ serials_open w').
Proof.
  cbv zeta. unfold serial_close. destruct (serial_close_ok env); cbn; [|done].
  repeat split. intros _. rewrite list_elem_of_filter. by intros [? _].
Qed.

End Stop.

(** C5, as the code has it. [stop_camera] called in any state returns
    without raising, stops the timer, releases the capture if one is held
    and closes the serial port if one is held, and forgets both handles;
    it leaves the scanned set and the last barcode as they were. A second
    call changes nothing. *)
Theorem stop_releases_and_keeps_the_set :
  forall env a w,
    let o := stop_camera env (a, w) in
    returns o = true
    /\ timer_active (fst (final o)) = false
    /\ capture (fst (final o)) = None
    /\ serial_port (fst (final o)) = None
    /\ trace (snd (final o))
       = trace w
         ++ match capture a with Some c => [EvRelease c] | None => [] end
         ++ match serial_port a with Some p => [EvSerialClose p] | None => [] end
    /\ (forall c, capture a = Some c -> release_ok env = true ->
                  c ∉ cams_open (snd (final o)))
    /\ (forall p, serial_port a = Some p -> serial_close_ok env = true ->
                  p ∉ serials_open (snd (final o)))
    /\ barcode_set (fst (final o)) = barcode_set a
    /\ last_barcode (fst (final o)) = last_barcode a
    /\ (forall env', stop_camera env' (final o) = Returned (final o)).
Proof.
  intros env a w o. subst o. rewrite stop_camera_explicit.
  cbn [returns final fst snd]. cbv zeta.
  split; [done|]. split; [done|]. split; [done|]. split; [done|].
  split; [|split; [|split; [|split; [done|split; [done|]]]]].
  - destruct (capture a) as [c|], (serial_port a) as [p|].
    + destruct (serial_close_world env p (release env c w)) as (-> & _).
      destruct (release_world env c w) as (-> & _). by rewrite <- app_assoc.
    + by destruct (release_world env c w) as (-> & _).
    + by destruct (serial_close_world env p w) as (-> & _).
    + by rewrite app_nil_r.
  - intros c -> Hok. destruct (release_world env c w) as (_ & _ & Hc).
    destruct (serial_port a) as [p|]; [|by apply Hc].
    destruct (serial_close_world env p (release env c w)) as (_ & -> & _).
    by apply Hc.
  - intros p -> Hok.
    by destruct (serial_close_world env p
                   (match capture a with Some c => release env c w | None => w end))
      as (_ & _ & Hp); apply Hp.
  - intros env'. rewrite stop_camera_explicit. cbn.
    by destruct a.
Qed.

Lemma stop_releases_and_keeps_the_set_witness :
  let env := Scenario.env in
  let s := final (update_frame env (Scenario.started [RdFrame 1])) in
  let o := stop_camera env s in
  (capture (fst s) = Some 0%nat /\ release_ok env = true)
  /\ returns o = true
  /\ (0%nat ∉ cams_open (snd (final o)))
  /\ barcode_set (fst (final o)) = barcode_set (fst s)
  /\ stop_camera env (final o) = Returned (final o).
Proof.
  intros env s o.
  assert (capture (fst s) = Some 0%nat) as Hc by (vm_compute; reflexivity).
  assert (release_ok env = true) as Hok by reflexivity.
  split; [done|].
  destruct (stop_releases_and_keeps_the_set env (fst s) (snd s))
    as (Hr & _ & _ & _ & _ & Hrel & _ & Hb & _ & Hagain).
  assert ((fst s, snd s) = s) as Hs by by destruct s.
  rewrite Hs in Hr, Hrel, Hb, Hagain.
  split; [exact Hr|]. split; [exact (Hrel 0%nat Hc Hok)|].
  split; [exact Hb|exact (Hagain env)].
Defined.

(** The sentence of the specification fails as it is worded: after a tick that
    recorded "A" and "B", [stop_camera] leaves both in the scanned set and
    leaves the last barcode. *)
Lemma stop_keeps_the_scanned_set :
  let s := final (update_frame Scenario.env (Scenario.started [RdFrame 1])) in
  let s' := final (stop_camera Scenario.env s) in
  barcode_set (fst s') = {[py "A"; py "B"]}
  /\ last_barcode (fst s') = Some (py "B")
  /\ capture (fst s') = None
  /\ barcode_set (fst s') <> ∅
  /\ last_barcode (fst s') <> None.
Proof.
  cbv zeta. repeat apply conj; try (vm_compute; exact eq_refl).
  - intros H. vm_compute in H. discriminate.
  - intros H. vm_compute in H. discriminate.
Qed.

(** The scanned set and the last barcode are cleared by [clear_session]. *)
Lemma clear_session_clears (a : App) (w : World) :
  let o := clear_session (a, w) in
  returns o = true
  /\ barcode_set (fst (final o)) = ∅ /\ last_barcode (fst (final o)) = None.
Proof. done. Qed.

(** The older [stop_camera] does clear them, when [release()] and
    [close()] do not raise; it keeps the handles in their attributes. *)
Lemma legacy_stop_clears (env : Env) (a : App) (w : World) :
  let o := Legacy.stop_camera env (a, w) in
  release_ok env = true -> serial_close_ok env = true ->
  returns o = true
  /\ barcode_set (fst (final o)) = ∅ /\ last_barcode (fst (final o)) = None
  /\ capture (fst (final o)) = capture a
  /\ serial_port (fst (final o)) = serial_port a.
Proof.
  intros o Hr Hc. subst o. unfold Legacy.stop_camera. rewrite Hr, Hc.
  destruct a as [cap ? ? ? ? ? sp ? ? ? ? ? ?]. by destruct cap, sp.
Qed.

(** And it lets the exception of a failing [release()] escape, with the
    set not cleared. *)
Lemma legacy_stop_raises (env : Env) (a : App) (w : World) (c : nat) :
  let o := Legacy.stop_camera env (a, w) in
  capture a = Some c -> release_ok env = false ->
  returns o = false /\ barcode_set (fst (final o)) = barcode_set a.
Proof.
  intros o Hc Hr. subst o. unfold Legacy.stop_camera.
  cbn [capture set_timer]. by rewrite Hc, Hr.
Qed.

(** ** Replay of the order log *)

Section Replay.

Context (env : Env).

(** The path [load_existing_barcodes] reads is the one [capture_image]
    appends to. *)
Lemma replay_path (a : App) :
  path_join (path_join (save_location a) (order_number a)) log_name = log_path a.
Proof. done. Qed.

Lemma load_existing_unreadable (order : str) (a : App) (w : World) (content : str) :
  let path := path_join (path_join (save_location a) order) log_name in
  let s' := load_existing_barcodes env order (a, w) in
  files w !! path = Some content ->
  pd_read_csv env path content = None
  \/ (exists df, pd_read_csv env path content = Some df
                 /\ column (py "SKU") df = None) ->
  s' = (set_barcode_set ∅ a, emit (EvReadCsv path) w).
Proof.
  intros path s' Hf Hbad. subst s'. unfold load_existing_barcodes.
  fold path. rewrite Hf. destruct Hbad as [->|(df & -> & ->)]; done.
Qed.

Lemma load_existing_absent (order : str) (a : App) (w : World) :
  files w !! path_join (path_join (save_location a) order) log_name = None ->
  load_existing_barcodes env order (a, w) = (set_barcode_set ∅ a, w).
Proof. intros Hf. unfold load_existing_barcodes. by rewrite Hf. Qed.

(** A new identifier enters [capture_image] and the scanned set. *)
Lemma process_symbol_new_enters (frame : Frame) (b : Symbol) (text : str)
    (a : App) (w : World) :
  let id := extract_sku (PyStr.strip text) in
  let o := process_symbol env frame b (a, w) in
  Utf8.decode (data b) = Some text ->
  id ∉ barcode_set a ->
  id ∈ barcode_set (fst (final o)) /\ EvPersist id ∈ trace (snd (final o)).
Proof.
  intros id o D Hnew. subst o.
  set (a1 := fst (use_default_folder (a, w))).
  destruct (makedirs_ok env (order_folder a1)) eqn:Hmk.
  - rewrite (process_symbol_new_ok env frame b text a w D Hnew Hmk).
    fold id a1. cbn [final]. rewrite forward_serial_app. cbn [fst].
    split; [cbn; set_solver|].
    eapply emits_elem; [apply forward_serial_emits|]. cbn [snd].
    eapply emits_elem; [apply persist_steps_emit|].
    apply persist_entry_recorded.
  - rewrite (process_symbol_new_raises env frame b text a w D Hnew Hmk).
    fold id a1. cbn [final fst snd]. split; [cbn; set_solver|].
    cbn [trace emit]. apply elem_of_app. left. apply persist_entry_recorded.
Qed.

Lemma begin_session_with_folder (c : nat) (use_index : option N)
    (a : App) (w : World) :
  save_location a <> [] ->
  begin_session env c use_index (a, w)
  = let a4 := set_camera_index use_index (set_capture (Some c) a) in
    let s5 := load_existing_barcodes env (order_number a4) (a4, w) in
    (set_timer true (fst s5), snd s5).
Proof.
  intros Hloc. unfold begin_session. cbn [fst snd].
  change (save_location (set_camera_index use_index (set_capture (Some c) a)))
    with (save_location a).
  destruct (save_location a); [done|]. cbv zeta.
  by destruct (load_existing_barcodes _ _ _).
Qed.

End Replay.

(** C10. At the start of a session, when the log of the order exists but
    the reader raises on it, [load_existing_barcodes] swallows the error
    and leaves the scanned set empty, whatever it held before: the set is
    cleared before the file is read. [start_camera] then goes on (timer
    started, capture held, log untouched), and since every Identifier is
    new to an empty set, one that the log already holds is persisted
    again: with the log holding "A", a tick that decodes "A" and "B"
    appends both. *)
Theorem unreadable_log_starts_an_empty_set :
  (forall env order a w content,
     let path := path_join (path_join (save_location a) order) log_name in
     let s' := load_existing_barcodes env order (a, w) in
     files w !! path = Some content ->
     pd_read_csv env path content = None ->
     barcode_set (fst s') = ∅
     /\ s' = (set_barcode_set ∅ a, emit (EvReadCsv path) w))
  /\ (forall env c use_index a w content,
        let s' := begin_session env c use_index (a, w) in
        save_location a <> [] ->
        files w !! log_path a = Some content ->
        pd_read_csv env (log_path a) content = None ->
        barcode_set (fst s') = ∅
        /\ timer_active (fst s') = true
        /\ capture (fst s') = Some c
        /\ files (snd s') = files w)
  /\ (forall env frame b text s,
        let id := extract_sku (PyStr.strip text) in
        let o := process_symbol env frame b s in
        barcode_set (fst s) = ∅ ->
        Utf8.decode (data b) = Some text ->
        id ∈ barcode_set (fst (final o)) /\ EvPersist id ∈ trace (snd (final o)))
  /\ (let env := Scenario.env_unreadable in
      let s0 := (Scenario.app "/data" "None" "42",
                 Scenario.world_with_log [RdFrame 1]) in
      let s1 := final (start_camera env s0) in
      let s2 := final (update_frame env s1) in
      files (snd s0)
      = {[py "/data/42/barcode_log.csv"
          := Scenario.line "Timestamp,SKU" ++ Scenario.line "20241231-235959,A"]}
      /\ barcode_set (fst s1) = ∅
      /\ timer_active (fst s1) = true
      /\ files (snd s2)
         = {[py "/data/42/barcode_log.csv"
             := Scenario.line "Timestamp,SKU" ++ Scenario.line "20241231-235959,A"
                ++ Scenario.line "20250101-120000,A"
                ++ Scenario.line "20250101-120000,B"]}).
Proof.
  split; [|split; [|split]].
  - intros env order a w content path s' Hf Hbad. subst s'.
    by rewrite (load_existing_unreadable env order a w content Hf (or_introl Hbad)).
  - intros env c use_index a w content s' Hloc Hf Hbad. subst s'.
    rewrite begin_session_with_folder by done. cbv zeta.
    rewrite (load_existing_unreadable env _ _ w content); [done|exact Hf|by left].
  - intros env frame b text [a w] id o Hempty D. cbn [fst] in Hempty.
    apply process_symbol_new_enters; [done|]. rewrite Hempty. set_solver.
  - by_computation.
Qed.

Lemma unreadable_log_starts_an_empty_set_witness :
  let env := Scenario.env_unreadable in
  let a := Scenario.app "/data" "None" "42" in
  let w := Scenario.world_with_log [RdFrame 1] in
  let content := Scenario.line "Timestamp,SKU" ++ Scenario.line "20241231-235959,A" in
  let path := path_join (path_join (save_location a) (py "42")) log_name in
  let s' := load_existing_barcodes env (py "42") (a, w) in
  (files w !! path = Some content /\ pd_read_csv env path content = None)
  /\ barcode_set (fst s') = ∅.
Proof.
  intros env a w content path s'.
  assert (files w !! path = Some content) as Hf by (vm_compute; reflexivity).
  assert (pd_read_csv env path content = None) as Hbad by reflexivity.
  split; [done|].
  destruct unreadable_log_starts_an_empty_set as (Hload & _).
  destruct (Hload env (py "42") a w content Hf Hbad) as (Hempty & _).
  exact Hempty.
Defined.

(** ** The order log: appends and replay *)

Section Log.

Context (env : Env).

Lemma append_logs_existing (a : App) (skus : list str) (w : World) (content : str) :
  open_append_ok env (log_path a) = true ->
  files w !! log_path a = Some content ->
  files (append_logs env a skus w) !! log_path a
  = Some (content ++ List.concat (record_line (strftime env) <$> skus)).
Proof.
  intros Hok. revert w content. induction skus as [|sku skus IH]; intros w content Hf.
  { cbn. by rewrite app_nil_r. }
  cbn [append_logs foldl]. fold (append_logs env a skus (append_log env sku a w)).
  rewrite (IH _ (content ++ record_line (strftime env) sku)).
  - cbn [fmap list_fmap List.concat]. apply (f_equal Some). symmetry.
    apply app_assoc.
  - rewrite append_log_files, Hok, lookup_insert_eq. unfold str in *.
    by rewrite !Hf.
Qed.

(** After [N] appends to a log that did not exist, the file holds the
    header and then the [N] records, one line each, in the order of the
    appends. *)
Lemma append_logs_fresh (a : App) (sku : str) (skus : list str) (w : World) :
  open_append_ok env (log_path a) = true ->
  files w !! log_path a = None ->
  files (append_logs env a (sku :: skus) w) !! log_path a
  = Some (header_line ++ List.concat (record_line (strftime env) <$> sku :: skus)).
Proof.
  intros Hok Hf. cbn [append_logs foldl].
  fold (append_logs env a skus (append_log env sku a w)).
  rewrite (append_logs_existing a skus _ (header_line ++ record_line (strftime env) sku) Hok).
  - cbn [fmap list_fmap List.concat]. apply (f_equal Some). symmetry.
    apply app_assoc.
  - rewrite append_log_files, Hok, lookup_insert_eq. unfold str in *.
    by rewrite !Hf.
Qed.

(** What the replay puts in the scanned set: the cells of the SKU column
    as [astype(str)] renders them. *)
Lemma load_existing_reads (order : str) (a : App) (w : World) (content : str)
    (df : DataFrame) (col : list cell) :
  let path := path_join (path_join (save_location a) order) log_name in
  files w !! path = Some content ->
  pd_read_csv env path content = Some df ->
  column (py "SKU") df = Some col ->
  barcode_set (fst (load_existing_barcodes env order (a, w)))
  = list_to_set (astype_str <$> col).
Proof.
  intros path Hf Hdf Hcol. unfold load_existing_barcodes. fold path.
  rewrite Hf, Hdf, Hcol. cbn. set_solver.
Qed.

End Log.

Section SpecReplayFacts.

Import PyStr SpecReplay.

Lemma split_sep_go_line (sep : N) (acc l rest : str) :
  sep ∉ l ->
  split_sep_go sep acc (l ++ sep :: rest)
  = (rev acc ++ l) :: split_sep_go sep [] rest.
Proof.
  revert acc. induction l as [|c l IH]; intros acc Hl.
  - cbn [app split_sep_go]. rewrite N.eqb_refl. by rewrite app_nil_r.
  - cbn [app split_sep_go].
    destruct (N.eqb_spec c sep) as [->|Hne]; [set_solver|].
    rewrite IH by set_solver. cbn [rev]. by rewrite <- app_assoc.
Qed.

Lemma split_sep_lines (ls : list str) :
  Forall (fun l => newline ∉ l) ls ->
  split_sep newline (List.concat ((fun l => l ++ [newline]) <$> ls)) = ls ++ [[]].
Proof.
  unfold split_sep. induction 1 as [|l ls Hl _ IH]; [done|].
  cbn [fmap list_fmap List.concat]. rewrite <- app_assoc. cbn [app].
  rewrite split_sep_go_line by done. cbn [rev app]. by rewrite IH.
Qed.

Lemma parse_record (timestamp sku : str) :
  comma ∉ timestamp ->
  parse_line (timestamp ++ comma :: sku) = (timestamp, sku).
Proof.
  intros Ht. unfold parse_line.
  induction timestamp as [|c t IH]; cbn [app SpecRule.before_first after_first].
  - by rewrite N.eqb_refl.
  - rewrite (N.eqb_sym comma c).
    destruct (N.eqb_spec c comma) as [->|Hne]; [set_solver|].
    injection (IH ltac:(set_solver)) as -> ->. done.
Qed.

Lemma filter_records (f : str -> str) (l : list str) :
  (forall x, f x <> []) -> filter (fun l : str => l <> []) (f <$> l) = f <$> l.
Proof.
  intros Hf. induction l as [|x l IH]; [done|].
  cbn [fmap list_fmap]. rewrite filter_cons_True by apply Hf.
  f_equal. exact IH.
Qed.

(** The file that [N] appends leave is read back by the replay of the
    specification as the [N] records, in the order of the appends. *)
Lemma spec_replay_of_appends (timestamp : str) (skus : list str) :
  comma ∉ timestamp -> newline ∉ timestamp ->
  Forall (fun sku => newline ∉ sku) skus ->
  replay (header_line ++ List.concat (record_line timestamp <$> skus))
  = (fun sku => (timestamp, sku)) <$> skus.
Proof.
  intros Hc Hn Hs. unfold replay.
  assert (header_line ++ List.concat (record_line timestamp <$> skus)
          = List.concat ((fun l => l ++ [newline])
                           <$> py "Timestamp,SKU"
                               :: ((fun sku => timestamp ++ comma :: sku) <$> skus)))
    as ->.
  { cbn [fmap list_fmap List.concat]. unfold header_line. f_equal.
    rewrite <- list_fmap_compose. f_equal. apply list_fmap_ext.
    intros i sku _. unfold record_line. cbn. by rewrite <- app_assoc. }
  rewrite split_sep_lines.
  2:{ constructor; [vm_compute; set_solver|].
      apply Forall_fmap. eapply Forall_impl; [exact Hs|].
      intros sku Hsku. cbn. rewrite elem_of_app, elem_of_cons.
      intros [?|[?|?]]; [done|discriminate|done]. }
  rewrite filter_app, filter_cons_True by done.
  rewrite (filter_cons_False _ [] []) by (intros H; by apply H).
  rewrite filter_nil, app_nil_r. cbn [tail].
  rewrite filter_records by (intros sku; by destruct timestamp).
  rewrite <- list_fmap_compose.
  apply list_fmap_ext. intros i sku _. cbn. by apply parse_record.
Qed.

(** The Identifier [update_frame] computes holds no newline, so its record
    is one line. *)
Lemma identifier_no_newline (text : str) :
  newline ∉ extract_sku (strip text).
Proof.
  rewrite extract_sku_of_stripped. unfold SpecRule.normalize.
  destruct (strip text) as [|c t] eqn:E; cbn [default]; [by intros ?%elem_of_nil|].
  intros H%before_first_elem%before_first_stops. done.
Qed.

End SpecReplayFacts.

(** C4, where the code departs from it. The appends are as the specification says
    ([append_log_files], [append_logs_fresh]) and the file they leave is
    read back record by record by the replay the specification describes
    ([spec_replay_of_appends]); the replay of the code is not their
    inverse. A session records the identifier "007": the log holds the
    header and the line "20250101-120000,007". The next session reads the
    log with [pandas.read_csv], which makes the SKU column an integer
    column, and [astype(str)] renders the cell as "7": the scanned set is
    {"7"}, "007" is new again, and the next tick appends a second record
    for it. *)
Theorem replay_rewrites_numeric_identifiers :
  let env := Scenario.env in
  let log := py "/data/42/barcode_log.csv" in
  let s1 := final (update_frame env (Scenario.started [RdFrame 3; RdFrame 3])) in
  let s2 := final (stop_camera env s1) in
  let s3 := final (start_camera env s2) in
  let s4 := final (update_frame env s3) in
  barcode_set (fst s1) = {[py "007"]}
  /\ files (snd s1)
     = {[log := Scenario.line "Timestamp,SKU" ++ Scenario.line "20250101-120000,007"]}
  /\ pd_read_csv env log
       (Scenario.line "Timestamp,SKU" ++ Scenario.line "20250101-120000,007")
     = Some [(py "Timestamp", [CStr (py "20250101-120000")]);
             (py "SKU", [CInt 7])]
  /\ barcode_set (fst s3) = {[py "7"]}
  /\ files (snd s4)
     = {[log := Scenario.line "Timestamp,SKU"
                ++ Scenario.line "20250101-120000,007"
                ++ Scenario.line "20250101-120000,007"]}.
Proof. by_computation. Qed.
(** ** The Identifier of a scan *)

Section Recorded.

Import PyStr SpecRule.

(** The Identifier of a new scan is what the scanned set gains and what
    [capture_image] is entered for. *)
Lemma process_symbol_records (env : Env) (frame : Frame) (b : Symbol)
    (text : str) (a : App) (w : World) :
  let id := extract_sku (strip text) in
  let o := process_symbol env frame b (a, w) in
  Utf8.decode (data b) = Some text ->
  id ∉ barcode_set a ->
  barcode_set (fst (final o)) = {[id]} ∪ barcode_set a
  /\ EvPersist id ∈ trace (snd (final o)).
Proof.
  intros id o D Hnew. split; [|by apply process_symbol_new_enters].
  subst o. rewrite (process_symbol_new env frame b text a w D Hnew). fold id.
  set (a0 := set_barcode_set ({[id]} ∪ barcode_set a) a).
  destruct (capture_image_entry env frame id a0 w) as (Hset & _).
  destruct (capture_image env frame id (a0, w)) as [[a1 w1]|[a1 w1]];
    cbn [bind final fst snd] in *; [|done].
  by rewrite forward_serial_app.
Qed.

End Recorded.

(** C1, as the code has it. For every payload that decodes, the Identifier
    [update_frame] records (what the scanned set gains and what
    [capture_image] is entered for) is [extract_sku] of the trimmed text:
    the part before the first ['-'] of the first whitespace-delimited token
    of the trimmed text; "SKU-1234 extra" gives "SKU", "  plainsku  " gives
    "plainsku", and a payload without ['-'] and without whitespace is its
    own Identifier. When the trimmed text is empty there is no token and
    the Identifier is the empty trimmed text, not the payload as it came. A
    payload that does not decode has no Identifier: the symbol is skipped.
    [extract_sku] itself is the rule of the specification on every text,
    its argument returned unchanged when there is no token. *)
Theorem identifier_is_the_rule_on_the_trimmed_payload :
  (forall env frame b text a w,
     let id := extract_sku (PyStr.strip text) in
     let o := process_symbol env frame b (a, w) in
     Utf8.decode (data b) = Some text ->
     id ∉ barcode_set a ->
     barcode_set (fst (final o)) = {[id]} ∪ barcode_set a
     /\ EvPersist id ∈ trace (snd (final o)))
  /\ (forall text t,
        PyStr.strip text = t -> t <> [] ->
        extract_sku (PyStr.strip text)
        = SpecRule.before_first (N.eqb minus)
            (SpecRule.before_first PyStr.isspace t))
  /\ (forall text, PyStr.strip text = [] -> extract_sku (PyStr.strip text) = [])
  /\ (forall env frame b s,
        Utf8.decode (data b) = None -> process_symbol env frame b s = Returned s)
  /\ extract_sku (PyStr.strip (py "SKU-1234 extra")) = py "SKU"
  /\ extract_sku (PyStr.strip (py "  plainsku  ")) = py "plainsku"
  /\ (forall text,
        forallb (fun c => negb (PyStr.isspace c) && negb (c =? minus)) text = true ->
        extract_sku (PyStr.strip text) = text)
  /\ (forall v, extract_sku v = SpecRule.identifier v)
  /\ (forall v, SpecRule.normalize v = None -> extract_sku v = v).
Proof.
  split; [exact process_symbol_records|].
  split.
  { intros text t Ht Hne. rewrite extract_sku_of_stripped.
    unfold SpecRule.normalize. rewrite Ht. by destruct t. }
  split.
  { intros text Ht. rewrite extract_sku_of_stripped.
    unfold SpecRule.normalize. by rewrite Ht. }
  split; [exact process_symbol_undecodable|].
  split; [reflexivity|]. split; [reflexivity|].
  split.
  { intros text H.
    assert (forallb (fun c => negb (PyStr.isspace c)) text = true) as Hs.
    { apply forallb_forall. intros c Hc.
      by apply (proj1 (forallb_forall _ _) H) in Hc as [? _]%andb_prop. }
    unfold PyStr.strip.
    rewrite (lstrip_no_space text Hs), (rstrip_no_space text Hs).
    by apply extract_sku_plain. }
  split; [exact extract_sku_rule|].
  intros v H. rewrite extract_sku_rule. unfold SpecRule.identifier. by rewrite H.
Qed.

Lemma identifier_is_the_rule_on_the_trimmed_payload_witness :
  let env := Scenario.env in
  let s := Scenario.started [RdFrame 2] in
  let b := Scenario.symbol_of " SKU-1234 extra " in
  let text := py " SKU-1234 extra " in
  let o := process_symbol env 2 b (fst s, snd s) in
  (Utf8.decode (data b) = Some text
   /\ extract_sku (PyStr.strip text) ∉ barcode_set (fst s))
  /\ barcode_set (fst (final o))
     = {[extract_sku (PyStr.strip text)]} ∪ barcode_set (fst s)
  /\ extract_sku (PyStr.strip text)
     = SpecRule.before_first (N.eqb minus)
         (SpecRule.before_first PyStr.isspace (py "SKU-1234 extra"))
  /\ extract_sku (PyStr.strip (py "   ")) = [].
Proof.
  intros env s b text o.
  assert (extract_sku (PyStr.strip text) ∉ barcode_set (fst s)) as Hnew.
  { intros H. vm_compute in H. discriminate. }
  assert (Utf8.decode (data b) = Some text) as D by (vm_compute; reflexivity).
  split; [by split|].
  destruct identifier_is_the_rule_on_the_trimmed_payload
    as (Hrec & Hrule & Hblank & _).
  split; [exact (proj1 (Hrec env 2 b text (fst s) (snd s) D Hnew))|].
  split.
  - apply (Hrule text (py "SKU-1234 extra")); [vm_compute; reflexivity|discriminate].
  - apply (Hblank (py "   ")). vm_compute. reflexivity.
Defined.

(** The sentence of the specification fails as it is worded: for the blank
    payload "   " the rule finds no token, and the Identifier recorded is
    the empty text, not the payload returned verbatim. *)
Lemma blank_payload_gets_the_empty_identifier :
  let b := Scenario.symbol_of "   " in
  let s' := final (process_symbol Scenario.env 1 b (Scenario.started [])) in
  Utf8.decode (data b) = Some (py "   ")
  /\ elements (barcode_set (fst s')) = [[]]
  /\ elements (barcode_set (fst s')) <> [py "   "]
  /\ SpecRule.identifier (py "   ") = py "   ".
Proof.
  cbv zeta. split; [vm_compute; reflexivity|].
  split; [vm_compute; reflexivity|].
  split; [|vm_compute; reflexivity].
  intros H. vm_compute in H. discriminate.
Qed.

(** * Further properties *)

(** ** Looking for a camera *)

Section Accounting.

Context (env : Env).

Lemma video_capture_accounted (index : N) (backend : option N) (w : World) :
  accounted w (video_capture env index backend w)
  /\ (is_Some (fst (video_capture env index backend w))
      <-> is_opened (cv2_VideoCapture env index backend) = true).
Proof.
  unfold accounted, video_capture.
  destruct (cv2_VideoCapture env index backend); cbn; repeat split;
    try done; try (by intros [? [=]]); by eexists.
Qed.

Lemma or_else_accounted (w : World) (r : option nat * World)
    (k : World -> option nat * World) :
  accounted w r -> (forall w', accounted w' (k w')) ->
  accounted w (or_else r k).
Proof.
  intros Hr Hk. destruct r as [[c|] w1]; [done|]. cbn [or_else].
  destruct Hr as ((Hc & Hn) & Hs & Hf & Hi & Hd). cbn [fst snd] in *.
  specialize (Hk w1). unfold accounted in *.
  rewrite Hc, Hn, Hs, Hf, Hi, Hd in Hk. exact Hk.
Qed.

Lemma accounted_refl (w : World) : accounted w (None, w).
Proof. by repeat split. Qed.

Lemma open_camera_accounted (idx : N) (w : World) :
  accounted w (_open_camera_with_fallback env idx w).
Proof.
  unfold _open_camera_with_fallback, try_open.
  apply or_else_accounted.
  { destruct (_ =? 0); [apply accounted_refl|apply video_capture_accounted]. }
  intros w1. apply or_else_accounted; [apply video_capture_accounted|].
  intros w2. apply or_else_accounted.
  { destruct (platform_system env); try apply accounted_refl.
    destruct (truthy _) as [f|]; [|apply accounted_refl].
    destruct (f =? _); [apply accounted_refl|apply video_capture_accounted]. }
  intros w3. destruct (platform_system env); try apply accounted_refl.
  destruct (truthy _) as [f|]; [|apply accounted_refl].
  destruct (f =? _); [apply accounted_refl|apply video_capture_accounted].
Qed.


Lemma release_fresh (c : nat) (w : World) :
  release_ok env = true -> c ∉ cams_open w ->
  cams_open (release env c (with_cams ({[c]} ∪ cams_open w) (S c) w))
  = cams_open w.
Proof. intros Hok Hc. unfold release. rewrite Hok. cbn. set_solver. Qed.

(** [detect_cameras] reports the indices that open with the preferred
    backend and leaves the captures as they were. *)
Lemma detect_loop_spec (indices : list N) (w : World) :
  release_ok env = true -> cams_fresh w ->
  let r := detect_loop env indices w in
  fst r = List.filter (opens_preferred env) indices
  /\ cams_open (snd r) = cams_open w
  /\ cams_fresh (snd r)
  /\ serials_open (snd r) = serials_open w
  /\ files (snd r) = files w /\ images (snd r) = images w
  /\ feed (snd r) = feed w.
Proof.
  intros Hok. cbv zeta. revert w.
  induction indices as [|i rest IH]; intros w Hw; [done|].
  cbn [detect_loop List.filter]. unfold opens_preferred at 1.
  destruct (video_capture_accounted i (truthy (Some (_get_preferred_backend env))) w)
    as [Hacc Hiff].
  destruct (video_capture env i _ w) as [[c|] w1] eqn:E.
  - destruct Hacc as ((-> & Hc & Hn) & Hs & Hf & Hi & Hd). cbn [fst snd] in *.
    assert (is_opened (cv2_VideoCapture env i
              (truthy (Some (_get_preferred_backend env)))) = true) as ->
      by (apply Hiff; by eexists).
    assert (next_cam w ∉ cams_open w) as Hfresh.
    { intros H%Hw. lia. }
    assert (cams_open (release env (next_cam w) w1) = cams_open w) as Hrel.
    { unfold release. rewrite Hok. cbn. rewrite Hc. set_solver. }
    assert (cams_fresh (release env (next_cam w) w1)) as Hw'.
    { intros c Hin. rewrite Hrel in Hin. apply Hw in Hin.
      unfold release. rewrite Hok. cbn. lia. }
    destruct (IH _ Hw') as (H1 & H2 & H3 & H4 & H5 & H6 & H7).
    destruct (detect_loop env rest (release env (next_cam w) w1)) as [found w2].
    cbn [fst snd] in *. rewrite H1, H2, Hrel, H4, H5, H6, H7.
    unfold release. rewrite Hok. cbn. by rewrite Hs, Hf, Hi, Hd.
  - destruct Hacc as ((Hc & Hn) & Hs & Hf & Hi & Hd). cbn [fst snd] in *.
    assert (is_opened (cv2_VideoCapture env i
              (truthy (Some (_get_preferred_backend env)))) = false) as ->.
    { destruct (is_opened _); [|done]. by destruct Hiff as [_ [? [=]]]. }
    assert (cams_fresh w1) as Hw1.
    { intros c. rewrite Hc, Hn. apply Hw. }
    destruct (IH _ Hw1) as (H1 & H2 & H3 & H4 & H5 & H6 & H7).
    by rewrite H1, H2, H4, H5, H6, H7, Hc, Hs, Hf, Hi, Hd.
Qed.

End Accounting.

Section Attempts.

Context (env : Env).

Lemma truthy_nonzero (f : N) : f <> 0 -> truthy (Some f) = Some f.
Proof. intros H. cbn. by destruct (N.eqb_spec f 0). Qed.

Lemma truthy_some (flag : option N) (f : N) :
  truthy flag = Some f -> flag = Some f /\ f <> 0.
Proof.
  destruct flag as [g|]; [|done]. cbn. destruct (N.eqb_spec g 0); [done|].
  by intros [= <-].
Qed.

(** The last two strategies of [_open_camera_with_fallback] never run: on
    each platform the backend they would try is the preferred one. *)
Lemma open_camera_two_attempts (idx : N) (w : World) :
  let b := _get_preferred_backend env in
  _open_camera_with_fallback env idx w
  = or_else (if b =? 0 then (None, w) else video_capture env idx (Some b) w)
      (fun w1 => video_capture env idx None w1).
Proof.
  cbv zeta. unfold _open_camera_with_fallback, try_open.
  assert (forall r : option nat * World,
            or_else r (fun w1 =>
              or_else (video_capture env idx (truthy None) w1) (fun w2 =>
                or_else
                  (match platform_system env with
                   | Windows =>
                       match truthy (cv2_CAP_DSHOW env) with
                       | Some f => if f =? _get_preferred_backend env then (None, w2)
                                   else video_capture env idx (truthy (Some f)) w2
                       | None => (None, w2)
                       end
                   | _ => (None, w2)
                   end)
                  (fun w3 =>
                     match platform_system env with
                     | Linux =>
                         match truthy (cv2_CAP_V4L2 env) with
                         | Some f => if f =? _get_preferred_backend env then (None, w3)
                                     else video_capture env idx (truthy (Some f)) w3
                         | None => (None, w3)
                         end
                     | _ => (None, w3)
                     end)))
            = or_else r (fun w1 => video_capture env idx None w1)) as H.
  { intros [[c|] w1]; [done|]. cbn [or_else truthy].
    destruct (video_capture env idx None w1) as [[c|] w2]; [done|].
    cbn [or_else]. unfold _get_preferred_backend.
    destruct (platform_system env) eqn:Ep; cbn [or_else].
    - destruct (truthy (cv2_CAP_V4L2 env)) as [f|] eqn:Ef; [|done].
      apply truthy_some in Ef as [-> _]. cbn [default]. by rewrite N.eqb_refl.
    - destruct (truthy (cv2_CAP_DSHOW env)) as [f|] eqn:Ef; [|done].
      apply truthy_some in Ef as [-> _]. cbn [default]. by rewrite N.eqb_refl.
    - done. }
  destruct (N.eqb_spec (_get_preferred_backend env) 0) as [E|E].
  - apply H.
  - rewrite (truthy_nonzero _ E). apply H.
Qed.

End Attempts.

Section Search.

Context (env : Env).

Lemma open_camera_opens (idx : N) (w : World) :
  is_Some (fst (_open_camera_with_fallback env idx w))
  <-> index_opens env idx = true.
Proof.
  rewrite open_camera_two_attempts. cbv zeta. unfold index_opens.
  destruct (N.eqb_spec (_get_preferred_backend env) 0) as [E|E].
  - cbn [or_else negb andb orb]. apply video_capture_accounted.
  - cbn [negb andb].
    destruct (video_capture_accounted env idx (Some (_get_preferred_backend env)) w)
      as [_ H1].
    destruct (video_capture env idx (Some (_get_preferred_backend env)) w)
      as [[c|] w1]; cbn [or_else fst] in *.
    + split; [intros _|by eexists].
      apply orb_true_iff. left. apply H1. by eexists.
    + assert (is_opened (cv2_VideoCapture env idx
                           (Some (_get_preferred_backend env))) = false) as ->.
      { destruct (is_opened _); [|done]. by destruct H1 as [_ [? [=]]]. }
      cbn [orb]. apply video_capture_accounted.
Qed.

Lemma open_camera_trace (idx : N) (w : World) :
  let b := _get_preferred_backend env in
  let r1 := cv2_VideoCapture env idx (Some b) in
  let r2 := cv2_VideoCapture env idx None in
  trace (snd (_open_camera_with_fallback env idx w))
  = trace w
    ++ (if b =? 0 then [EvVideoCapture idx None r2]
        else if is_opened r1 then [EvVideoCapture idx (Some b) r1]
             else [EvVideoCapture idx (Some b) r1; EvVideoCapture idx None r2]).
Proof.
  cbv zeta. rewrite open_camera_two_attempts. cbv zeta.
  destruct (_ =? 0).
  - cbn [or_else]. unfold video_capture.
    by destruct (cv2_VideoCapture env idx None).
  - unfold video_capture.
    destruct (cv2_VideoCapture env idx (Some _)); cbn [or_else is_opened snd];
      try done;
      destruct (cv2_VideoCapture env idx None); cbn; by rewrite <- app_assoc.
Qed.

Lemma scan_loop_spec (indices : list N) (a : App) (w : World) :
  let r := scan_loop env indices (a, w) in
  accounted w (fst r, snd (snd r))
  /\ match fst r with
     | Some c =>
         exists pre idx post,
           indices = pre ++ idx :: post
           /\ Forall (fun j => index_opens env j = false) pre
           /\ index_opens env idx = true
           /\ fst (snd r)
              = set_camera_combo
                  (if bool_decide (idx ∈ camera_combo a) then camera_combo a
                   else camera_combo a ++ [idx])
                  (Some idx) a
     | None =>
         Forall (fun j => index_opens env j = false) indices
         /\ fst (snd r) = a
     end.
Proof.
  cbv zeta. revert w. induction indices as [|i rest IH]; intros w.
  { cbn. repeat split; constructor. }
  cbn [scan_loop fst snd].
  pose proof (open_camera_accounted env i w) as Hacc.
  pose proof (open_camera_opens i w) as Hop.
  destruct (_open_camera_with_fallback env i w) as [[c|] w1]; cbn [fst snd] in *.
  - split; [exact Hacc|]. exists [], i, rest. repeat split; [constructor|].
    apply Hop. by eexists.
  - assert (index_opens env i = false) as Hi.
    { destruct (index_opens env i); [|done]. by destruct Hop as [_ [? [=]]]. }
    destruct (IH w1) as [Hacc' Hrest].
    destruct Hacc as ((Hc & Hn) & Hs & Hf & Him & Hd). cbn [fst snd] in *.
    split.
    + unfold accounted in *. cbn [fst snd] in *.
      by rewrite Hc, Hn, Hs, Hf, Him, Hd in Hacc'.
    + destruct (fst (scan_loop env rest (a, w1))) as [c|].
      * destruct Hrest as (pre & idx & post & -> & Hpre & Hidx & Ha).
        exists (i :: pre), idx, post. repeat split; [by constructor|done|done].
      * destruct Hrest as [Hall Ha]. split; [by constructor|done].
Qed.

End Search.

Lemma range_split (n : nat) (pre post : list N) (idx : N) :
  range n = pre ++ idx :: post ->
  idx = N.of_nat (List.length pre)
  /\ (List.length pre < n)%nat
  /\ forall j, j < idx -> j ∈ pre.
Proof.
  unfold range. intros H.
  assert ((N.of_nat <$> seq 0 n) !! List.length pre = Some idx) as Hl.
  { rewrite H. by rewrite list_lookup_middle. }
  rewrite list_lookup_fmap in Hl.
  destruct (seq 0 n !! List.length pre) as [k|] eqn:Ek; [|done].
  apply lookup_seq in Ek as [-> Hlt]. injection Hl as <-.
  split; [done|]. split; [done|].
  intros j Hj. apply list_elem_of_lookup. exists (N.to_nat j).
  assert ((N.of_nat <$> seq 0 n) !! N.to_nat j = Some j) as Hj'.
  { rewrite list_lookup_fmap, lookup_seq_lt by lia. cbn. f_equal. lia. }
  rewrite H in Hj'. rewrite lookup_app_l in Hj' by lia. done.
Qed.

(** X1. [_open_camera_with_fallback] makes at most two attempts on an
    index, the preferred backend of the platform first (when there is one)
    and then the default, stops at the first that opens, and opens a
    capture exactly when one of the two does; the DSHOW and V4L2 branches
    written after them never make an attempt. *)
Theorem open_camera_tries_preferred_then_default :
  forall env idx w,
    let b := _get_preferred_backend env in
    let r1 := cv2_VideoCapture env idx (Some b) in
    let r2 := cv2_VideoCapture env idx None in
    let res := _open_camera_with_fallback env idx w in
    trace (snd res)
    = trace w
      ++ (if b =? 0 then [EvVideoCapture idx None r2]
          else if is_opened r1 then [EvVideoCapture idx (Some b) r1]
               else [EvVideoCapture idx (Some b) r1; EvVideoCapture idx None r2])
    /\ (is_Some (fst res) <-> index_opens env idx = true).
Proof.
  intros env idx w b r1 r2 res. split.
  - apply open_camera_trace.
  - apply open_camera_opens.
Qed.

(** X2. [_open_camera_with_fallback] leaves at most one capture open, the
    one it returns, which is a new one; when it returns none the open
    captures are as before. Serial ports, files, images and the camera feed
    are untouched. *)
Theorem open_camera_keeps_only_what_it_returns :
  forall env idx w,
    let res := _open_camera_with_fallback env idx w in
    cams_fresh w ->
    match fst res with
    | Some c => c ∉ cams_open w /\ cams_open (snd res) = {[c]} ∪ cams_open w
    | None => cams_open (snd res) = cams_open w
    end
    /\ cams_fresh (snd res)
    /\ serials_open (snd res) = serials_open w
    /\ files (snd res) = files w /\ images (snd res) = images w
    /\ feed (snd res) = feed w.
Proof.
  intros env idx w res Hw.
  destruct (open_camera_accounted env idx w) as (Hc & Hs & Hf & Hi & Hd).
  fold res in Hc, Hs, Hf, Hi, Hd.
  repeat split; try done.
  - destruct (fst res) as [c|].
    + destruct Hc as (-> & Hc & _). split; [|done]. intros H%Hw. lia.
    + by destruct Hc.
  - intros c. destruct (fst res) as [c'|].
    + destruct Hc as (-> & -> & ->).
      intros [->%elem_of_singleton|H%Hw]%elem_of_union; lia.
    + destruct Hc as (-> & ->). apply Hw.
Qed.

Lemma open_camera_keeps_only_what_it_returns_witness :
  let w := Scenario.world [] in
  let res := _open_camera_with_fallback Scenario.env 0 w in
  cams_fresh w
  /\ match fst res with
     | Some c => c ∉ cams_open w /\ cams_open (snd res) = {[c]} ∪ cams_open w
     | None => cams_open (snd res) = cams_open w
     end.
Proof.
  intros w res.
  assert (cams_fresh w) as Hw.
  { intros c H. vm_compute in H. discriminate. }
  split; [exact Hw|].
  exact (proj1 (open_camera_keeps_only_what_it_returns Scenario.env 0 w Hw)).
Defined.

(** X3. [detect_cameras] returns, in increasing order, exactly the indices
    below [max_test] that open with the preferred backend, and releases
    every capture it opened: the open captures, the serial ports, the files
    and the camera feed are as before. *)
Theorem detect_cameras_reports_and_releases :
  forall env max_test w,
    let res := detect_cameras env max_test w in
    release_ok env = true -> cams_fresh w ->
    fst res = List.filter (opens_preferred env) (range max_test)
    /\ cams_open (snd res) = cams_open w
    /\ serials_open (snd res) = serials_open w
    /\ files (snd res) = files w /\ images (snd res) = images w
    /\ feed (snd res) = feed w.
Proof.
  intros env max_test w res Hok Hw.
  destruct (detect_loop_spec env (range max_test) w Hok Hw)
    as (H1 & H2 & _ & H4 & H5 & H6 & H7).
  by repeat split.
Qed.

Lemma detect_cameras_reports_and_releases_witness :
  let w := Scenario.world [] in
  let res := detect_cameras Scenario.env 8 w in
  (release_ok Scenario.env = true /\ cams_fresh w)
  /\ fst res = List.filter (opens_preferred Scenario.env) (range 8)
  /\ cams_open (snd res) = cams_open w.
Proof.
  intros w res.
  assert (cams_fresh w) as Hw.
  { intros c H. vm_compute in H. discriminate. }
  split; [by split|].
  destruct (detect_cameras_reports_and_releases Scenario.env 8 w eq_refl Hw)
    as (H1 & H2 & _).
  split; [exact H1|exact H2].
Defined.

(** X4. [_scan_and_open_any_camera] opens the lowest index below
    [max_scan] that opens with some strategy: no lower index opens, the
    combo then shows that index as the current one, added at the end of the
    items when it was not among them. When no index opens it returns
    nothing and leaves the application object and the open captures as
    they were. *)
Theorem scan_opens_the_lowest_index :
  forall env max_scan a w,
    let res := _scan_and_open_any_camera env max_scan (a, w) in
    match fst res with
    | Some c =>
        exists idx,
          idx < N.of_nat max_scan
          /\ index_opens env idx = true
          /\ (forall j, j < idx -> index_opens env j = false)
          /\ camera_combo_current (fst (snd res)) = Some idx
          /\ idx ∈ camera_combo (fst (snd res))
          /\ camera_combo a `prefix_of` camera_combo (fst (snd res))
          /\ same_but_combo a (fst (snd res))
          /\ c = next_cam w
          /\ cams_open (snd (snd res)) = {[c]} ∪ cams_open w
    | None =>
        (forall j, j < N.of_nat max_scan -> index_opens env j = false)
        /\ fst (snd res) = a
        /\ cams_open (snd (snd res)) = cams_open w
    end.
Proof.
  intros env max_scan a w res. subst res. unfold _scan_and_open_any_camera.
  destruct (scan_loop_spec env (range max_scan) a w) as [Hacc Hres].
  destruct (fst (scan_loop env (range max_scan) (a, w))) as [c|].
  - destruct Hres as (pre & idx & post & Hsplit & Hpre & Hidx & Ha).
    destruct (range_split _ _ _ _ Hsplit) as (Hi & Hlt & Hlow).
    exists idx. rewrite Ha. cbn [camera_combo camera_combo_current set_camera_combo].
    destruct Hacc as ((Hc & Hco & _) & _). cbn [fst snd] in *.
    repeat split; try done.
    + lia.
    + intros j Hj. apply Hlow in Hj.
      by apply (proj1 (Forall_forall _ _) Hpre) in Hj.
    + case_bool_decide; [done|]. apply elem_of_app. right. by left.
    + case_bool_decide; [done|]. by apply prefix_app_r.
    + by eexists _, _.
  - destruct Hres as [Hall Ha]. destruct Hacc as ((Hco & _) & _).
    cbn [fst snd] in *. repeat split; try done.
    intros j Hj. apply (proj1 (Forall_forall _ _) Hall).
    apply list_elem_of_lookup. exists (N.to_nat j). unfold range.
    rewrite list_lookup_fmap, lookup_seq_lt by lia. cbn. f_equal. lia.
Qed.
(** ** The session and its handles *)

Section DevicesKept.

Context (env : Env).

(** Persisting and forwarding touch no device. *)
Lemma default_folder_devices (a : App) (w : World) :
  devices (snd (use_default_folder (a, w))) = devices w.
Proof. rewrite default_folder_world. by destruct (save_location a). Qed.

Lemma persist_steps_devices (frame : Frame) (sku : str) (a : App) (w : World) :
  devices (append_log env sku a
             (beep_saved a (write_image env frame sku a (make_order_folder a w))))
  = devices w.
Proof.
  unfold append_log, beep_saved, write_image, make_order_folder, play_sound.
  by destruct (open_append_ok env _), (settings_get_beep a && beep_checkbox a),
    (cv2_imwrite env _ _).
Qed.

Lemma forward_serial_devices (barcode_data : str) (s : state) :
  devices (snd (forward_serial env barcode_data s)) = devices (snd s).
Proof.
  destruct s as [a w]. unfold forward_serial, play_sound.
  destruct (serial_port a); [|done]. destruct (Utf8.encode _).
  - by destruct (serial_write_ok env _), (settings_get_beep a).
  - by destruct (settings_get_beep a).
Qed.

Lemma capture_image_devices (frame : Frame) (sku : str) (a : App) (w : World) :
  let s' := final (capture_image env frame sku (a, w)) in
  devices (snd s') = devices w
  /\ capture (fst s') = capture a /\ timer_active (fst s') = timer_active a
  /\ serial_port (fst s') = serial_port a.
Proof.
  cbv zeta. rewrite capture_image_unfold. cbv zeta.
  destruct (default_folder_fields a w) as (Hc & Ht & Hs & _).
  pose proof (default_folder_devices a (emit (EvPersist sku) w)) as Hd.
  destruct (makedirs_ok env _); cbn [negb final fst snd].
  - by rewrite persist_steps_devices.
  - done.
Qed.

Lemma process_symbol_devices (frame : Frame) (b : Symbol) (a : App) (w : World) :
  devices (snd (final (process_symbol env frame b (a, w)))) = devices w.
Proof.
  destruct (Utf8.decode (data b)) as [text|] eqn:D.
  2:{ by rewrite process_symbol_undecodable. }
  destruct (decide (extract_sku (PyStr.strip text) ∈ barcode_set a)) as [Hin|Hnew].
  { by rewrite (process_symbol_seen env frame b text a w D Hin). }
  pose proof (default_folder_devices a
                (emit (EvPersist (extract_sku (PyStr.strip text))) w)) as Hd.
  destruct (makedirs_ok env (order_folder (fst (use_default_folder (a, w))))) eqn:Hmk.
  - rewrite (process_symbol_new_ok env frame b text a w D Hnew Hmk). cbn [final].
    rewrite forward_serial_devices. cbn [snd]. by rewrite persist_steps_devices.
  - by rewrite (process_symbol_new_raises env frame b text a w D Hnew Hmk).
Qed.

Lemma process_symbols_devices (frame : Frame) (bs : list Symbol) (s : state) :
  devices (snd (final (process_symbols env frame bs s))) = devices (snd s).
Proof.
  revert s. induction bs as [|b bs IH]; intros [a w]; [done|].
  cbn [process_symbols]. pose proof (process_symbol_devices frame b a w) as H.
  destruct (process_symbol env frame b (a, w)) as [s'|s']; cbn [bind final] in *.
  - by rewrite IH.
  - done.
Qed.

Lemma read_devices (w : World) : devices (snd (read w)) = devices w.
Proof. unfold read. by destruct (feed w). Qed.

End DevicesKept.

Section StartStages.

Context (env : Env).

(** Whether or not [release()] works, [detect_cameras] closes no capture
    that was open before it. *)
Lemma detect_loop_keeps (indices : list N) (w : World) :
  cams_fresh w ->
  let r := detect_loop env indices w in
  cams_fresh (snd r)
  /\ cams_open w ⊆ cams_open (snd r)
  /\ (release_ok env = true -> cams_open (snd r) = cams_open w)
  /\ serials_open (snd r) = serials_open w
  /\ files (snd r) = files w /\ images (snd r) = images w
  /\ feed (snd r) = feed w.
Proof.
  cbv zeta. revert w. induction indices as [|i rest IH]; intros w Hw; [done|].
  cbn [detect_loop].
  destruct (video_capture_accounted env i (truthy (Some (_get_preferred_backend env))) w)
    as [Hacc _].
  destruct (video_capture env i _ w) as [[c|] w1] eqn:E.
  - destruct Hacc as ((-> & Hc & Hn) & Hs & Hf & Hi & Hd). cbn [fst snd] in *.
    assert (next_cam w ∉ cams_open w) as Hfresh by (intros H%Hw; lia).
    set (w2 := release env (next_cam w) w1).
    assert (next_cam w2 = S (next_cam w) /\ serials_open w2 = serials_open w
            /\ files w2 = files w /\ images w2 = images w /\ feed w2 = feed w
            /\ cams_open w ⊆ cams_open w2
            /\ cams_open w2 ⊆ {[next_cam w]} ∪ cams_open w
            /\ (release_ok env = true -> cams_open w2 = cams_open w))
      as (Hn2 & Hs2 & Hf2 & Hi2 & Hd2 & Hsub & Hsup & Heq).
    { subst w2. unfold release. destruct (release_ok env); cbn;
        rewrite ?Hc, ?Hn, ?Hs, ?Hf, ?Hi, ?Hd; repeat split; try done; set_solver. }
    assert (cams_fresh w2) as Hw2.
    { intros c Hin. rewrite Hn2. apply Hsup in Hin.
      apply elem_of_union in Hin as [->%elem_of_singleton|H%Hw]; lia. }
    destruct (IH _ Hw2) as (H1 & H2 & H3 & H4 & H5 & H6 & H7).
    destruct (detect_loop env rest w2) as [found w3]. cbn [fst snd] in *.
    rewrite H4, H5, H6, H7. repeat split; try done.
    + set_solver.
    + intros Hok. rewrite (H3 Hok). by apply Heq.
  - destruct Hacc as ((Hc & Hn) & Hs & Hf & Hi & Hd). cbn [fst snd] in *.
    assert (cams_fresh w1) as Hw1 by (intros c; rewrite Hc, Hn; apply Hw).
    destruct (IH _ Hw1) as (H1 & H2 & H3 & H4 & H5 & H6 & H7).
    rewrite H4, H5, H6, H7, <- Hc, Hs, Hf, Hi, Hd. repeat split; try done.
Qed.

Lemma choose_index_keeps (a : App) (w : World) :
  cams_fresh w ->
  let r := choose_index env a w in
  cams_fresh (snd r)
  /\ cams_open w ⊆ cams_open (snd r)
  /\ (release_ok env = true -> cams_open (snd r) = cams_open w)
  /\ serials_open (snd r) = serials_open w
  /\ files (snd r) = files w /\ images (snd r) = images w
  /\ feed (snd r) = feed w.
Proof.
  intros Hw. cbv zeta. unfold choose_index, detect_cameras.
  destruct (camera_combo_current a); [done|].
  pose proof (detect_loop_keeps (range 8) w Hw) as H.
  by destruct (detect_loop env (range 8) w).
Qed.

Lemma open_chosen_accounted (use_index : option N) (a : App) (w : World) :
  let r := open_chosen env use_index (a, w) in
  accounted w (fst r, snd (snd r))
  /\ same_but_combo a (fst (snd r))
  /\ (fst r = None -> fst (snd r) = a).
Proof.
  cbv zeta. unfold open_chosen, _scan_and_open_any_camera. cbn [fst snd].
  assert (forall w', let r := scan_loop env (range 8) (a, w') in
                     accounted w' (fst r, snd (snd r))
                     /\ same_but_combo a (fst (snd r))
                     /\ (fst r = None -> fst (snd r) = a)) as Hscan.
  { intros w'. cbv zeta. destruct (scan_loop_spec env (range 8) a w') as [Hacc Hres].
    split; [exact Hacc|].
    destruct (fst (scan_loop env (range 8) (a, w'))) as [c|].
    - destruct Hres as (pre & idx & post & _ & _ & _ & ->).
      split; [by eexists _, _|done].
    - destruct Hres as [_ ->]. split; [|done].
      exists (camera_combo a), (camera_combo_current a). by destruct a. }
  destruct use_index as [i|]; [|apply Hscan].
  pose proof (open_camera_accounted env i w) as Hacc.
  destruct (_open_camera_with_fallback env i w) as [[c|] w1].
  - cbn [fst snd]. split; [exact Hacc|]. split; [|done].
    exists (camera_combo a), (camera_combo_current a). by destruct a.
  - destruct (Hscan w1) as (Hacc' & Hsame & Hnone).
    destruct Hacc as ((Hc & Hn) & Hs & Hf & Hi & Hd). cbn [fst snd] in *.
    split; [|by split].
    unfold accounted in *. cbn [fst snd] in *.
    by rewrite Hc, Hn, Hs, Hf, Hi, Hd in Hacc'.
Qed.

Lemma load_existing_keeps (order : str) (a : App) (w : World) :
  let s' := load_existing_barcodes env order (a, w) in
  (exists seen, fst s' = set_barcode_set seen a)
  /\ devices (snd s') = devices w
  /\ files (snd s') = files w /\ images (snd s') = images w
  /\ feed (snd s') = feed w.
Proof.
  cbv zeta. unfold load_existing_barcodes.
  destruct (files w !! _); [|by split; [eexists|]].
  destruct (pd_read_csv env _ _) as [df|]; [|by split; [eexists|]].
  destruct (column _ df); by split; [eexists|].
Qed.

Lemma begin_session_keeps (c : nat) (use_index : option N) (a : App) (w : World) :
  let s' := begin_session env c use_index (a, w) in
  capture (fst s') = Some c /\ timer_active (fst s') = true
  /\ serial_port (fst s') = serial_port a
  /\ save_location (fst s') = save_location a
  /\ devices (snd s') = devices w
  /\ files (snd s') = files w /\ images (snd s') = images w
  /\ feed (snd s') = feed w.
Proof.
  cbv zeta. unfold begin_session. cbn [fst snd].
  set (a4 := set_camera_index use_index (set_capture (Some c) a)).
  change (save_location a4) with (save_location a).
  destruct (save_location a) eqn:E; [done|].
  destruct (load_existing_keeps (order_number a4) a4 w)
    as ((seen & Ha) & Hd & Hf & Hi & Hfd).
  destruct (load_existing_barcodes env (order_number a4) (a4, w)) as [a5 w5].
  cbn [fst snd] in *. subst a5. by rewrite Hd, Hf, Hi, Hfd.
Qed.

(** The stages of [start_camera], one after the other. *)
Lemma start_camera_stages (a : App) (w : World) (a1 : App) (w1 : World) :
  open_serial env (a, w) = Some (a1, w1) ->
  let r2 := choose_index env a1 w1 in
  let r3 := open_chosen env (fst r2) (a1, snd r2) in
  start_camera env (a, w)
  = match fst r3 with
    | None => Returned (fst (snd r3), show_error MsgCameraOpenFailed (snd (snd r3)))
    | Some c => Returned (begin_session env c (fst r2) (snd r3))
    end.
Proof.
  intros Hs. cbv zeta. unfold start_camera. rewrite Hs.
  destruct (choose_index env a1 w1) as [ui w2]. cbn [fst snd].
  by destruct (open_chosen env ui (a1, w2)) as [[c|] s3].
Qed.

Lemma open_serial_cases (a : App) (w : World) :
  let port := serial_port_combo a in
  (port = py "None"
   /\ open_serial env (a, w) = Some (set_serial_port None a, w))
  \/ (port <> py "None" /\ serial_Serial env port = true
      /\ open_serial env (a, w)
         = Some (set_serial_port (Some port) a,
                 emit (EvSerialOpen port true)
                   (with_serials (port :: serials_open w) w)))
  \/ (port <> py "None" /\ serial_Serial env port = false
      /\ open_serial env (a, w) = None).
Proof.
  cbv zeta. unfold open_serial. case_bool_decide; [by left|right].
  destruct (serial_Serial env _); [left|right]; done.
Qed.

End StartStages.

Section StartSummary.

Context (env : Env).

(** What [start_camera] does once the serial port is dealt with. *)
Lemma start_camera_after (a : App) (w : World) (a1 : App) (w1 : World) :
  open_serial env (a, w) = Some (a1, w1) ->
  cams_fresh w1 ->
  let s' := final (start_camera env (a, w)) in
  cams_fresh (snd s') /\ cams_open w1 ⊆ cams_open (snd s')
  /\ serials_open (snd s') = serials_open w1
  /\ files (snd s') = files w1 /\ images (snd s') = images w1
  /\ feed (snd s') = feed w1
  /\ serial_port (fst s') = serial_port a1
  /\ match fst (open_chosen env (fst (choose_index env a1 w1))
                  (a1, snd (choose_index env a1 w1))) with
     | Some c =>
         capture (fst s') = Some c /\ c ∉ cams_open w1
         /\ c ∈ cams_open (snd s') /\ timer_active (fst s') = true
         /\ (release_ok env = true ->
             cams_open (snd s') = {[c]} ∪ cams_open w1)
     | None =>
         capture (fst s') = capture a1
         /\ timer_active (fst s') = timer_active a1
         /\ barcode_set (fst s') = barcode_set a1
         /\ last (trace (snd s')) = Some (EvError MsgCameraOpenFailed)
         /\ (release_ok env = true -> cams_open (snd s') = cams_open w1)
     end.
Proof.
  intros Hs Hw1. cbv zeta. rewrite (start_camera_stages env a w a1 w1 Hs). cbv zeta.
  destruct (choose_index_keeps env a1 w1 Hw1) as (Hf2 & Hsub2 & Heq2 & Hs2 & Hfi2 & Hi2 & Hd2).
  set (r2 := choose_index env a1 w1) in *.
  destruct (open_chosen_accounted env (fst r2) a1 (snd r2)) as (Hacc & (items & cur & Hsame) & Hnone).
  set (r3 := open_chosen env (fst r2) (a1, snd r2)) in *.
  destruct Hacc as (Hc & Hs3 & Hfi3 & Hi3 & Hd3). cbn [fst snd] in *.
  destruct (fst r3) as [c|] eqn:E3.
  - destruct Hc as (Hceq & Hco & Hn).
    destruct (begin_session_keeps env c (fst r2) (fst (snd r3)) (snd (snd r3)))
      as (Hcap & Ht & Hsp & _ & Hdev & Hfi & Hi & Hd).
    assert (begin_session env c (fst r2) (snd r3)
            = begin_session env c (fst r2) (fst (snd r3), snd (snd r3))) as Heq
      by by destruct (snd r3).
    rewrite Heq. cbn [final].
    set (s' := begin_session env c (fst r2) (fst (snd r3), snd (snd r3))) in *.
    injection Hdev as Hco' Hn' Hse'.
    assert (c ∉ cams_open (snd r2)) as Hfresh.
    { rewrite Hceq. intros H%Hf2. lia. }
    repeat split.
    + intros x. rewrite Hco', Hn', Hco, Hn.
      intros [->%elem_of_singleton|H%Hf2]%elem_of_union; lia.
    + rewrite Hco', Hco. set_solver.
    + by rewrite Hse', Hs3, Hs2.
    + by rewrite Hfi, Hfi3, Hfi2.
    + by rewrite Hi, Hi3, Hi2.
    + by rewrite Hd, Hd3, Hd2.
    + rewrite Hsp, Hsame. done.
    + done.
    + set_solver.
    + rewrite Hco', Hco. set_solver.
    + done.
    + intros Hok. by rewrite Hco', Hco, (Heq2 Hok).
  - destruct Hc as (Hco & Hn). cbn [final fst snd].
    rewrite (Hnone eq_refl). unfold show_error, cams_fresh.
    repeat split; cbn [cams_open next_cam serials_open files images feed emit trace];
      try done.
    + intros x. rewrite Hco, Hn. apply Hf2.
    + by rewrite Hco.
    + by rewrite Hs3, Hs2.
    + by rewrite Hfi3, Hfi2.
    + by rewrite Hi3, Hi2.
    + by rewrite Hd3, Hd2.
    + by rewrite last_snoc.
    + intros Hok. by rewrite Hco, (Heq2 Hok).
Qed.

End StartSummary.

Section StartFacts.

Context (env : Env).

Lemma open_chosen_none (use_index : option N) (a : App) (w : World) :
  (forall i, index_opens env i = false) ->
  fst (open_chosen env use_index (a, w)) = None.
Proof.
  intros Hno. unfold open_chosen, _scan_and_open_any_camera. cbn [fst snd].
  assert (forall w', fst (scan_loop env (range 8) (a, w')) = None) as Hscan.
  { intros w'. destruct (scan_loop_spec env (range 8) a w') as [_ Hres].
    destruct (fst (scan_loop env (range 8) (a, w'))) as [c|]; [|done].
    destruct Hres as (pre & idx & post & _ & _ & Hidx & _).
    by rewrite Hno in Hidx. }
  destruct use_index as [i|]; [|apply Hscan].
  pose proof (open_camera_opens env i w) as Hop.
  destruct (_open_camera_with_fallback env i w) as [[c|] w1]; [|apply Hscan].
  destruct Hop as [Hop _]. rewrite Hno in Hop. by discriminate Hop; eexists.
Qed.

End StartFacts.

(** X5. [start_camera] writes no file and reads no frame. When every
    capture it releases on the way is released, it ends either with the
    timer started and exactly one new capture open, the one it holds in
    [self.capture], or with the capture attribute, the timer and the open
    captures as they were. *)
Theorem start_camera_holds_one_new_capture :
  forall env a w,
    let s' := final (start_camera env (a, w)) in
    release_ok env = true -> cams_fresh w ->
    files (snd s') = files w /\ images (snd s') = images w
    /\ feed (snd s') = feed w
    /\ ((exists c, capture (fst s') = Some c /\ c ∉ cams_open w
                   /\ cams_open (snd s') = {[c]} ∪ cams_open w
                   /\ timer_active (fst s') = true)
        \/ (capture (fst s') = capture a
            /\ timer_active (fst s') = timer_active a
            /\ cams_open (snd s') = cams_open w)).
Proof.
  intros env a w s' Hok Hw. subst s'.
  destruct (open_serial_cases env a w) as [(Hp & Hs)|[(Hp & Hser & Hs)|(Hp & Hser & Hs)]].
  - destruct (start_camera_after env a w _ _ Hs Hw)
      as (_ & _ & _ & Hf & Hi & Hd & _ & Hcase).
    repeat split; try done.
    destruct (fst (open_chosen env _ _)) as [c|].
    + destruct Hcase as (Hc & Hn & _ & Ht & Heq).
      left. exists c. by rewrite (Heq Hok).
    + destruct Hcase as (Hc & Ht & _ & _ & Heq).
      right. by rewrite (Heq Hok).
  - destruct (start_camera_after env a w _ _ Hs Hw)
      as (_ & _ & _ & Hf & Hi & Hd & _ & Hcase).
    repeat split; try done.
    destruct (fst (open_chosen env _ _)) as [c|].
    + destruct Hcase as (Hc & Hn & _ & Ht & Heq).
      left. exists c. by rewrite (Heq Hok).
    + destruct Hcase as (Hc & Ht & _ & _ & Heq).
      right. by rewrite (Heq Hok).
  - unfold start_camera. rewrite Hs. cbn. repeat split. by right.
Qed.

Lemma start_camera_holds_one_new_capture_witness :
  let env := Scenario.env in
  let a := Scenario.app "/data" "/dev/ttyUSB0" "42" in
  let w := Scenario.world [] in
  let s' := final (start_camera env (a, w)) in
  (release_ok env = true /\ cams_fresh w)
  /\ files (snd s') = files w /\ images (snd s') = images w.
Proof.
  intros env a w s'.
  assert (cams_fresh w) as Hw.
  { intros c H. vm_compute in H. discriminate. }
  split; [by split|].
  destruct (start_camera_holds_one_new_capture env a w eq_refl Hw)
    as (Hf & Hi & _).
  split; [exact Hf|exact Hi].
Defined.

(** X6. When no camera index opens, [start_camera] shows the error as the
    last thing it does and starts nothing (timer, capture and scanned set
    as before), but the serial port it opened first stays open and stays in
    [self.serial_port]: it is not closed. *)
Theorem start_without_camera_keeps_the_serial_port :
  forall env a w,
    let port := serial_port_combo a in
    let s' := final (start_camera env (a, w)) in
    (forall i, index_opens env i = false) ->
    port <> py "None" -> serial_Serial env port = true -> cams_fresh w ->
    serial_port (fst s') = Some port
    /\ serials_open (snd s') = port :: serials_open w
    /\ capture (fst s') = capture a
    /\ timer_active (fst s') = timer_active a
    /\ barcode_set (fst s') = barcode_set a
    /\ last (trace (snd s')) = Some (EvError MsgCameraOpenFailed).
Proof.
  intros env a w port s' Hno Hp Hser Hw. subst s'.
  destruct (open_serial_cases env a w) as [(Hp' & _)|[(_ & _ & Hs)|(_ & Hser' & _)]];
    [done| |fold port in Hser'; congruence].
  fold port in Hs.
  destruct (start_camera_after env a w _ _ Hs Hw)
    as (_ & _ & Hse & _ & _ & _ & Hsp & Hcase).
  split; [done|]. split; [done|].
  rewrite open_chosen_none in Hcase by done.
  by destruct Hcase as (Hc & Ht & Hb & Hl & _).
Qed.

Lemma start_without_camera_keeps_the_serial_port_witness :
  let env := host_without_camera in
  let a := Scenario.app "/data" "/dev/ttyUSB0" "42" in
  let w := Scenario.world [] in
  let s' := final (start_camera env (a, w)) in
  ((forall i, index_opens env i = false)
   /\ serial_port_combo a <> py "None"
   /\ serial_Serial env (serial_port_combo a) = true /\ cams_fresh w)
  /\ serial_port (fst s') = Some (serial_port_combo a)
  /\ timer_active (fst s') = timer_active a.
Proof.
  intros env a w s'.
  assert (forall i, index_opens env i = false) as Hno by (intros i; reflexivity).
  assert (serial_port_combo a <> py "None") as Hp
    by (intros H; vm_compute in H; discriminate).
  assert (cams_fresh w) as Hw.
  { intros c H. vm_compute in H. discriminate. }
  split; [repeat split; done|].
  destruct (start_without_camera_keeps_the_serial_port env a w Hno Hp eq_refl Hw)
    as (H1 & _ & _ & H2 & _).
  split; [exact H1|exact H2].
Defined.

Section Handles.

Context (env : Env).

Lemma handles_valid_same (a a' : App) (w w' : World) :
  devices w' = devices w -> capture a' = capture a ->
  timer_active a' = timer_active a -> serial_port a' = serial_port a ->
  handles_valid (a, w) -> handles_valid (a', w').
Proof.
  intros [= Hc Hn Hs] Hcap Ht Hsp (Hf & Hc' & Hs' & Ht').
  unfold handles_valid, cams_fresh in *. cbn [fst snd] in *.
  by rewrite Hc, Hn, Hs, Hcap, Ht, Hsp.
Qed.

Lemma stop_camera_world (a : App) (w : World) :
  let s' := final (stop_camera env (a, w)) in
  capture (fst s') = None /\ serial_port (fst s') = None
  /\ timer_active (fst s') = false
  /\ next_cam (snd s') = next_cam w
  /\ cams_open (snd s') ⊆ cams_open w
  /\ (forall c, capture a = Some c -> release_ok env = true ->
                cams_open (snd s') = cams_open w ∖ {[c]})
  /\ (capture a = None -> cams_open (snd s') = cams_open w)
  /\ (forall p, serial_port a = Some p -> serial_close_ok env = true ->
                serials_open (snd s') = filter (fun q => q <> p) (serials_open w))
  /\ (serial_port a = None -> serials_open (snd s') = serials_open w)
  /\ files (snd s') = files w /\ images (snd s') = images w
  /\ feed (snd s') = feed w.
Proof.
  cbv zeta. rewrite stop_camera_explicit. cbn [final fst snd].
  unfold release, serial_close.
  destruct (capture a) as [c|], (serial_port a) as [p|];
    destruct (release_ok env), (serial_close_ok env); cbn;
    repeat split; try done; try set_solver; intros; simplify_eq; done.
Qed.

Lemma stop_camera_valid (s : state) :
  cams_fresh (snd s) -> handles_valid (final (stop_camera env s)).
Proof.
  destruct s as [a w]. intros Hf.
  destruct (stop_camera_world a w) as (Hc & Hs & Ht & Hn & Hsub & _).
  set (s' := final (stop_camera env (a, w))) in *.
  unfold handles_valid, cams_fresh. rewrite Hc, Hs, Ht, Hn.
  repeat split; try done. intros c Hin. apply Hf. cbn. set_solver.
Qed.

Lemma start_camera_valid (s : state) :
  handles_valid s -> handles_valid (final (start_camera env s)).
Proof.
  destruct s as [a w]. intros (Hf & Hc & Hs & Ht). cbn [fst snd] in *.
  destruct (open_serial_cases env a w) as [(Hp & Ho)|[(Hp & Hser & Ho)|(Hp & Hser & Ho)]].
  - destruct (start_camera_after env a w _ _ Ho Hf)
      as (Hf' & Hsub & Hse & _ & _ & _ & Hsp & Hcase).
    set (s' := final (start_camera env (a, w))) in *.
    unfold handles_valid. split; [done|]. rewrite Hsp. cbn.
    destruct (fst (open_chosen env _ _)) as [c|].
    + destruct Hcase as (Hcap & _ & Hin & Htm & _). rewrite Hcap.
      repeat split; try done. by intros ? [= <-].
    + destruct Hcase as (Hcap & Htm & _). rewrite Hcap, Htm. cbn.
      repeat split; try done. intros c Hce. apply Hsub, Hc, Hce.
  - assert (cams_fresh (emit (EvSerialOpen (serial_port_combo a) true)
                         (with_serials (serial_port_combo a :: serials_open w) w)))
      as Hf1 by done.
    destruct (start_camera_after env a w _ _ Ho Hf1)
      as (Hf' & Hsub & Hse & _ & _ & _ & Hsp & Hcase).
    set (s' := final (start_camera env (a, w))) in *.
    unfold handles_valid. split; [done|]. rewrite Hsp, Hse. cbn.
    assert (forall p, Some (serial_port_combo a) = Some p ->
                      p ∈ serial_port_combo a :: serials_open w) as Hport.
    { intros p [= <-]. apply list_elem_of_here. }
    destruct (fst (open_chosen env _ _)) as [c|].
    + destruct Hcase as (Hcap & _ & Hin & Htm & _). rewrite Hcap.
      repeat split; try done. by intros ? [= <-].
    + destruct Hcase as (Hcap & Htm & _). rewrite Hcap, Htm. cbn.
      repeat split; try done. intros c Hce. apply Hsub, Hc, Hce.
  - unfold start_camera. rewrite Ho. by cbn.
Qed.

Lemma update_frame_valid (s : state) :
  handles_valid s -> handles_valid (final (update_frame env s)).
Proof.
  destruct s as [a w]. intros Hv. unfold update_frame.
  destruct (capture a) as [c|] eqn:Hc; [|done].
  pose proof (read_devices w) as Hrd.
  destruct (read w) as [r w1]. cbn [snd] in Hrd.
  assert (handles_valid (a, w1)) as Hv1 by by eapply handles_valid_same.
  assert (handles_valid
            (final (stop_camera env (a, w1) >>> fun '(a, w) =>
                    Returned (a, show_error MsgDisconnected w)))) as Hstop.
  { pose proof (stop_camera_valid (a, w1) (proj1 Hv1)) as H.
    destruct (stop_camera_returns env (a, w1)) as [[a2 w2] E].
    rewrite E in *. cbn in *. by eapply handles_valid_same. }
  destruct r as [| |frame]; try exact Hstop.
  set (s0 := (a, emit (EvDecode frame) w1)).
  destruct (process_symbols_invariant env frame
              (default [] (pyzbar_decode env frame)) s0) as (H1 & H2 & H3 & _).
  pose proof (process_symbols_devices env frame
                (default [] (pyzbar_decode env frame)) s0) as H4.
  destruct (final _) as [a' w'] eqn:E. cbn [fst snd] in *.
  by eapply handles_valid_same.
Qed.

Lemma capture_snapshot_valid (s : state) :
  handles_valid s -> handles_valid (final (capture_snapshot env s)).
Proof.
  destruct s as [a w]. intros Hv. unfold capture_snapshot.
  destruct (capture a) as [c|] eqn:Hc; [|done].
  pose proof (read_devices w) as Hrd.
  destruct (read w) as [r w1]. cbn [snd] in Hrd.
  assert (handles_valid (a, w1)) as Hv1 by by eapply handles_valid_same.
  destruct r as [| |frame]; try by (cbn; eapply handles_valid_same).
  destruct (capture_image_devices env frame (py "manual") a w1) as (H1 & H2 & H3 & H4).
  destruct (final _) as [a' w'] eqn:E. cbn [fst snd] in *.
  by eapply handles_valid_same.
Qed.

Lemma perform_valid (act : action) (s : state) :
  handles_valid s -> handles_valid (final (perform env act s)).
Proof.
  intros Hv. destruct act; cbn [perform].
  - by apply start_camera_valid.
  - apply stop_camera_valid, Hv.
  - by apply update_frame_valid.
  - by apply capture_snapshot_valid.
  - destruct s as [a w]. cbn. by eapply handles_valid_same.
  - destruct s as [a w]. cbn. destruct folder; cbn; by eapply handles_valid_same.
Qed.

End Handles.

(** X7. Started from an idle application whose selected port is not
    already open, and stopped when [release()] and [close()] work,
    [start_camera] followed by [stop_camera] leaves the open captures and
    the open ports as they were before the start: nothing stays open,
    whether the start found a camera, found none, or the port failed. *)
Theorem start_then_stop_leaks_nothing :
  forall env env' a w,
    let s1 := final (start_camera env (a, w)) in
    let s2 := final (stop_camera env' s1) in
    release_ok env = true -> release_ok env' = true ->
    serial_close_ok env' = true -> cams_fresh w ->
    capture a = None -> serial_port a = None ->
    serial_port_combo a ∉ serials_open w ->
    cams_open (snd s2) = cams_open w /\ serials_open (snd s2) = serials_open w
    /\ capture (fst s2) = None /\ serial_port (fst s2) = None
    /\ timer_active (fst s2) = false
    /\ files (snd s2) = files w /\ images (snd s2) = images w.
Proof.
  intros env env' a w s1 s2 Hr Hr' Hcl Hf Hcap Hsp Hnew.
  assert (forall (p : str) (l : list str), p ∉ l ->
            filter (fun q => q <> p) (p :: l) = l) as Hfilter.
  { intros p l Hp. rewrite filter_cons_False by (intros H; by apply H).
    induction l as [|q l IH]; [done|].
    apply not_elem_of_cons in Hp as [Hq Hl].
    rewrite filter_cons_True by done. by rewrite IH. }
  assert (forall a1 w1,
            open_serial env (a, w) = Some (a1, w1) -> cams_fresh w1 ->
            cams_open w1 = cams_open w -> files w1 = files w ->
            images w1 = images w -> capture a1 = None ->
            match serial_port a1 with
            | Some p => filter (fun q => q <> p) (serials_open w1) = serials_open w
            | None => serials_open w1 = serials_open w
            end ->
            cams_open (snd s2) = cams_open w /\ serials_open (snd s2) = serials_open w
            /\ capture (fst s2) = None /\ serial_port (fst s2) = None
            /\ timer_active (fst s2) = false
            /\ files (snd s2) = files w /\ images (snd s2) = images w) as Hmain.
  { intros a1 w1 Ho Hf1 Hc1 Hfi1 Hi1 Hcap1 Hser1.
    destruct (start_camera_after env a w _ _ Ho Hf1)
      as (_ & _ & Hse & Hfi & Him & _ & Hport & Hcase).
    fold s1 in Hse, Hfi, Him, Hport, Hcase.
    destruct s1 as [a' w'] eqn:E1. cbn [fst snd] in *.
    destruct (stop_camera_world env' a' w')
      as (H1 & H2 & H3 & _ & _ & Hrel & Hnorel & Hclose & Hnoclose & H4 & H5 & _).
    fold s2 in H1, H2, H3, Hrel, Hnorel, Hclose, Hnoclose, H4, H5.
    rewrite H4, H5, Hfi, Him. repeat split; try done.
    - destruct (fst (open_chosen env _ _)) as [c|].
      + destruct Hcase as (Hc & Hn & _ & _ & Heq).
        rewrite (Hrel c Hc Hr'), (Heq Hr), Hc1. rewrite Hc1 in Hn. set_solver.
      + destruct Hcase as (Hc & _ & _ & _ & Heq).
        rewrite Hnorel by congruence. by rewrite (Heq Hr).
    - rewrite Hport in *. destruct (serial_port a1) as [p|].
      + rewrite (Hclose p eq_refl Hcl). by rewrite Hse.
      + rewrite (Hnoclose eq_refl). by rewrite Hse. }
  destruct (open_serial_cases env a w) as [(Hp & Ho)|[(Hp & Hser & Ho)|(Hp & Hser & Ho)]].
  - by apply (Hmain _ _ Ho).
  - apply (Hmain _ _ Ho); try done. cbn. by apply Hfilter.
  - set (w0 := show_error MsgSerialError
                 (emit (EvSerialOpen (serial_port_combo a) false) w)).
    assert (final (start_camera env (a, w)) = (a, w0)) as E1
      by (unfold start_camera; rewrite Ho; reflexivity).
    subst s2 s1. rewrite E1.
    destruct (stop_camera_world env' a w0)
      as (H1 & H2 & H3 & _ & _ & _ & Hnorel & _ & Hnoclose & H4 & H5 & _).
    by rewrite (Hnorel Hcap), (Hnoclose Hsp), H4, H5.
Qed.

Lemma start_then_stop_leaks_nothing_witness :
  let env := Scenario.env in
  let a := Scenario.app "/data" "/dev/ttyUSB0" "42" in
  let w := Scenario.world [] in
  let s2 := final (stop_camera env (final (start_camera env (a, w)))) in
  (release_ok env = true /\ serial_close_ok env = true /\ cams_fresh w
   /\ capture a = None /\ serial_port a = None
   /\ serial_port_combo a ∉ serials_open w)
  /\ cams_open (snd s2) = cams_open w /\ serials_open (snd s2) = serials_open w.
Proof.
  intros env a w s2.
  assert (cams_fresh w) as Hw.
  { intros c H. vm_compute in H. discriminate. }
  assert (serial_port_combo a ∉ serials_open w) as Hnew by apply not_elem_of_nil.
  split; [repeat split; done|].
  destruct (start_then_stop_leaks_nothing env env a w eq_refl eq_refl eq_refl
              Hw eq_refl eq_refl Hnew) as (H1 & H2 & _).
  split; [exact H1|exact H2].
Defined.

(** X8. Over every history of start, stop, tick, snapshot, clear and
    folder selection, in any environments, the handles the application
    holds are live: [self.capture] is an open capture, [self.serial_port]
    an open port, and the timer runs only while a capture is held. No
    method uses a handle after it was released. *)
Theorem handles_stay_valid :
  forall steps s, handles_valid s -> handles_valid (run steps s).
Proof.
  intros steps. induction steps as [|[env act] steps IH]; intros s Hv; [done|].
  cbn [run foldl]. apply IH. by apply perform_valid.
Qed.

Lemma handles_stay_valid_witness :
  let s := (Scenario.app "/data" "/dev/ttyUSB0" "42", Scenario.world [RdFrame 1]) in
  let steps := [(Scenario.env, DoStart); (Scenario.env, DoTick);
                (Scenario.env, DoSnapshot); (Scenario.env, DoStop)] in
  handles_valid s /\ handles_valid (run steps s).
Proof.
  intros s steps.
  assert (handles_valid s) as Hv.
  { split; [|by repeat split]. intros c H. vm_compute in H. discriminate. }
  split; [exact Hv|]. exact (handles_stay_valid steps s Hv).
Defined.
(** ** What the ticks persist *)

Lemma persisted_emits (w w' : World) :
  emits no_persist w w' -> persisted w' = persisted w.
Proof.
  intros (evs & H & F). unfold persisted. rewrite H, omap_app.
  assert (omap persist_id evs = []) as ->.
  { clear H. induction F as [|e evs He _ IH]; [done|].
    cbn. rewrite IH. by destruct e. }
  by rewrite app_nil_r.
Qed.

Lemma store_event_no_persist (e : event) : store_event e -> no_persist e.
Proof. by destruct e. Qed.

Lemma serial_event_no_persist (e : event) : serial_event e -> no_persist e.
Proof. by destruct e. Qed.

Section Persisting.

Context (env : Env).

(** [capture_image] is entered once, for its identifier. *)
Lemma capture_image_persisted (frame : Frame) (sku : str) (a : App) (w : World) :
  persisted (snd (final (capture_image env frame sku (a, w))))
  = persisted w ++ [sku].
Proof.
  rewrite capture_image_unfold. cbv zeta.
  set (w0 := snd (use_default_folder (a, emit (EvPersist sku) w))).
  assert (persisted w0 = persisted w ++ [sku]) as H0.
  { subst w0. rewrite (persisted_emits (emit (EvPersist sku) w)).
    - unfold persisted. cbn. by rewrite omap_app.
    - by apply default_folder_emits. }
  destruct (negb _); cbn [final snd].
  - rewrite <- H0. apply persisted_emits. emits_steps.
  - rewrite <- H0. apply persisted_emits.
    eapply emits_weaken; [apply store_event_no_persist|apply persist_steps_emit].
Qed.

(** What one symbol adds to the set is what it persists. *)
Lemma process_symbol_persisted (frame : Frame) (b : Symbol) (a : App) (w : World) :
  let s' := final (process_symbol env frame b (a, w)) in
  exists news,
    persisted (snd s') = persisted w ++ news
    /\ barcode_set (fst s') = list_to_set news ∪ barcode_set a
    /\ (news = []
        \/ exists text, Utf8.decode (data b) = Some text
                        /\ news = [extract_sku (PyStr.strip text)]
                        /\ extract_sku (PyStr.strip text) ∉ barcode_set a).
Proof.
  cbv zeta. destruct (Utf8.decode (data b)) as [text|] eqn:D.
  2:{ rewrite process_symbol_undecodable by done. exists []. cbn.
      rewrite app_nil_r. repeat split; [set_solver|by left]. }
  set (id := extract_sku (PyStr.strip text)).
  destruct (decide (id ∈ barcode_set a)) as [Hin|Hnew].
  { rewrite (process_symbol_seen env frame b text a w D Hin). exists []. cbn.
    rewrite app_nil_r. repeat split; [set_solver|by left]. }
  exists [id]. rewrite (process_symbol_new env frame b text a w D Hnew). fold id.
  set (a0 := set_barcode_set ({[id]} ∪ barcode_set a) a).
  pose proof (capture_image_persisted frame id a0 w) as Hp.
  destruct (capture_image_entry env frame id a0 w) as (Hset & _).
  destruct (capture_image env frame id (a0, w)) as [[a1 w1]|[a1 w1]];
    cbn [bind final fst snd] in *.
  - rewrite forward_serial_app. cbn [fst].
    split; [|split; [cbn; rewrite Hset; cbn; set_solver|right; by exists text]].
    rewrite <- Hp. apply persisted_emits.
    eapply emits_weaken; [apply serial_event_no_persist|].
    apply (forward_serial_emits env (PyStr.strip text) (_, w1)).
  - split; [done|]. split; [rewrite Hset; cbn; set_solver|right; by exists text].
Qed.

Lemma process_symbols_persisted (frame : Frame) (bs : list Symbol) (s : state) :
  let s' := final (process_symbols env frame bs s) in
  exists news,
    persisted (snd s') = persisted (snd s) ++ news
    /\ NoDup news
    /\ barcode_set (fst s') = list_to_set news ∪ barcode_set (fst s)
    /\ forall id, id ∈ news ->
         id ∉ barcode_set (fst s)
         /\ exists b text, b ∈ bs /\ Utf8.decode (data b) = Some text
                           /\ id = extract_sku (PyStr.strip text).
Proof.
  cbv zeta. revert s. induction bs as [|b bs IH]; intros [a w].
  { exists []. cbn. rewrite app_nil_r. split; [done|].
    split; [apply NoDup_nil_2|]. split; [set_solver|].
    by intros id H%elem_of_nil. }
  cbn [process_symbols].
  destruct (process_symbol_persisted frame b a w) as (n1 & Hp1 & Hs1 & Hn1).
  assert (NoDup n1 /\ forall id, id ∈ n1 ->
            id ∉ barcode_set a
            /\ exists b' text, b' ∈ b :: bs /\ Utf8.decode (data b') = Some text
                               /\ id = extract_sku (PyStr.strip text)) as [Hd1 Ho1].
  { destruct Hn1 as [->|(text & D & -> & Hnew)].
    - split; [apply NoDup_nil_2|]. by intros id H%elem_of_nil.
    - split; [apply NoDup_singleton|].
      intros id ->%list_elem_of_singleton. split; [done|].
      exists b, text. split; [apply list_elem_of_here|done]. }
  destruct (process_symbol env frame b (a, w)) as [[a' w']|[a' w']];
    cbn [bind final fst snd] in *.
  - destruct (IH (a', w')) as (n2 & Hp2 & Hd2 & Hs2 & Ho2). cbn [fst snd] in *.
    exists (n1 ++ n2). split; [by rewrite Hp2, Hp1, app_assoc|].
    split.
    { apply NoDup_app. split; [done|]. split; [|done].
      intros id H1 H2. destruct (Ho2 id H2) as [Hnot _]. apply Hnot.
      rewrite Hs1. set_solver. }
    split; [rewrite Hs2, Hs1, list_to_set_app_L; set_solver|].
    intros id [H|H]%elem_of_app; [by apply Ho1|].
    destruct (Ho2 id H) as (Hnot & b' & text & Hb & D & E).
    split; [rewrite Hs1 in Hnot; set_solver|].
    exists b', text. split; [by apply list_elem_of_further|done].
  - exists n1. done.
Qed.

End Persisting.

Lemma persisted_new_refl (s s' : state) :
  persisted (snd s') = persisted (snd s) ->
  barcode_set (fst s') = barcode_set (fst s) ->
  persisted_new s s' [].
Proof.
  intros Hp Hs. split; [by rewrite app_nil_r|]. split; [apply NoDup_nil_2|].
  split; [rewrite Hs; set_solver|]. by intros id H%elem_of_nil.
Qed.

Lemma persisted_new_trans (s1 s2 s3 : state) (n1 n2 : list str) :
  persisted_new s1 s2 n1 -> persisted_new s2 s3 n2 ->
  persisted_new s1 s3 (n1 ++ n2).
Proof.
  intros (Hp1 & Hd1 & Hs1 & Ho1) (Hp2 & Hd2 & Hs2 & Ho2).
  split; [by rewrite Hp2, Hp1, app_assoc|]. split.
  { apply NoDup_app. split; [done|]. split; [|done].
    intros id H1 H2. apply (Ho2 id H2). rewrite Hs1. set_solver. }
  split; [rewrite Hs2, Hs1, list_to_set_app_L; set_solver|].
  intros id [H|H]%elem_of_app; [by apply Ho1|].
  specialize (Ho2 id H). rewrite Hs1 in Ho2. set_solver.
Qed.

Section Ticks.

Context (env : Env).


Lemma update_frame_stops (a : App) (w : World) (c : nat) :
  capture a = Some c -> no_frame_next w ->
  exists r,
    (forall f, r <> RdFrame f)
    /\ update_frame env (a, w)
       = Returned
           (set_serial_port None (set_capture None (set_timer false a)),
            show_error MsgDisconnected
              (let w1 := release env c (emit (EvRead r) (with_feed (tail (feed w)) w)) in
               match serial_port a with
               | Some p => serial_close env p w1
               | None => w1
               end)).
Proof.
  intros Hc Hn. unfold update_frame, read, no_frame_next in *. rewrite Hc.
  destruct (feed w) as [|[| |f] rest] eqn:Hf; try done.
  - exists RdNothing. split; [done|].
    assert (with_feed [] w = w) as Hw by (destruct w; cbn in *; by subst).
    cbn [tail]. rewrite Hw. by rewrite stop_camera_explicit, Hc.
  - exists RdRaises. split; [done|]. by rewrite stop_camera_explicit, Hc.
  - exists RdNothing. split; [done|]. by rewrite stop_camera_explicit, Hc.
Qed.

Lemma update_frame_persisted (s : state) :
  let s' := final (update_frame env s) in
  exists news,
    persisted_new s s' news
    /\ forall id, id ∈ news ->
         exists frame b text,
           head (feed (snd s)) = Some (RdFrame frame)
           /\ b ∈ default [] (pyzbar_decode env frame)
           /\ Utf8.decode (data b) = Some text
           /\ id = extract_sku (PyStr.strip text).
Proof.
  destruct s as [a w]. cbv zeta. unfold update_frame.
  destruct (capture a) as [c|] eqn:Hc.
  2:{ exists []. split; [by apply persisted_new_refl|]. by intros id H%elem_of_nil. }
  assert (forall w1, persisted w1 = persisted w ->
            exists news,
              persisted_new (a, w)
                (final (stop_camera env (a, w1) >>> fun '(a, w) =>
                        Returned (a, show_error MsgDisconnected w))) news
              /\ forall id, id ∈ news ->
                   exists frame b text,
                     head (feed (snd (a, w))) = Some (RdFrame frame)
                     /\ b ∈ default [] (pyzbar_decode env frame)
                     /\ Utf8.decode (data b) = Some text
                     /\ id = extract_sku (PyStr.strip text)) as Hstop.
  { intros w1 Hw1. exists []. split; [|by intros id H%elem_of_nil].
    destruct (stop_camera_set env (a, w1)) as (Hs & _ & He).
    destruct (stop_camera_returns env (a, w1)) as [[a2 w2] E].
    rewrite E in *. cbn [bind final fst snd] in *.
    apply persisted_new_refl; cbn [fst snd]; [|done].
    rewrite <- Hw1, <- (persisted_emits _ _ He). 
    apply persisted_emits. unfold show_error. emits_steps. }
  unfold read. destruct (feed w) as [|[| |frame] rest] eqn:Hf;
    try (apply Hstop; apply persisted_emits; emits_steps).
  set (bs := default [] (pyzbar_decode env frame)).
  set (s0 := (a, emit (EvDecode frame) (emit (EvRead (RdFrame frame)) (with_feed rest w)))).
  destruct (process_symbols_persisted env frame bs s0) as (news & Hp & Hd & Hs & Ho).
  exists news. split.
  - split; [|split; [done|split; [done|]]].
    + rewrite Hp. f_equal. apply persisted_emits. subst s0. cbn [snd].
      emits_steps.
    + intros id H. by apply Ho.
  - intros id H. destruct (Ho id H) as (_ & b & text & Hb & D & E).
    exists frame, b, text. cbn. by rewrite Hf.
Qed.

End Ticks.

Lemma ticks_persisted (envs : list Env) (s : state) :
  exists news, persisted_new s (ticks envs s) news.
Proof.
  revert s. induction envs as [|env envs IH]; intros s.
  { exists []. by apply persisted_new_refl. }
  cbn [ticks foldl]. fold (ticks envs (final (update_frame env s))).
  destruct (update_frame_persisted env s) as (n1 & H1 & _).
  destruct (IH (final (update_frame env s))) as (n2 & H2).
  exists (n1 ++ n2). by eapply persisted_new_trans.
Qed.

(** X9. A tick whose read raises or returns no frame ends the session:
    the capture is released and forgotten, the serial port closed and
    forgotten, the timer stopped, the error shown last, the scanned set
    kept and nothing persisted; the next tick and the next snapshot do
    nothing at all. *)
Theorem read_failure_ends_the_session :
  forall env env' a w c,
    let s' := final (update_frame env (a, w)) in
    capture a = Some c -> no_frame_next w ->
    returns (update_frame env (a, w)) = true
    /\ capture (fst s') = None /\ serial_port (fst s') = None
    /\ timer_active (fst s') = false
    /\ barcode_set (fst s') = barcode_set a
    /\ persisted (snd s') = persisted w
    /\ EvRelease c ∈ trace (snd s')
    /\ (forall p, serial_port a = Some p -> EvSerialClose p ∈ trace (snd s'))
    /\ last (trace (snd s')) = Some (EvError MsgDisconnected)
    /\ update_frame env' s' = Returned s'
    /\ capture_snapshot env' s' = Returned s'.
Proof.
  intros env env' a w c s' Hc Hn. subst s'.
  destruct (update_frame_stops env a w c Hc Hn) as (r & Hr & ->).
  cbn [returns final fst snd]. split; [done|].
  split; [done|]. split; [done|]. split; [done|]. split; [done|].
  set (w0 := emit (EvRead r) (with_feed (tail (feed w)) w)).
  destruct (release_world env c w0) as (Ht1 & _).
  set (w1 := release env c w0) in *.
  assert (persisted w1 = persisted w) as Hp1.
  { apply persisted_emits. subst w1 w0. unfold release.
    destruct (release_ok env); emits_steps. }
  split.
  { rewrite <- Hp1. apply persisted_emits. unfold show_error, serial_close.
    destruct (serial_port a) as [p|]; [destruct (serial_close_ok env)|];
      emits_steps. }
  split.
  { unfold show_error. cbn. apply elem_of_app. left.
    destruct (serial_port a) as [p|].
    - destruct (serial_close_world env p w1) as (-> & _).
      apply elem_of_app. left. rewrite Ht1. apply elem_of_app. right.
      apply list_elem_of_here.
    - rewrite Ht1. apply elem_of_app. right. apply list_elem_of_here. }
  split.
  { intros p ->. unfold show_error. cbn. apply elem_of_app. left.
    destruct (serial_close_world env p w1) as (-> & _).
    apply elem_of_app. right. apply list_elem_of_here. }
  split; [unfold show_error; cbn; by rewrite last_snoc|].
  split; reflexivity.
Qed.

Lemma read_failure_ends_the_session_witness :
  let env := Scenario.env in
  let s := Scenario.started [] in
  let s' := final (update_frame env s) in
  (capture (fst s) = Some 0%nat /\ no_frame_next (snd s))
  /\ capture (fst s') = None /\ timer_active (fst s') = false
  /\ update_frame env s' = Returned s'.
Proof.
  intros env s s'.
  assert (capture (fst s) = Some 0%nat) as Hc by (vm_compute; reflexivity).
  assert (no_frame_next (snd s)) as Hn by (vm_compute; exact I).
  split; [by split|].
  assert (s = (fst s, snd s)) as E by by destruct s.
  subst s'. rewrite E.
  destruct (read_failure_ends_the_session env env (fst s) (snd s) 0%nat Hc Hn)
    as (_ & H1 & _ & H2 & _ & _ & _ & _ & _ & H3 & _).
  split; [exact H1|]. split; [exact H2|exact H3].
Defined.

(** X10. A tick enters [capture_image] exactly for the identifiers it adds
    to the scanned set, once each; each of them was absent from the set
    before and is the identifier of a symbol decoded from the frame just
    read. Nothing else is persisted by a tick. *)
Theorem tick_persists_exactly_what_it_adds :
  forall env s,
    let s' := final (update_frame env s) in
    exists news,
      persisted (snd s') = persisted (snd s) ++ news
      /\ NoDup news
      /\ barcode_set (fst s') = list_to_set news ∪ barcode_set (fst s)
      /\ forall id, id ∈ news ->
           id ∉ barcode_set (fst s)
           /\ exists frame b text,
                head (feed (snd s)) = Some (RdFrame frame)
                /\ b ∈ default [] (pyzbar_decode env frame)
                /\ Utf8.decode (data b) = Some text
                /\ id = extract_sku (PyStr.strip text).
Proof.
  intros env s s'. subst s'.
  destruct (update_frame_persisted env s) as (news & (Hp & Hd & Hs & Hn) & Ho).
  exists news. repeat split; try done; [by apply Hn|by apply Ho].
Qed.

(** X11. Over any number of ticks, in any environments, no identifier is
    persisted twice and none that was in the scanned set at the start; the
    set at the end is the set at the start plus the identifiers
    persisted. *)
Theorem ticks_persist_each_identifier_once :
  forall envs s,
    exists news,
      persisted (snd (ticks envs s)) = persisted (snd s) ++ news
      /\ NoDup news
      /\ barcode_set (fst (ticks envs s)) = list_to_set news ∪ barcode_set (fst s)
      /\ forall id, id ∈ news -> id ∉ barcode_set (fst s).
Proof.
  intros envs s. destruct (ticks_persisted envs s) as (news & H).
  by exists news.
Qed.

Lemma disk_grows_same (w w' : World) :
  files w' = files w -> images w' = images w -> disk_grows w w'.
Proof.
  intros Hf Hi. split.
  - intros p c H. exists []. by rewrite Hf, app_nil_r.
  - intros p H. by rewrite Hi.
Qed.

Lemma disk_grows_trans (w1 w2 w3 : World) :
  disk_grows w1 w2 -> disk_grows w2 w3 -> disk_grows w1 w3.
Proof.
  intros [Hf1 Hi1] [Hf2 Hi2]. split.
  - intros p c H. destruct (Hf1 p c H) as [m1 H1].
    destruct (Hf2 p _ H1) as [m2 H2]. exists (m1 ++ m2).
    by rewrite H2, app_assoc.
  - intros p H. by apply Hi2, Hi1.
Qed.

Section Disk.

Context (env : Env).

Lemma persist_steps_disk (frame : Frame) (sku : str) (a : App) (w : World) :
  disk_grows w
    (append_log env sku a
       (beep_saved a (write_image env frame sku a (make_order_folder a w)))).
Proof.
  set (w1 := make_order_folder a w).
  set (w2 := write_image env frame sku a w1).
  set (w3 := beep_saved a w2).
  destruct (write_image_files env frame sku a w1) as (Hf2 & _).
  pose proof (write_image_images env frame sku a w1) as Hi2.
  destruct (beep_saved_disk a w2) as (Hf3 & Hi3 & _).
  destruct (append_log_images env sku a w3) as (Hi4 & _).
  pose proof (append_log_files env sku a w3) as Hf4.
  fold w2 in Hf2, Hi2. fold w3 in Hf3, Hi3.
  split.
  - intros p c H. rewrite Hf4, Hf3, Hf2. change (files w1) with (files w).
    destruct (open_append_ok env _); [|exists []; by rewrite app_nil_r].
    destruct (decide (p = log_path a)) as [->|Hne].
    + rewrite lookup_insert_eq, H. cbn. by eexists.
    + rewrite lookup_insert_ne by done. exists []. by rewrite app_nil_r.
  - intros p H. rewrite Hi4, Hi3, Hi2. change (images w1) with (images w).
    destruct (cv2_imwrite env _ _); try done.
    destruct (decide (p = image_path a sku (strftime env))) as [->|Hne].
    + by rewrite lookup_insert_eq.
    + by rewrite lookup_insert_ne.
Qed.

Lemma capture_image_disk (frame : Frame) (sku : str) (a : App) (w : World) :
  disk_grows w (snd (final (capture_image env frame sku (a, w)))).
Proof.
  rewrite capture_image_unfold. cbv zeta.
  set (w0 := snd (use_default_folder (a, emit (EvPersist sku) w))).
  assert (disk_grows w w0) as H0.
  { destruct (default_folder_disk a (emit (EvPersist sku) w)) as (Hf & Hi & _).
    by apply disk_grows_same. }
  destruct (negb _); cbn [final snd].
  - eapply disk_grows_trans; [exact H0|]. by apply disk_grows_same.
  - eapply disk_grows_trans; [exact H0|]. apply persist_steps_disk.
Qed.

Lemma process_symbol_disk (frame : Frame) (b : Symbol) (a : App) (w : World) :
  disk_grows w (snd (final (process_symbol env frame b (a, w)))).
Proof.
  destruct (Utf8.decode (data b)) as [text|] eqn:D.
  2:{ rewrite process_symbol_undecodable by done. by apply disk_grows_same. }
  destruct (decide (extract_sku (PyStr.strip text) ∈ barcode_set a)) as [Hin|Hnew].
  { rewrite (process_symbol_seen env frame b text a w D Hin).
    by apply disk_grows_same. }
  rewrite (process_symbol_new env frame b text a w D Hnew).
  set (id := extract_sku (PyStr.strip text)).
  set (a0 := set_barcode_set ({[id]} ∪ barcode_set a) a).
  pose proof (capture_image_disk frame id a0 w) as H.
  destruct (capture_image env frame id (a0, w)) as [[a1 w1]|[a1 w1]];
    cbn [bind final fst snd] in *; [|done].
  eapply disk_grows_trans; [exact H|].
  destruct (forward_serial_disk env (PyStr.strip text)
              (set_last_barcode (Some (PyStr.strip text)) a1, w1)) as (Hf & Hi & _).
  by apply disk_grows_same.
Qed.

Lemma process_symbols_disk (frame : Frame) (bs : list Symbol) (s : state) :
  disk_grows (snd s) (snd (final (process_symbols env frame bs s))).
Proof.
  revert s. induction bs as [|b bs IH]; intros [a w].
  { by apply disk_grows_same. }
  cbn [process_symbols]. pose proof (process_symbol_disk frame b a w) as H.
  destruct (process_symbol env frame b (a, w)) as [s'|s'];
    cbn [bind final] in *; [|done].
  eapply disk_grows_trans; [exact H|apply IH].
Qed.

Lemma read_disk (w : World) :
  files (snd (read w)) = files w /\ images (snd (read w)) = images w.
Proof. unfold read. by destruct (feed w). Qed.

Lemma update_frame_disk (s : state) :
  disk_grows (snd s) (snd (final (update_frame env s))).
Proof.
  destruct s as [a w]. unfold update_frame.
  destruct (capture a) as [c|]; [|by apply disk_grows_same].
  destruct (read_disk w) as [Hf Hi]. destruct (read w) as [r w1]. cbn [snd] in *.
  assert (disk_grows w
            (snd (final (stop_camera env (a, w1) >>> fun '(a, w) =>
                         Returned (a, show_error MsgDisconnected w))))) as Hstop.
  { destruct (stop_camera_world env a w1) as (_ & _ & _ & _ & _ & _ & _ & _ & _ & H1 & H2 & _).
    destruct (stop_camera_returns env (a, w1)) as [[a2 w2] E].
    rewrite E in *. cbn [bind final fst snd] in *.
    apply disk_grows_same; cbn; congruence. }
  destruct r as [| |frame]; try exact Hstop.
  eapply disk_grows_trans;
    [|apply (process_symbols_disk frame _ (a, emit (EvDecode frame) w1))].
  by apply disk_grows_same.
Qed.

Lemma capture_snapshot_disk (s : state) :
  disk_grows (snd s) (snd (final (capture_snapshot env s))).
Proof.
  destruct s as [a w]. unfold capture_snapshot.
  destruct (capture a) as [c|]; [|by apply disk_grows_same].
  destruct (read_disk w) as [Hf Hi]. destruct (read w) as [r w1]. cbn [snd] in *.
  destruct r as [| |frame]; try by apply disk_grows_same.
  eapply disk_grows_trans; [|apply capture_image_disk].
  by apply disk_grows_same.
Qed.

Lemma detect_loop_disk (indices : list N) (w : World) :
  files (snd (detect_loop env indices w)) = files w
  /\ images (snd (detect_loop env indices w)) = images w.
Proof.
  revert w. induction indices as [|i rest IH]; intros w; [done|].
  cbn [detect_loop].
  destruct (video_capture_accounted env i (truthy (Some (_get_preferred_backend env))) w)
    as [(_ & _ & Hf & Hi & _) _].
  destruct (video_capture env i _ w) as [[c|] w1]; cbn [fst snd] in *.
  - assert (files (release env c w1) = files w1
            /\ images (release env c w1) = images w1) as [Hf2 Hi2]
      by (unfold release; by destruct (release_ok env)).
    destruct (IH (release env c w1)) as [Hf3 Hi3].
    destruct (detect_loop env rest (release env c w1)). cbn [snd] in *.
    split; congruence.
  - destruct (IH w1) as [Hf3 Hi3]. split; congruence.
Qed.

Lemma start_camera_disk (s : state) :
  files (snd (final (start_camera env s))) = files (snd s)
  /\ images (snd (final (start_camera env s))) = images (snd s).
Proof.
  destruct s as [a w]. cbn [snd].
  assert (forall a1 w1, open_serial env (a, w) = Some (a1, w1) ->
            files w1 = files w -> images w1 = images w ->
            files (snd (final (start_camera env (a, w)))) = files w
            /\ images (snd (final (start_camera env (a, w)))) = images w) as Hmain.
  { intros a1 w1 Ho Hf Hi. rewrite (start_camera_stages env a w a1 w1 Ho). cbv zeta.
    assert (files (snd (choose_index env a1 w1)) = files w1
            /\ images (snd (choose_index env a1 w1)) = images w1) as [Hf2 Hi2].
    { unfold choose_index, detect_cameras.
      destruct (camera_combo_current a1); [done|].
      pose proof (detect_loop_disk (range 8) w1) as H.
      by destruct (detect_loop env (range 8) w1). }
    set (r2 := choose_index env a1 w1) in *.
    destruct (open_chosen_accounted env (fst r2) a1 (snd r2))
      as ((_ & _ & Hf3 & Hi3 & _) & _ & _).
    set (r3 := open_chosen env (fst r2) (a1, snd r2)) in *. cbn [fst snd] in *.
    destruct (fst r3) as [c|].
    - destruct (begin_session_keeps env c (fst r2) (fst (snd r3)) (snd (snd r3)))
        as (_ & _ & _ & _ & _ & Hf4 & Hi4 & _).
      assert (begin_session env c (fst r2) (snd r3)
              = begin_session env c (fst r2) (fst (snd r3), snd (snd r3))) as ->
        by by destruct (snd r3).
      cbn [final]. split; congruence.
    - cbn. split; congruence. }
  destruct (open_serial_cases env a w) as [(_ & Ho)|[(_ & _ & Ho)|(_ & _ & Ho)]].
  - by apply (Hmain _ _ Ho).
  - by apply (Hmain _ _ Ho).
  - unfold start_camera. by rewrite Ho.
Qed.

Lemma perform_disk (act : action) (s : state) :
  disk_grows (snd s) (snd (final (perform env act s))).
Proof.
  destruct act; cbn [perform].
  - destruct (start_camera_disk s). by apply disk_grows_same.
  - destruct s as [a w].
    destruct (stop_camera_world env a w) as (_ & _ & _ & _ & _ & _ & _ & _ & _ & H1 & H2 & _).
    by apply disk_grows_same.
  - apply update_frame_disk.
  - apply capture_snapshot_disk.
  - destruct s. by apply disk_grows_same.
  - destruct s. cbn. destruct folder; by apply disk_grows_same.
Qed.

End Disk.

(** X12. Whatever the user and the timer do, in any environments, the
    application never deletes or truncates what is on disk: every log file
    keeps its content as a prefix of what it holds later, and every image
    file stays (a later image of the same name replaces its content). *)
Theorem disk_only_grows :
  forall steps s, disk_grows (snd s) (snd (run steps s)).
Proof.
  intros steps. induction steps as [|[env act] steps IH]; intros s.
  { by apply disk_grows_same. }
  cbn [run foldl]. eapply disk_grows_trans; [apply perform_disk|apply IH].
Qed.

Lemma default_folder_cwd (a : App) (w w' : World) :
  cwd w' = cwd w ->
  fst (use_default_folder (a, w')) = fst (use_default_folder (a, w)).
Proof. intros H. rewrite !default_folder_app. by rewrite H. Qed.

Lemma default_folder_twice (a : App) (w w' : World) :
  cwd w' = cwd w ->
  fst (use_default_folder (fst (use_default_folder (a, w)), w'))
  = fst (use_default_folder (a, w)).
Proof.
  intros H. rewrite !default_folder_app.
  destruct (save_location a) eqn:E.
  - cbn. rewrite H. destruct (cwd w); by destruct a.
  - by rewrite E.
Qed.

Lemma capture_image_cwd (env : Env) (frame : Frame) (sku : str) (a : App) (w : World) :
  cwd (snd (final (capture_image env frame sku (a, w)))) = cwd w.
Proof.
  rewrite capture_image_unfold. cbv zeta. rewrite default_folder_world.
  unfold append_log, beep_saved, write_image, make_order_folder, play_sound.
  set (a1 := fst (use_default_folder (a, w))).
  destruct (negb _), (save_location a); cbn [final snd];
    destruct (open_append_ok env (log_path a1)),
      (settings_get_beep a1 && beep_checkbox a1),
      (cv2_imwrite env (image_path a1 sku (strftime env)) frame); done.
Qed.

(** X13. The image file is named by identifier and second. Two snapshots
    taken within one second therefore write the same file: afterwards the
    disk holds one image, the second frame, while the log has gained two
    records and [capture_image] was entered twice. *)
Theorem snapshots_in_one_second_share_an_image :
  forall env a w c f1 f2 rest,
    let a1 := fst (use_default_folder (a, w)) in
    let path := image_path a1 (py "manual") (strftime env) in
    let old := files w !! log_path a1 in
    let s1 := final (capture_snapshot env (a, w)) in
    let s2 := final (capture_snapshot env s1) in
    capture a = Some c -> feed w = RdFrame f1 :: RdFrame f2 :: rest ->
    makedirs_ok env (order_folder a1) = true ->
    cv2_imwrite env path f1 = ImWritten ->
    cv2_imwrite env path f2 = ImWritten ->
    open_append_ok env (log_path a1) = true ->
    images (snd s1) = <[path := f1]> (images w)
    /\ images (snd s2) = <[path := f2]> (images w)
    /\ files (snd s2) !! log_path a1
       = Some (default [] old ++ log_text old (strftime env) (py "manual")
               ++ record_line (strftime env) (py "manual"))
    /\ persisted (snd s2) = persisted w ++ [py "manual"; py "manual"].
Proof.
  intros env a w c f1 f2 rest a1 path old s1 s2 Hc Hfeed Hmk Hw1 Hw2 Hlog.
  set (w' := emit (EvRead (RdFrame f1)) (with_feed (RdFrame f2 :: rest) w)).
  assert (fst (use_default_folder (a, w')) = a1) as Ha1
    by by apply default_folder_cwd.
  assert (capture_snapshot env (a, w) = capture_image env f1 (py "manual") (a, w'))
    as E1 by by apply (capture_snapshot_reads env a w c f1 _ Hc Hfeed).
  pose proof (capture_image_done env f1 (py "manual") a w') as H1.
  cbv zeta in H1. rewrite Ha1 in H1. specialize (H1 Hmk).
  destruct H1 as (_ & Hs1 & Hi1 & Hf1 & Hd1).
  pose proof (capture_image_persisted env f1 (py "manual") a w') as Hp1.
  pose proof (capture_image_cwd env f1 (py "manual") a w') as Hcwd1.
  rewrite <- E1 in Hs1, Hi1, Hf1, Hd1, Hp1, Hcwd1. fold s1 in Hs1, Hi1, Hf1, Hd1, Hp1, Hcwd1.
  fold path in Hi1. rewrite Hw1 in Hi1. rewrite Hlog in Hf1.
  change (files w') with (files w) in Hf1. change (images w') with (images w) in Hi1.
  change (feed w') with (RdFrame f2 :: rest) in Hd1.
  assert (persisted w' = persisted w) as Hpw
    by (apply persisted_emits; subst w'; emits_steps).
  rewrite Hpw in Hp1.
  fold old in Hf1.
  destruct s1 as [a' w1]. cbn [fst snd] in *. subst a'.
  set (w1' := emit (EvRead (RdFrame f2)) (with_feed rest w1)).
  assert (capture a1 = Some c) as Hc1.
  { subst a1. by destruct (default_folder_fields a w) as (-> & _). }
  assert (fst (use_default_folder (a1, w1')) = a1) as Ha2.
  { subst a1. apply default_folder_twice. cbn. by rewrite Hcwd1. }
  assert (capture_snapshot env (a1, w1) = capture_image env f2 (py "manual") (a1, w1'))
    as E2 by by apply (capture_snapshot_reads env a1 w1 c f2 _ Hc1 Hd1).
  pose proof (capture_image_done env f2 (py "manual") a1 w1') as H2.
  cbv zeta in H2. rewrite Ha2 in H2. specialize (H2 Hmk).
  destruct H2 as (_ & _ & Hi2 & Hf2 & _).
  pose proof (capture_image_persisted env f2 (py "manual") a1 w1') as Hp2.
  rewrite <- E2 in Hi2, Hf2, Hp2. fold s2 in Hi2, Hf2, Hp2.
  fold path in Hi2. rewrite Hw2 in Hi2. rewrite Hlog in Hf2.
  change (files w1') with (files w1) in Hf2. change (images w1') with (images w1) in Hi2.
  split; [done|]. split; [|split].
  - rewrite Hi2, Hi1. apply insert_insert_eq.
  - rewrite Hf2, lookup_insert_eq, Hf1, !lookup_insert_eq. cbn [default log_text].
    unfold id. by rewrite <- app_assoc.
  - assert (persisted w1' = persisted w1) as Hpw1
      by (apply persisted_emits; subst w1'; emits_steps).
    by rewrite Hp2, Hpw1, Hp1, <- app_assoc.
Qed.

Lemma snapshots_in_one_second_share_an_image_witness :
  let env := Scenario.env in
  let s := Scenario.started [RdFrame 1; RdFrame 2] in
  let a1 := fst (use_default_folder (fst s, snd s)) in
  let path := image_path a1 (py "manual") (strftime env) in
  let s2 := final (capture_snapshot env (final (capture_snapshot env (fst s, snd s)))) in
  (capture (fst s) = Some 0%nat /\ feed (snd s) = [RdFrame 1; RdFrame 2]
   /\ makedirs_ok env (order_folder a1) = true
   /\ cv2_imwrite env path 1 = ImWritten /\ cv2_imwrite env path 2 = ImWritten
   /\ open_append_ok env (log_path a1) = true)
  /\ images (snd s2) = <[path := 2]> (images (snd s)).
Proof.
  intros env s a1 path s2.
  assert (capture (fst s) = Some 0%nat) as Hc by (vm_compute; reflexivity).
  assert (feed (snd s) = [RdFrame 1; RdFrame 2]) as Hf by (vm_compute; reflexivity).
  split; [repeat split; done|].
  exact (proj1 (proj2 (snapshots_in_one_second_share_an_image env (fst s) (snd s)
                         0%nat 1 2 [] Hc Hf eq_refl eq_refl eq_refl eq_refl))).
Defined.
(** ** Identifiers, the combo, and the serial line *)

Section Identifier.

Import PyStr SpecRule.

Lemma before_first_prefix (stop : N -> bool) (s : str) :
  before_first stop s `prefix_of` s.
Proof.
  induction s as [|c s IH]; [done|]. cbn [before_first].
  destruct (stop c); [apply prefix_nil|by apply prefix_cons].
Qed.

Lemma rstrip_prefix (s : str) : rstrip s `prefix_of` s.
Proof.
  induction s as [|c s IH]; [done|]. cbn [rstrip].
  destruct (rstrip s) as [|r rs].
  - destruct (isspace c); [apply prefix_nil|]. apply prefix_cons, prefix_nil.
  - by apply prefix_cons.
Qed.

Lemma lstrip_all_space (s : str) :
  lstrip s = [] -> forallb isspace s = true.
Proof.
  induction s as [|c s IH]; [done|]. cbn [lstrip forallb].
  destruct (isspace c); [exact IH|done].
Qed.

(** The token [extract_sku] returns, when there is one. *)
Lemma extract_sku_token (v : str) (c : N) (t : str) :
  lstrip v = c :: t ->
  extract_sku v = before_first (N.eqb minus) (before_first isspace (c :: t)).
Proof.
  intros E. rewrite extract_sku_rule. unfold identifier, normalize.
  destruct (strip v) as [|c' t'] eqn:E'.
  { apply strip_nil_iff in E'. congruence. }
  cbn [default]. rewrite <- E'. unfold strip. by rewrite before_first_rstrip, E.
Qed.

Lemma extract_sku_blank (v : str) : lstrip v = [] -> extract_sku v = v.
Proof.
  intros E. rewrite extract_sku_rule. unfold identifier, normalize.
  apply strip_nil_iff in E. by rewrite E.
Qed.

End Identifier.

(** X14. [extract_sku] is idempotent and its result never holds a ['-'].
    When the text has a token (it is not blank) the result is a prefix of
    the text without its leading whitespace and holds no whitespace; a
    blank text is returned as it is. *)
Theorem extract_sku_is_idempotent :
  forall v,
    extract_sku (extract_sku v) = extract_sku v
    /\ minus ∉ extract_sku v
    /\ match PyStr.lstrip v with
       | [] => extract_sku v = v
       | t => extract_sku v `prefix_of` t
              /\ forall c, c ∈ extract_sku v -> PyStr.isspace c = false
       end.
Proof.
  intros v. destruct (PyStr.lstrip v) as [|c t] eqn:E.
  - pose proof (extract_sku_blank v E) as Hv. rewrite !Hv.
    split; [done|]. split; [|done].
    intros Hin. apply lstrip_all_space in E.
    apply list_elem_of_In in Hin.
    by apply (proj1 (forallb_forall _ _) E) in Hin.
  - pose proof (extract_sku_token v c t E) as Hv. rewrite !Hv.
    set (r := SpecRule.before_first (N.eqb minus)
                (SpecRule.before_first PyStr.isspace (c :: t))).
    assert (forall x, x ∈ r -> PyStr.isspace x = false) as Hsp.
    { intros x Hx. by apply before_first_elem, before_first_stops in Hx. }
    assert (forall x, x ∈ r -> (minus =? x) = false) as Hm.
    { intros x Hx. by apply before_first_stops in Hx. }
    split; [|split; [|split; [|done]]].
    + apply extract_sku_plain. apply forallb_forall. intros x Hx%list_elem_of_In.
      rewrite (Hsp x Hx), N.eqb_sym, (Hm x Hx). done.
    + intros Hin. apply Hm in Hin. by rewrite N.eqb_refl in Hin.
    + etrans; apply before_first_prefix.
Qed.

Section Populate.

Context (env : Env).

(** What [detect_cameras] finds does not depend on [release()]. *)
Lemma detect_loop_found (indices : list N) (w : World) :
  fst (detect_loop env indices w) = List.filter (opens_preferred env) indices.
Proof.
  revert w. induction indices as [|i rest IH]; intros w; [done|].
  cbn [detect_loop List.filter]. unfold opens_preferred at 1.
  destruct (video_capture_accounted env i (truthy (Some (_get_preferred_backend env))) w)
    as [_ Hiff].
  destruct (video_capture env i _ w) as [[c|] w1]; cbn [fst] in Hiff.
  - rewrite (proj1 Hiff) by by eexists.
    specialize (IH (release env c w1)).
    destruct (detect_loop env rest (release env c w1)). cbn [fst] in *.
    by rewrite IH.
  - destruct (is_opened _) eqn:E; [|apply IH].
    destruct (proj2 Hiff eq_refl) as [? [=]].
Qed.

Lemma load_existing_set (order : str) (a a' : App) (w w' : World) :
  save_location a' = save_location a -> files w' = files w ->
  barcode_set (fst (load_existing_barcodes env order (a', w')))
  = barcode_set (fst (load_existing_barcodes env order (a, w))).
Proof.
  intros Hs Hf. unfold load_existing_barcodes. rewrite Hs, Hf.
  destruct (files w !! _); [|done].
  destruct (pd_read_csv env _ _); [|done]. by destruct (column _ _).
Qed.

End Populate.

(** X15. [populate_camera_indices] fills the combo with the indices below
    [max_test] that open with the preferred backend, in order, and selects
    the first; when none opens it lists the single index 0 although it did
    not open. The combo is never left empty or without a selection, nothing
    else of the application changes, and nothing is written. *)
Theorem populate_lists_what_opens :
  forall env max_test s,
    let s' := populate_camera_indices env max_test s in
    let found := List.filter (opens_preferred env) (range max_test) in
    camera_combo (fst s') = match found with [] => [0] | _ => found end
    /\ camera_combo_current (fst s') = head (camera_combo (fst s'))
    /\ is_Some (camera_combo_current (fst s'))
    /\ (forall i, i ∈ camera_combo (fst s') ->
                  i = 0 \/ (opens_preferred env i = true
                            /\ (N.to_nat i < max_test)%nat))
    /\ same_but_combo (fst s) (fst s')
    /\ files (snd s') = files (snd s) /\ images (snd s') = images (snd s).
Proof.
  intros env max_test [a w] s' found. subst s'.
  unfold populate_camera_indices, detect_cameras. cbn [fst snd].
  pose proof (detect_loop_found env (range max_test) w) as Hfound.
  destruct (detect_loop_disk env (range max_test) w) as [Hf Hi].
  destruct (detect_loop env (range max_test) w) as [cameras w1].
  cbn [fst snd] in *. fold found in Hfound. subst cameras.
  assert (forall i, i ∈ found -> opens_preferred env i = true
                                 /\ (N.to_nat i < max_test)%nat) as Hin.
  { intros i Hi'. subst found. apply list_elem_of_In, filter_In in Hi' as [Hr Ho].
    split; [done|]. apply list_elem_of_In in Hr. unfold range in Hr.
    apply list_elem_of_fmap in Hr as (k & -> & Hk).
    apply elem_of_seq in Hk. lia. }
  destruct found as [|first rest] eqn:E; cbn.
  - split; [done|]. split; [done|]. split; [by eexists|]. split.
    { intros i ->%list_elem_of_singleton. by left. }
    split; [by eexists _, _|done].
  - split; [done|]. split; [done|]. split; [by eexists|]. split.
    { intros i Hi'. right. by apply Hin. }
    split; [by eexists _, _|done].
Qed.

Section Seeding.

Context (env : Env).

(** The set [load_existing_barcodes] leaves: the cells of the SKU column
    of the log as strings, and nothing of what the set held. *)
Lemma load_existing_result (order : str) (a : App) (w : World) :
  let path := path_join (path_join (save_location a) order) log_name in
  barcode_set (fst (load_existing_barcodes env order (a, w)))
  = match files w !! path with
    | None => ∅
    | Some content =>
        match pd_read_csv env path content with
        | None => ∅
        | Some df =>
            match column (py "SKU") df with
            | None => ∅
            | Some col => list_to_set (astype_str <$> col)
            end
        end
    end.
Proof.
  cbv zeta. unfold load_existing_barcodes.
  destruct (files w !! _); [|done].
  destruct (pd_read_csv env _ _); [|done].
  destruct (column _ _); [|done]. cbn. set_solver.
Qed.

(** The search for a camera does not look at the scanned set. *)
Lemma scan_loop_set (seen : gset str) (indices : list N) (a : App) (w : World) :
  scan_loop env indices (set_barcode_set seen a, w)
  = (fst (scan_loop env indices (a, w)),
     (set_barcode_set seen (fst (snd (scan_loop env indices (a, w)))),
      snd (snd (scan_loop env indices (a, w))))).
Proof.
  revert w. induction indices as [|i rest IH]; intros w; [done|].
  cbn [scan_loop fst snd].
  destruct (_open_camera_with_fallback env i w) as [[c|] w1]; [done|].
  apply IH.
Qed.

Lemma open_chosen_set (seen : gset str) (use_index : option N) (a : App) (w : World) :
  open_chosen env use_index (set_barcode_set seen a, w)
  = (fst (open_chosen env use_index (a, w)),
     (set_barcode_set seen (fst (snd (open_chosen env use_index (a, w)))),
      snd (snd (open_chosen env use_index (a, w))))).
Proof.
  unfold open_chosen, _scan_and_open_any_camera. cbn [fst snd].
  destruct use_index as [i|]; [|apply scan_loop_set].
  destruct (_open_camera_with_fallback env i w) as [[c|] w1]; [done|].
  apply scan_loop_set.
Qed.

(** Whether [start_camera] starts the timer does not depend on the scanned
    set, and with a save folder neither does the set it leaves. *)
Lemma start_camera_set (seen : gset str) (a : App) (w : World) :
  let s' := final (start_camera env (a, w)) in
  let s'' := final (start_camera env (set_barcode_set seen a, w)) in
  timer_active (fst s'') = timer_active (fst s')
  /\ (save_location a <> [] -> timer_active a = false ->
      timer_active (fst s') = true ->
      barcode_set (fst s'') = barcode_set (fst s')).
Proof.
  cbv zeta.
  assert (forall p w1,
            open_serial env (a, w) = Some (set_serial_port p a, w1) ->
            open_serial env (set_barcode_set seen a, w)
            = Some (set_serial_port p (set_barcode_set seen a), w1) ->
            timer_active (fst (final (start_camera env (set_barcode_set seen a, w))))
            = timer_active (fst (final (start_camera env (a, w))))
            /\ (save_location a <> [] -> timer_active a = false ->
                timer_active (fst (final (start_camera env (a, w)))) = true ->
                barcode_set (fst (final (start_camera env (set_barcode_set seen a, w))))
                = barcode_set (fst (final (start_camera env (a, w)))))) as Hmain.
  { intros p w1 Ho Ho'.
    rewrite (start_camera_stages env a w _ _ Ho),
      (start_camera_stages env _ w _ _ Ho'). cbv zeta.
    change (choose_index env (set_serial_port p (set_barcode_set seen a)) w1)
      with (choose_index env (set_serial_port p a) w1).
    set (r2 := choose_index env (set_serial_port p a) w1).
    change (set_serial_port p (set_barcode_set seen a))
      with (set_barcode_set seen (set_serial_port p a)).
    rewrite open_chosen_set.
    set (r3 := open_chosen env (fst r2) (set_serial_port p a, snd r2)).
    destruct (open_chosen_accounted env (fst r2) (set_serial_port p a) (snd r2))
      as (_ & (items & cur & Hsame) & Hnone). fold r3 in Hsame, Hnone.
    cbn [fst snd]. destruct (fst r3) as [c|].
    - assert (begin_session env c (fst r2) (snd r3)
              = begin_session env c (fst r2) (fst (snd r3), snd (snd r3))) as ->
        by by destruct (snd r3).
      cbn [final].
      destruct (begin_session_keeps env c (fst r2) (fst (snd r3)) (snd (snd r3)))
        as (_ & Ht & _).
      destruct (begin_session_keeps env c (fst r2)
                  (set_barcode_set seen (fst (snd r3))) (snd (snd r3)))
        as (_ & Ht' & _).
      split; [congruence|]. intros Hloc _ _.
      rewrite !begin_session_with_folder by (rewrite Hsame; exact Hloc).
      cbv zeta. cbn [fst].
      change (barcode_set (set_timer true ?x)) with (barcode_set x).
      by apply load_existing_set.
    - cbn [final fst snd]. split; [done|]. intros _ H1 H2.
      rewrite (Hnone eq_refl) in H2. cbn in H2. congruence. }
  destruct (open_serial_cases env a w) as [(Hp & Ho)|[(Hp & Hser & Ho)|(Hp & Hser & Ho)]].
  - apply (Hmain _ _ Ho). unfold open_serial.
    cbn [serial_port_combo set_barcode_set]. by rewrite bool_decide_eq_true_2.
  - apply (Hmain _ _ Ho). unfold open_serial.
    cbn [serial_port_combo set_barcode_set].
    rewrite bool_decide_eq_false_2 by done. by rewrite Hser.
  - assert (open_serial env (set_barcode_set seen a, w) = None) as Ho'.
    { unfold open_serial. cbn [serial_port_combo set_barcode_set].
      rewrite bool_decide_eq_false_2 by done. by rewrite Hser. }
    unfold start_camera. rewrite Ho, Ho'. cbn. split; [done|].
    intros _ H1 H2. congruence.
Qed.

End Seeding.

(** X16. [start_camera] replaces the scanned set only when it gets a
    camera and a save folder is selected: the set is then the cells of the
    SKU column of the order log, as strings, and empty when the log is
    missing, unreadable or without that column; it is the same whatever the
    set held before. Without a save folder, and whenever the start fails,
    the set is left as it was. *)
Theorem start_seeds_the_set_from_the_log :
  forall env a w,
    let s' := final (start_camera env (a, w)) in
    let path := log_path a in
    (save_location a = [] -> barcode_set (fst s') = barcode_set a)
    /\ (timer_active a = false -> timer_active (fst s') = false ->
        barcode_set (fst s') = barcode_set a)
    /\ (save_location a <> [] -> timer_active a = false ->
        timer_active (fst s') = true ->
        barcode_set (fst s')
        = match files w !! path with
          | None => ∅
          | Some content =>
              match pd_read_csv env path content with
              | None => ∅
              | Some df =>
                  match column (py "SKU") df with
                  | None => ∅
                  | Some col => list_to_set (astype_str <$> col)
                  end
              end
          end
        /\ forall seen,
             barcode_set (fst (final (start_camera env (set_barcode_set seen a, w))))
             = barcode_set (fst s')).
Proof.
  intros env a w s' path. subst s' path.
  assert (forall a1 w1, open_serial env (a, w) = Some (a1, w1) ->
            files w1 = files w -> (exists p, a1 = set_serial_port p a) ->
            let s' := final (start_camera env (a, w)) in
            (save_location a = [] -> barcode_set (fst s') = barcode_set a)
            /\ (timer_active a = false -> timer_active (fst s') = false ->
                barcode_set (fst s') = barcode_set a)
            /\ (save_location a <> [] -> timer_active a = false ->
                timer_active (fst s') = true ->
                barcode_set (fst s')
                = barcode_set (fst (load_existing_barcodes env (order_number a) (a, w)))))
    as Hmain.
  { intros a1 w1 Ho Hf1 [p ->]. cbv zeta.
    rewrite (start_camera_stages env a w _ _ Ho). cbv zeta.
    assert (files (snd (choose_index env (set_serial_port p a) w1)) = files w1) as Hf2.
    { unfold choose_index, detect_cameras.
      destruct (camera_combo_current _); [done|].
      destruct (detect_loop_disk env (range 8) w1) as [H _].
      by destruct (detect_loop env (range 8) w1). }
    set (r2 := choose_index env (set_serial_port p a) w1) in *.
    destruct (open_chosen_accounted env (fst r2) (set_serial_port p a) (snd r2))
      as ((_ & _ & Hf3 & _) & (items & cur & Hsame) & Hnone).
    set (r3 := open_chosen env (fst r2) (set_serial_port p a, snd r2)) in *.
    cbn [fst snd] in *.
    destruct (fst r3) as [c|].
    - assert (begin_session env c (fst r2) (snd r3)
              = begin_session env c (fst r2) (fst (snd r3), snd (snd r3))) as ->
        by by destruct (snd r3).
      cbn [final].
      destruct (begin_session_keeps env c (fst r2) (fst (snd r3)) (snd (snd r3)))
        as (_ & Ht & _).
      split; [|split].
      + intros Hloc. unfold begin_session. cbn [fst snd]. rewrite Hsame. cbn.
        by rewrite Hloc.
      + intros _ Hoff. congruence.
      + intros Hloc _ _. rewrite begin_session_with_folder
          by (rewrite Hsame; exact Hloc).
        cbv zeta. cbn [fst].
        change (barcode_set (set_timer true ?x)) with (barcode_set x).
        rewrite Hsame.
        change (order_number (set_camera_index _ _)) with (order_number a).
        apply load_existing_set; [done|congruence].
    - cbn [final fst snd]. rewrite (Hnone eq_refl). cbn.
      split; [done|]. split; [done|]. intros _ H1 H2. congruence. }
  assert (let s' := final (start_camera env (a, w)) in
          (save_location a = [] -> barcode_set (fst s') = barcode_set a)
          /\ (timer_active a = false -> timer_active (fst s') = false ->
              barcode_set (fst s') = barcode_set a)
          /\ (save_location a <> [] -> timer_active a = false ->
              timer_active (fst s') = true ->
              barcode_set (fst s')
              = barcode_set (fst (load_existing_barcodes env (order_number a) (a, w)))))
    as (H1 & H2 & H3).
  { destruct (open_serial_cases env a w) as [(_ & Ho)|[(_ & _ & Ho)|(_ & _ & Ho)]].
    - apply (Hmain _ _ Ho); [done|by eexists].
    - apply (Hmain _ _ Ho); [done|by eexists].
    - unfold start_camera. rewrite Ho. cbn.
      split; [done|]. split; [done|]. intros _ Ha Hb. congruence. }
  split; [exact H1|]. split; [exact H2|].
  intros Hloc Hoff Hon. split.
  - rewrite (H3 Hloc Hoff Hon). apply load_existing_result.
  - intros seen. by apply start_camera_set.
Qed.

Lemma start_seeds_the_set_from_the_log_witness :
  let env := Scenario.env in
  let a := Scenario.app "/data" "/dev/ttyUSB0" "42" in
  let w := Scenario.world_with_log [] in
  let s' := final (start_camera env (a, w)) in
  (save_location a <> [] /\ timer_active a = false
   /\ timer_active (fst s') = true)
  /\ forall seen,
       barcode_set (fst (final (start_camera env (set_barcode_set seen a, w))))
       = barcode_set (fst s').
Proof.
  intros env a w s'.
  assert (save_location a <> []) as Hloc by discriminate.
  assert (timer_active (fst s') = true) as Hon by (vm_compute; reflexivity).
  split; [by repeat split|].
  destruct (start_seeds_the_set_from_the_log env a w) as (_ & _ & H).
  exact (proj2 (H Hloc eq_refl Hon)).
Defined.

Lemma legacy_stop_explicit (env : Env) (a : App) (w : World) :
  release_ok env = true -> serial_close_ok env = true ->
  Legacy.stop_camera env (a, w)
  = Returned
      (set_last_barcode None (set_barcode_set ∅ (set_timer false a)),
       let w1 := match capture a with Some c => release env c w | None => w end in
       match serial_port a with Some p => serial_close env p w1 | None => w1 end).
Proof.
  intros Hr Hc. unfold Legacy.stop_camera. rewrite Hr, Hc.
  destruct a as [cap ? ? ? ? ? sp ? ? ? ? ? ?]. by destruct cap, sp.
Qed.

(** X17. The older [stop_camera] releases the capture and closes the port
    but leaves both in their attributes: after it the application holds a
    released capture, and a second call releases the same capture
    again. *)
Theorem legacy_stop_keeps_released_handles :
  forall env a w c,
    let s1 := final (Legacy.stop_camera env (a, w)) in
    let s2 := final (Legacy.stop_camera env s1) in
    capture a = Some c -> release_ok env = true ->
    serial_close_ok env = true ->
    capture (fst s1) = Some c /\ c ∉ cams_open (snd s1)
    /\ ~ handles_valid s1
    /\ exists evs1 evs2,
         trace (snd s2) = trace w ++ EvRelease c :: evs1 ++ EvRelease c :: evs2.
Proof.
  intros env a w c s1 s2 Hc Hr Hcl. subst s2 s1.
  rewrite (legacy_stop_explicit env a w Hr Hcl). cbn [final].
  rewrite legacy_stop_explicit by done. cbn [final fst snd].
  cbn [capture serial_port set_last_barcode set_barcode_set set_timer].
  rewrite Hc. cbv zeta.
  destruct (release_world env c w) as (Ht & _ & Hout). specialize (Hout Hr).
  set (w1 := release env c w) in *.
  destruct (serial_port a) as [p|] eqn:Hp.
  - destruct (serial_close_world env p w1) as (Ht2 & Hc2 & _).
    set (w2 := serial_close env p w1) in *.
    split; [done|]. split; [by rewrite Hc2|]. split.
    { intros (_ & H & _). cbn in H. specialize (H c Hc). by rewrite Hc2 in H. }
    destruct (release_world env c w2) as (Ht3 & _).
    destruct (serial_close_world env p (release env c w2)) as (Ht4 & _).
    exists [EvSerialClose p], [EvSerialClose p].
    rewrite Ht4, Ht3, Ht2, Ht. by rewrite <- !app_assoc.
  - split; [done|]. split; [done|]. split.
    { intros (_ & H & _). cbn in H. by specialize (H c Hc). }
    destruct (release_world env c w1) as (Ht3 & _).
    exists [], []. rewrite Ht3, Ht. by rewrite <- !app_assoc.
Qed.

Lemma legacy_stop_keeps_released_handles_witness :
  let env := Scenario.env in
  let s := Scenario.started [] in
  let s1 := final (Legacy.stop_camera env (fst s, snd s)) in
  (capture (fst s) = Some 0%nat /\ release_ok env = true
   /\ serial_close_ok env = true)
  /\ capture (fst s1) = Some 0%nat /\ 0%nat ∉ cams_open (snd s1).
Proof.
  intros env s s1.
  assert (capture (fst s) = Some 0%nat) as Hc by (vm_compute; reflexivity).
  split; [repeat split; done|].
  destruct (legacy_stop_keeps_released_handles env (fst s) (snd s) 0%nat
              Hc eq_refl eq_refl) as (H1 & H2 & _).
  split; [exact H1|exact H2].
Defined.


Section Forwarding.

Context (env : Env).

Lemma persist_keeps_serial_writes (frame : Frame) (id : str) (a a1 : App) (w : World) :
  serial_writes
    (append_log env id a1
       (beep_saved a1
          (write_image env frame id a1
             (make_order_folder a1
                (snd (use_default_folder (a, emit (EvPersist id) w)))))))
  = serial_writes w.
Proof.
  set (w0 := snd (use_default_folder (a, emit (EvPersist id) w))).
  transitivity (serial_writes w0).
  - eapply (serial_writes_emits store_event); [|apply persist_steps_emit].
    intros e He. apply store_event_no_serial. by left.
  - transitivity (serial_writes (emit (EvPersist id) w)).
    + by eapply (serial_writes_emits (fun e => serial_bytes e = None));
        [|apply default_folder_emits].
    + unfold serial_writes. cbn. rewrite omap_app. cbn. by rewrite app_nil_r.
Qed.

Lemma process_symbol_serial (frame : Frame) (b : Symbol) (text : str)
    (a : App) (w : World) (p : str) (bs : list N) :
  let id := extract_sku (PyStr.strip text) in
  let a1 := fst (use_default_folder (a, w)) in
  Utf8.decode (data b) = Some text ->
  id ∉ barcode_set a ->
  serial_port a = Some p ->
  makedirs_ok env (order_folder a1) = true ->
  Utf8.encode (PyStr.strip text ++ [newline]) = Some bs ->
  serial_writes (snd (final (process_symbol env frame b (a, w))))
  = serial_writes w ++ (if serial_write_ok env bs then [bs] else []).
Proof.
  intros id a1 D Hnew Hp Hmk Hbs.
  rewrite (process_symbol_new_ok env frame b text a w D Hnew Hmk).
  fold id a1. cbn [final].
  set (wp := append_log env id a1 _).
  assert (serial_port (set_last_barcode (Some (PyStr.strip text))
            (set_barcode_set ({[id]} ∪ barcode_set a) a1)) = Some p) as Hp1.
  { cbn. subst a1. rewrite default_folder_app. by destruct (save_location a). }
  unfold serial_writes at 1.
  rewrite (forward_serial_trace env _ _ wp p bs Hp1 Hbs).
  rewrite omap_app. fold (serial_writes wp).
  subst wp. rewrite persist_keeps_serial_writes.
  f_equal. destruct (serial_write_ok env bs); [done|].
  by destruct (settings_get_beep _).
Qed.

End Forwarding.

(** X18. A newly recorded scan whose payload has no surrounding whitespace
    is forwarded byte for byte: what the serial line receives is the octets
    of the symbol as the decoder delivered them, followed by a newline. The
    decoding and re-encoding in between change nothing. *)
Theorem scan_is_forwarded_byte_for_byte :
  forall env frame b text a w p,
    let id := extract_sku (PyStr.strip text) in
    let a1 := fst (use_default_folder (a, w)) in
    let o := process_symbol env frame b (a, w) in
    Utf8.decode (data b) = Some text ->
    PyStr.strip text = text ->
    id ∉ barcode_set a ->
    serial_port a = Some p ->
    makedirs_ok env (order_folder a1) = true ->
    serial_write_ok env (data b ++ [newline]) = true ->
    returns o = true
    /\ serial_writes (snd (final o)) = serial_writes w ++ [data b ++ [newline]].
Proof.
  intros env frame b text a w p id a1 o D Hstrip Hnew Hp Hmk Hok.
  assert (Utf8.encode (PyStr.strip text ++ [newline]) = Some (data b ++ [newline]))
    as Hbs.
  { rewrite Hstrip. apply encode_app; [by apply encode_decode|done]. }
  split.
  - subst o. by rewrite (process_symbol_new_ok env frame b text a w D Hnew Hmk).
  - subst o. rewrite (process_symbol_serial env frame b text a w p _ D Hnew Hp Hmk Hbs).
    by rewrite Hok.
Qed.

Lemma scan_is_forwarded_byte_for_byte_witness :
  let env := Scenario.env in
  let s := Scenario.started [RdFrame 1] in
  let b := Scenario.symbol_of "A" in
  let text := py "A" in
  let o := process_symbol env 1 b (fst s, snd s) in
  (Utf8.decode (data b) = Some text /\ PyStr.strip text = text
   /\ extract_sku (PyStr.strip text) ∉ barcode_set (fst s)
   /\ serial_port (fst s) = Some (py "/dev/ttyUSB0")
   /\ makedirs_ok env (order_folder (fst (use_default_folder (fst s, snd s)))) = true
   /\ serial_write_ok env (data b ++ [newline]) = true)
  /\ serial_writes (snd (final o)) = serial_writes (snd s) ++ [data b ++ [newline]].
Proof.
  intros env s b text o.
  assert (extract_sku (PyStr.strip text) ∉ barcode_set (fst s)) as Hnew.
  { intros H. vm_compute in H. discriminate. }
  assert (Utf8.decode (data b) = Some text) as D by (vm_compute; reflexivity).
  assert (PyStr.strip text = text) as Hs by (vm_compute; reflexivity).
  assert (serial_port (fst s) = Some (py "/dev/ttyUSB0")) as Hp
    by (vm_compute; reflexivity).
  split; [repeat split; done|].
  exact (proj2 (scan_is_forwarded_byte_for_byte env 1 b text (fst s) (snd s)
                  (py "/dev/ttyUSB0") D Hs Hnew Hp eq_refl eq_refl)).
Defined.

(** X19. [clear_session] makes every identifier new again: the next tick
    that decodes a symbol persists it whatever the scanned set held before
    the clearing, so an identifier already in the order log is written
    there a second time. *)
Theorem clear_session_makes_identifiers_new :
  forall env a w c frame rest b text,
    let id := extract_sku (PyStr.strip text) in
    let s0 := final (clear_session (a, w)) in
    let s' := final (update_frame env s0) in
    capture a = Some c -> feed w = RdFrame frame :: rest ->
    pyzbar_decode env frame = Some [b] ->
    Utf8.decode (data b) = Some text ->
    barcode_set (fst s0) = ∅
    /\ persisted (snd s') = persisted w ++ [id]
    /\ barcode_set (fst s') = {[id]}.
Proof.
  intros env a w c frame rest b text id s0 s' Hc Hf Hdec D.
  split; [done|]. subst s' s0.
  set (a0 := set_last_barcode None (set_barcode_set ∅ a)).
  change (final (clear_session (a, w)))
    with (a0, emit (EvInfo MsgSessionCleared) w).
  rewrite (update_frame_reads env a0 (emit (EvInfo MsgSessionCleared) w)
             c frame rest Hc Hf), Hdec.
  cbn [default]. unfold Datatypes.id. cbn [process_symbols].
  set (w0 := emit (EvDecode frame) _).
  assert (persisted w0 = persisted w) as Hw0
    by (apply persisted_emits; subst w0; emits_steps).
  assert (id ∉ barcode_set a0) as Hnew by (cbn; set_solver).
  rewrite (process_symbol_new env frame b text a0 w0 D Hnew). fold id.
  set (a2 := set_barcode_set ({[id]} ∪ barcode_set a0) a0).
  pose proof (capture_image_persisted env frame id a2 w0) as Hp.
  destruct (capture_image_entry env frame id a2 w0) as (Hset & _).
  destruct (capture_image env frame id (a2, w0)) as [[a3 w3]|[a3 w3]];
    cbn [bind final fst snd] in *.
  - rewrite forward_serial_app. cbn [fst set_last_barcode barcode_set].
    split; [|rewrite Hset; cbn; set_solver].
    rewrite <- Hw0, <- Hp. apply persisted_emits.
    eapply emits_weaken; [apply serial_event_no_persist|].
    apply (forward_serial_emits env (PyStr.strip text) (_, w3)).
  - split; [by rewrite Hp, Hw0|rewrite Hset; cbn; set_solver].
Qed.

Lemma clear_session_makes_identifiers_new_witness :
  let env := Scenario.env in
  let s := Scenario.started [RdFrame 3] in
  let b := Scenario.symbol_of "007" in
  let text := py "007" in
  let s' := final (update_frame env (final (clear_session (fst s, snd s)))) in
  (capture (fst s) = Some 0%nat /\ feed (snd s) = [RdFrame 3]
   /\ pyzbar_decode env 3 = Some [b] /\ Utf8.decode (data b) = Some text)
  /\ persisted (snd s') = persisted (snd s) ++ [extract_sku (PyStr.strip text)].
Proof.
  intros env s b text s'.
  assert (capture (fst s) = Some 0%nat) as Hc by (vm_compute; reflexivity).
  assert (feed (snd s) = [RdFrame 3]) as Hf by (vm_compute; reflexivity).
  assert (Utf8.decode (data b) = Some text) as D by (vm_compute; reflexivity).
  split; [repeat split; done|].
  exact (proj1 (proj2 (clear_session_makes_identifiers_new env (fst s) (snd s)
                         0%nat 3 [] b text Hc Hf eq_refl D))).
Defined.

(** X20. [os.makedirs] is outside every [try]: when it fails for a new
    identifier the exception leaves the loop over the symbols. Nothing is
    written or sent, the symbols after it in the frame are not looked at,
    and the identifier stays in the scanned set although nothing was
    stored for it. *)
Theorem makedirs_failure_abandons_the_frame :
  forall env frame b rest text a w,
    let id := extract_sku (PyStr.strip text) in
    let a1 := fst (use_default_folder (a, w)) in
    let o := process_symbols env frame (b :: rest) (a, w) in
    Utf8.decode (data b) = Some text ->
    id ∉ barcode_set a ->
    makedirs_ok env (order_folder a1) = false ->
    returns o = false
    /\ barcode_set (fst (final o)) = {[id]} ∪ barcode_set a
    /\ last_barcode (fst (final o)) = last_barcode a
    /\ persisted (snd (final o)) = persisted w ++ [id]
    /\ files (snd (final o)) = files w /\ images (snd (final o)) = images w
    /\ serial_writes (snd (final o)) = serial_writes w.
Proof.
  intros env frame b rest text a w id a1 o D Hnew Hmk. subst o.
  cbn [process_symbols].
  rewrite (process_symbol_new_raises env frame b text a w D Hnew Hmk).
  fold id a1. cbn [bind returns final fst snd].
  destruct (default_folder_fields a w) as (_ & _ & _ & Hb & Hl & _). fold a1 in Hb, Hl.
  destruct (default_folder_disk a (emit (EvPersist id) w)) as (Hf & Hi & _).
  set (w0 := snd (use_default_folder (a, emit (EvPersist id) w))) in *.
  split; [done|]. split; [done|]. split; [done|].
  assert (persisted w0 = persisted w ++ [id]) as Hp0.
  { subst w0. rewrite (persisted_emits (emit (EvPersist id) w)).
    - unfold persisted. cbn. by rewrite omap_app.
    - by apply default_folder_emits. }
  split; [rewrite <- Hp0; apply persisted_emits; emits_steps|].
  split; [done|]. split; [done|].
  transitivity (serial_writes w0).
  - unfold serial_writes. cbn. rewrite omap_app. cbn. by rewrite app_nil_r.
  - transitivity (serial_writes (emit (EvPersist id) w)).
    + by eapply (serial_writes_emits (fun e => serial_bytes e = None));
        [|apply default_folder_emits].
    + unfold serial_writes. cbn. rewrite omap_app. cbn. by rewrite app_nil_r.
Qed.

Lemma makedirs_failure_abandons_the_frame_witness :
  let env := host_without_folders in
  let s := Scenario.started [] in
  let b := Scenario.symbol_of "A" in
  let text := py "A" in
  let o := process_symbols env 1 [b; Scenario.symbol_of "B"] (fst s, snd s) in
  (Utf8.decode (data b) = Some text
   /\ extract_sku (PyStr.strip text) ∉ barcode_set (fst s)
   /\ makedirs_ok env (order_folder (fst (use_default_folder (fst s, snd s)))) = false)
  /\ returns o = false
  /\ persisted (snd (final o)) = persisted (snd s) ++ [extract_sku (PyStr.strip text)].
Proof.
  intros env s b text o.
  assert (extract_sku (PyStr.strip text) ∉ barcode_set (fst s)) as Hnew.
  { intros H. vm_compute in H. discriminate. }
  assert (Utf8.decode (data b) = Some text) as D by (vm_compute; reflexivity).
  split; [repeat split; done|].
  destruct (makedirs_failure_abandons_the_frame env 1 b [Scenario.symbol_of "B"]
              text (fst s) (snd s) D Hnew eq_refl) as (H1 & _ & _ & H2 & _).
  split; [exact H1|exact H2].
Defined.
(** ** Without a serial port *)

Lemma quiet_event_store (e : event) :
  store_event e -> serial_bytes e = None.
Proof. intros H. apply store_event_no_serial. by left. Qed.

Lemma quiet_event_device (e : event) :
  device_event e \/ e = EvError MsgCameraOpenFailed -> serial_bytes e = None.
Proof. intros [H| ->]; [by destruct e|done]. Qed.

Section NoPort.

Context (env : Env).

Lemma process_symbol_no_port (frame : Frame) (b : Symbol) (a : App) (w : World) :
  serial_port a = None ->
  serial_writes (snd (final (process_symbol env frame b (a, w)))) = serial_writes w.
Proof.
  intros Hp. destruct (Utf8.decode (data b)) as [text|] eqn:D.
  2:{ by rewrite process_symbol_undecodable. }
  destruct (decide (extract_sku (PyStr.strip text) ∈ barcode_set a)) as [Hin|Hnew].
  { by rewrite (process_symbol_seen env frame b text a w D Hin). }
  rewrite (process_symbol_new env frame b text a w D Hnew).
  set (id := extract_sku (PyStr.strip text)).
  set (a0 := set_barcode_set ({[id]} ∪ barcode_set a) a).
  destruct (capture_image_entry env frame id a0 w) as (_ & _ & He).
  destruct (capture_image_devices env frame id a0 w) as (_ & _ & _ & Hs).
  assert (serial_writes (snd (final (capture_image env frame id (a0, w))))
          = serial_writes w) as Hw.
  { eapply serial_writes_emits; [|exact He].
    intros e [->|[->|H]]; [done|done|by apply quiet_event_store]. }
  destruct (capture_image env frame id (a0, w)) as [[a1 w1]|[a1 w1]];
    cbn [bind final fst snd] in *; [|done].
  rewrite forward_serial_closed; [done|]. cbn. by rewrite Hs.
Qed.

Lemma process_symbols_no_port (frame : Frame) (bs : list Symbol) (s : state) :
  serial_port (fst s) = None ->
  serial_writes (snd (final (process_symbols env frame bs s)))
  = serial_writes (snd s).
Proof.
  revert s. induction bs as [|b bs IH]; intros [a w] Hp; [done|].
  cbn [process_symbols fst snd] in *.
  pose proof (process_symbol_no_port frame b a w Hp) as Hw.
  destruct (process_symbol_invariant env frame b a w) as (_ & _ & Hs & _).
  destruct (process_symbol env frame b (a, w)) as [[a' w']|[a' w']];
    cbn [bind final fst snd] in *; [|done].
  rewrite IH; [done|]. cbn. by rewrite Hs.
Qed.

Lemma update_frame_no_port (s : state) :
  serial_port (fst s) = None ->
  serial_port (fst (final (update_frame env s))) = None
  /\ serial_writes (snd (final (update_frame env s))) = serial_writes (snd s).
Proof.
  destruct s as [a w]. cbn [fst snd]. intros Hp. unfold update_frame.
  destruct (capture a) as [c|] eqn:Hc; [|done].
  assert (forall r w1, serial_writes (emit (EvRead r) w1) = serial_writes w1) as Hrd.
  { intros r w1. unfold serial_writes. cbn. rewrite omap_app. cbn.
    by rewrite app_nil_r. }
  assert (forall w1,
            serial_writes w1 = serial_writes w ->
            let s' := final (stop_camera env (a, w1) >>> fun '(a, w) =>
                             Returned (a, show_error MsgDisconnected w)) in
            serial_port (fst s') = None
            /\ serial_writes (snd s') = serial_writes w) as Hstop.
  { intros w1 Hw1. cbv zeta. rewrite stop_camera_explicit, Hc, Hp.
    cbn [bind final fst snd]. split; [done|]. rewrite <- Hw1.
    eapply (serial_writes_emits (fun e => serial_bytes e = None)); [done|].
    unfold show_error, release. destruct (release_ok env); emits_steps. }
  unfold read. destruct (feed w) as [|[| |frame] rest] eqn:Hf;
    try (apply Hstop; by rewrite Hrd).
  set (s0 := (a, emit (EvDecode frame) (emit (EvRead (RdFrame frame)) (with_feed rest w)))).
  destruct (process_symbols_invariant env frame
              (default [] (pyzbar_decode env frame)) s0) as (_ & _ & Hs & _).
  split; [by rewrite Hs|].
  rewrite (process_symbols_no_port frame _ s0) by done.
  unfold serial_writes. cbn. rewrite !omap_app. cbn. by rewrite !app_nil_r.
Qed.

End NoPort.

Lemma detect_loop_serials (env : Env) (indices : list N) (w : World) :
  serials_open (snd (detect_loop env indices w)) = serials_open w.
Proof.
  revert w. induction indices as [|i rest IH]; intros w; [done|].
  cbn [detect_loop].
  destruct (video_capture_accounted env i (truthy (Some (_get_preferred_backend env))) w)
    as [(_ & Hs & _) _].
  destruct (video_capture env i _ w) as [[c|] w1]; cbn [fst snd] in *.
  - assert (serials_open (release env c w1) = serials_open w1) as Hs2
      by (unfold release; by destruct (release_ok env)).
    specialize (IH (release env c w1)).
    destruct (detect_loop env rest (release env c w1)). cbn [snd] in *.
    congruence.
  - rewrite IH. done.
Qed.

Lemma ticks_no_port (envs : list Env) (s : state) :
  serial_port (fst s) = None ->
  serial_writes (snd (ticks envs s)) = serial_writes (snd s).
Proof.
  revert s. induction envs as [|env envs IH]; intros s Hp; [done|].
  cbn [ticks foldl]. fold (ticks envs (final (update_frame env s))).
  destruct (update_frame_no_port env s Hp) as [Hp' Hw].
  by rewrite IH.
Qed.

(** X21. [populate_serial_ports] selects "None". Started with that
    selection the application opens no serial port and holds none, and over
    any number of ticks nothing is written to a serial line, whatever is
    scanned. *)
Theorem no_port_selected_nothing_is_sent :
  forall env ports a w envs,
    let s1 := final (start_camera env (populate_serial_ports ports a, w)) in
    serial_port (fst s1) = None
    /\ serials_open (snd s1) = serials_open w
    /\ (forall p ok, EvSerialOpen p ok ∉ drop (List.length (trace w)) (trace (snd s1)))
    /\ serial_writes (snd (ticks envs s1)) = serial_writes w.
Proof.
  intros env ports a w envs s1. subst s1.
  set (a0 := populate_serial_ports ports a).
  assert (open_serial env (a0, w) = Some (set_serial_port None a0, w)) as Ho.
  { unfold open_serial. cbn [serial_port_combo a0 populate_serial_ports
                              set_serial_port_combo].
    by rewrite bool_decide_eq_true_2. }
  pose proof (start_camera_after_serial env (a0, w) _ _ Ho) as He.
  set (s1 := final (start_camera env (a0, w))) in *.
  assert (serial_port (fst s1) = None /\ serials_open (snd s1) = serials_open w)
    as [Hp Hs].
  { subst s1. rewrite (start_camera_stages env a0 w _ _ Ho). cbv zeta.
    set (r2 := choose_index env (set_serial_port None a0) w).
    assert (serials_open (snd r2) = serials_open w) as Hs2.
    { subst r2. unfold choose_index, detect_cameras.
      destruct (camera_combo_current _); [done|].
      pose proof (detect_loop_serials env (range 8) w) as H.
      by destruct (detect_loop env (range 8) w). }
    destruct (open_chosen_accounted env (fst r2) (set_serial_port None a0) (snd r2))
      as ((_ & Hs3 & _) & (items & cur & Hsame) & Hnone).
    set (r3 := open_chosen env (fst r2) (set_serial_port None a0, snd r2)) in *.
    cbn [fst snd] in *.
    destruct (fst r3) as [c|].
    - assert (begin_session env c (fst r2) (snd r3)
              = begin_session env c (fst r2) (fst (snd r3), snd (snd r3))) as ->
        by by destruct (snd r3).
      cbn [final].
      destruct (begin_session_keeps env c (fst r2) (fst (snd r3)) (snd (snd r3)))
        as (_ & _ & Hsp & _ & [= _ _ Hse] & _).
      rewrite Hsp, Hse, Hsame. split; [done|congruence].
    - cbn [final fst snd]. rewrite (Hnone eq_refl). split; [done|]. cbn. congruence. }
  split; [done|]. split; [done|]. split.
  - intros p ok. destruct He as (evs & Ht & F). rewrite Ht, drop_app_length.
    intros Hin. apply (proj1 (Forall_forall _ _) F) in Hin as [H|H]; done.
  - rewrite ticks_no_port by done.
    eapply serial_writes_emits; [|exact He]. apply quiet_event_device.
Qed.
